(** * go-tpm2: response codes, wire codec, handle contexts and the registry

    A shallow embedding of the host-side TPM 2.0 library: the response-code
    decoder ([errors.go]), the reflective marshaller ([mu]), the handle
    contexts with their serialized form ([resources.go]) and the registry
    effect of [Clear] ([cmds_hierarchy.go]).

    Machine integers are [Z] with the wrap-around of their width written
    out; byte strings are [list Z] with every element in [0, 256). *)

From Stdlib Require Import ZArith List Bool String Ascii Lia.
From stdpp Require Import gmap.
Import ListNotations.
Local Open Scope Z_scope.
Set Warnings "-register-all".

(* ===================================================================== *)
(** * Part I: the program *)
(* ===================================================================== *)

(** ** Fixed-width integers *)

Definition wrap8 (z : Z) : Z := z mod 2 ^ 8.
Definition wrap16 (z : Z) : Z := z mod 2 ^ 16.
Definition wrap32 (z : Z) : Z := z mod 2 ^ 32.

(** ** Response codes and the error taxonomy ([errors.go]) *)

Module Errors.

(** The sentinels of [errors.go]. *)
Definition AnyCommandCode : Z := 0xc0000000.
Definition AnyErrorCode : Z := 0x100.
Definition AnyHandleIndex : Z := -1.
Definition AnyParameterIndex : Z := -1.
Definition AnySessionIndex : Z := -1.
Definition AnyWarningCode : Z := 0x80.

(** The response-code constants are declared in a table that is not part of
    the sources at hand. [Success] is the all-zero code; the bias of the
    format-one codes and the two codes that [CreateResourceContextFromTPM]
    tests for are kept as parameters. *)
Class ResponseCodeTable := {
  errorCode1Start : Z;
  ErrorHandle : Z;
  WarningReferenceH0 : Z
}.

Definition Success : Z := 0.

(** Modelled from the spec: the declaration of [ErrorECCPoint] is absent;
    the TCG code table places it at offset 0x27 of the format-one codes. *)
Definition ErrorECCPoint `{ResponseCodeTable} : Z := errorCode1Start + 0x27.

(** [*TPMError]: the command and the error code. *)
Record TPMErrorData := mkTPMError { Command : Z; Code : Z }.

(** Go's [error] values that the modelled functions produce or inspect.
    The [err] field of the parameter, session and handle errors always
    holds a [*TPMError] (their [Command] and [Code] methods assert it).
    [WrapError] is [xerrors.Errorf] with a wrapped cause, [OtherError] an
    error without one. *)
Inductive error : Type :=
| ResourceUnavailableError (Handle : Z)
| InvalidResponseError (Command : Z) (msg : string)
| TctiError (Op : string) (err : error)
| TPM1Error (Command : Z) (Code : Z)
| TPMVendorError (Command : Z) (Code : Z)
| TPMWarning (Command : Z) (Code : Z)
| TPMError (e : TPMErrorData)
| TPMParameterError (Index : Z) (err : TPMErrorData)
| TPMSessionError (Index : Z) (err : TPMErrorData)
| TPMHandleError (Index : Z) (err : TPMErrorData)
| WrapError (msg : string) (err : error)
| OtherError (msg : string).

Definition formatMask : Z := Z.shiftl 1 7.

Definition fmt0ErrorCodeMask : Z := 0x7f.
Definition fmt0VersionMask : Z := Z.shiftl 1 8.
Definition fmt0VendorMask : Z := Z.shiftl 1 10.
Definition fmt0SeverityMask : Z := Z.shiftl 1 11.

Definition fmt1ErrorCodeMask : Z := 0x3f.
Definition fmt1IndexShift : Z := 8.
Definition fmt1ParameterIndexMask : Z := Z.shiftl 0xf fmt1IndexShift.
Definition fmt1HandleOrSessionIndexMask : Z := Z.shiftl 0x7 fmt1IndexShift.
Definition fmt1ParameterMask : Z := Z.shiftl 1 6.
Definition fmt1SessionMask : Z := Z.shiftl 1 11.

(** [DecodeResponseCode]: [None] is Go's nil error. *)
Definition DecodeResponseCode `{ResponseCodeTable} (command resp : Z) : option error :=
  if resp =? Success then None
  else if Z.land resp formatMask =? 0 then
    (* Format 0 error codes *)
    if Z.land resp fmt0VersionMask =? 0 then
      Some (TPM1Error command resp)
    else if Z.land resp fmt0VendorMask >? 0 then
      Some (TPMVendorError command resp)
    else if Z.land resp fmt0SeverityMask >? 0 then
      Some (TPMWarning command (Z.land resp fmt0ErrorCodeMask))
    else
      Some (TPMError (mkTPMError command (Z.land resp fmt0ErrorCodeMask)))
  else
    (* Format 1 error codes *)
    let err := mkTPMError command (wrap32 (Z.land resp fmt1ErrorCodeMask + errorCode1Start)) in
    if Z.land resp fmt1ParameterMask >? 0 then
      Some (TPMParameterError (Z.shiftr (Z.land resp fmt1ParameterIndexMask) fmt1IndexShift) err)
    else if Z.land resp fmt1SessionMask >? 0 then
      Some (TPMSessionError (Z.shiftr (Z.land resp fmt1HandleOrSessionIndexMask) fmt1IndexShift) err)
    else if Z.land resp fmt1HandleOrSessionIndexMask >? 0 then
      Some (TPMHandleError (Z.shiftr (Z.land resp fmt1HandleOrSessionIndexMask) fmt1IndexShift) err)
    else
      Some (TPMError err).

(** [Unwrap]: the cause an error wraps, if any. *)
Definition Unwrap (e : error) : option error :=
  match e with
  | TctiError _ err => Some err
  | TPMParameterError _ err => Some (TPMError err)
  | TPMSessionError _ err => Some (TPMError err)
  | TPMHandleError _ err => Some (TPMError err)
  | WrapError _ err => Some err
  | _ => None
  end.

(** [xerrors.As] for a target type given by [target]: the first error of
    the chain that has the type. A wrapped [*TPMError] ends its chain. *)
Fixpoint As (target : error -> bool) (e : error) : option error :=
  if target e then Some e
  else match e with
       | TctiError _ err | WrapError _ err => As target err
       | TPMParameterError _ err | TPMSessionError _ err | TPMHandleError _ err =>
         if target (TPMError err) then Some (TPMError err) else None
       | _ => None
       end.

Definition isTPMWarning (e : error) : bool :=
  match e with TPMWarning _ _ => true | _ => false end.
Definition isTPMHandleError (e : error) : bool :=
  match e with TPMHandleError _ _ => true | _ => false end.

(** [IsTPMWarning], [IsTPMHandleError]: [err] is Go's possibly-nil error. *)
Definition IsTPMWarning (err : option error) (code command : Z) : bool :=
  match err with
  | None => false
  | Some e =>
    match As isTPMWarning e with
    | Some (TPMWarning cmd c) =>
      ((code =? AnyWarningCode) || (c =? code)) && ((command =? AnyCommandCode) || (cmd =? command))
    | _ => false
    end
  end.

Definition IsTPMHandleError (err : option error) (code command handle : Z) : bool :=
  match err with
  | None => false
  | Some e =>
    match As isTPMHandleError e with
    | Some (TPMHandleError idx ue) =>
      ((code =? AnyErrorCode) || (Code ue =? code))
      && ((command =? AnyCommandCode) || (Command ue =? command))
      && ((handle =? AnyHandleIndex) || (idx =? handle))
    | _ => false
    end
  end.

(** The taxonomy of response codes as the specification words it, bit by
    bit: format zero when bit 7 is clear, then the version bit 8, the
    vendor bit 10 and the severity bit 11; format one otherwise, with the
    parameter flag bit 6, the session flag bit 11 and the index in bits
    8 to 11 (parameter) or 8 to 10 (session, handle). *)
Definition taxonomy `{ResponseCodeTable} (command resp : Z) : option error :=
  if resp =? 0 then None
  else if negb (Z.testbit resp 7) then
    if negb (Z.testbit resp 8) then Some (TPM1Error command resp)
    else if Z.testbit resp 10 then Some (TPMVendorError command resp)
    else if Z.testbit resp 11 then Some (TPMWarning command (resp mod 2 ^ 7))
    else Some (TPMError (mkTPMError command (resp mod 2 ^ 7)))
  else
    let err := mkTPMError command (resp mod 2 ^ 6 + errorCode1Start) in
    if Z.testbit resp 6 then Some (TPMParameterError ((resp / 2 ^ 8) mod 2 ^ 4) err)
    else if Z.testbit resp 11 then Some (TPMSessionError ((resp / 2 ^ 8) mod 2 ^ 3) err)
    else if negb ((resp / 2 ^ 8) mod 2 ^ 3 =? 0) then
      Some (TPMHandleError ((resp / 2 ^ 8) mod 2 ^ 3) err)
    else Some (TPMError err).

(** The other predicates of [errors.go]. *)
Definition isTPMError (e : error) : bool :=
  match e with TPMError _ => true | _ => false end.
Definition isTPMParameterError (e : error) : bool :=
  match e with TPMParameterError _ _ => true | _ => false end.
Definition isTPMSessionError (e : error) : bool :=
  match e with TPMSessionError _ _ => true | _ => false end.

Definition IsTPMError (err : option error) (code command : Z) : bool :=
  match err with
  | None => false
  | Some e =>
    match As isTPMError e with
    | Some (TPMError ue) =>
      ((code =? AnyErrorCode) || (Code ue =? code))
      && ((command =? AnyCommandCode) || (Command ue =? command))
    | _ => false
    end
  end.

Definition IsTPMParameterError (err : option error) (code command param : Z) : bool :=
  match err with
  | None => false
  | Some e =>
    match As isTPMParameterError e with
    | Some (TPMParameterError idx ue) =>
      ((code =? AnyErrorCode) || (Code ue =? code))
      && ((command =? AnyCommandCode) || (Command ue =? command))
      && ((param =? AnyParameterIndex) || (idx =? param))
    | _ => false
    end
  end.

Definition IsTPMSessionError (err : option error) (code command session : Z) : bool :=
  match err with
  | None => false
  | Some e =>
    match As isTPMSessionError e with
    | Some (TPMSessionError idx ue) =>
      ((code =? AnyErrorCode) || (Code ue =? code))
      && ((command =? AnyCommandCode) || (Command ue =? command))
      && ((session =? AnySessionIndex) || (idx =? session))
    | _ => false
    end
  end.

(** The code table of the TCG library specification, for evaluating the
    decoder on the literal vectors. *)
Definition tcgTable : ResponseCodeTable :=
  {| errorCode1Start := 0x80; ErrorHandle := 0x8b; WarningReferenceH0 := 0x10 |}.

End Errors.

(** ** Results and the byte-level primitives of [encoding/binary] *)

(** A Go call that returns a value or an error. *)
Inductive result (E A : Type) : Type :=
| Ok (a : A)
| Err (e : E).
Arguments Ok {E A} a.
Arguments Err {E A} e.

Definition bind {E A B : Type} (r : result E A) (f : A -> result E B) : result E B :=
  match r with
  | Ok a => f a
  | Err e => Err e
  end.

Notation "'do' x <- c ; k" := (bind c (fun x => k))
  (at level 10, x pattern, c at level 100, k at level 200).

(** [binary.Write] of an [n]-byte unsigned integer in big-endian order. *)
Fixpoint be (n : nat) (v : Z) : list Z :=
  match n with
  | O => []
  | S k => (v / 2 ^ (8 * Z.of_nat k)) mod 256 :: be k v
  end.

(** The integer that a big-endian byte string denotes. *)
Definition decode_be (l : list Z) : Z :=
  fold_left (fun acc b => acc * 256 + b) l 0.

(** [io.ReadFull] of [n] bytes: the bytes read and the rest of the input,
    or nothing when the input is too short. *)
Definition readN (n : nat) (buf : list Z) : option (list Z * list Z) :=
  if (length buf <? n)%nat then None else Some (firstn n buf, skipn n buf).

Definition len (l : list Z) : Z := Z.of_nat (length l).

(** ** The reflective marshaller ([mu]) *)

Module Mu.

(** *** Types and values as [reflect] presents them *)

(** The type descriptors the marshaller distinguishes. [Int] covers the
    fixed-size integer kinds ([size] in bytes), [Unsized] the kinds that
    [binary.Write] rejects (int, uint, string), [Unsupported] the kinds the
    marshaller rejects itself (array, chan, func, interface, map, unsafe
    pointer). A struct lists its fields with name, [tpm2] tag and type. A
    [Union] is a one-field struct that implements [Union]: [field0] is
    [None] when the field is an empty interface, and [alts] is the table of
    its [Select] method (selector value to selected type, [None] for the
    nil type). [Custom] is a type whose pointer implements
    [CustomMarshaller]. *)
Inductive type : Type :=
| Int (signed : bool) (size : nat)
| Bool
| Ptr (elem : type)
| Struct (fields : list (string * string * type))
| Union (field0 : option type) (alts : list (Z * option type))
| Slice (elem : type)
| RawBytes
| Custom (id : nat) (underlying : type)
| Unsupported
| Unsized.

(** The data of a value; [None] is nil. An interface holds its dynamic
    type with the data. *)
Inductive data : Type :=
| VInt (n : Z)
| VBool (b : bool)
| VPtr (p : option data)
| VStruct (fs : list data)
| VSlice (s : option (list data))
| VIface (i : option (type * data))
| VOpaque.

(** A [reflect.Value]: type, data and addressability. *)
Record Value := mkValue { vtype : type; vdata : data; vaddr : bool }.

Inductive Kind : Type :=
| KInt (signed : bool) (size : nat)
| KBool | KPtr | KStruct | KSlice | KUnsupported | KUnsized.

Fixpoint kindOf (t : type) : Kind :=
  match t with
  | Int s n => KInt s n
  | Bool => KBool
  | Ptr _ => KPtr
  | Struct _ | Union _ _ => KStruct
  | Slice _ | RawBytes => KSlice
  | Custom _ u => kindOf u
  | Unsupported => KUnsupported
  | Unsized => KUnsized
  end.

Definition isPtr (t : type) : bool := match kindOf t with KPtr => true | _ => false end.
Definition isStruct (t : type) : bool := match kindOf t with KStruct => true | _ => false end.

(** [t.Elem()] of a pointer or slice type. *)
Fixpoint Elem (t : type) : type :=
  match t with
  | Ptr e | Slice e => e
  | RawBytes => Int false 1
  | Custom _ u => Elem u
  | _ => Unsupported
  end.

(** [reflect.Zero]. *)
Fixpoint Zero (t : type) : data :=
  match t with
  | Int _ _ => VInt 0
  | Bool => VBool false
  | Ptr _ => VPtr None
  | Struct fs => VStruct (map (fun f => match f with (_, _, ft) => Zero ft end) fs)
  | Union f0 _ => VStruct [match f0 with Some ft => Zero ft | None => VIface None end]
  | Slice _ | RawBytes => VSlice None
  | Custom _ u => Zero u
  | Unsupported | Unsized => VOpaque
  end.

Definition IsNil (v : Value) : bool :=
  match vdata v with
  | VPtr None | VSlice None | VIface None => true
  | _ => false
  end.

(** Identity of types. *)
Fixpoint type_eqb (a b : type) : bool :=
  match a, b with
  | Int s n, Int s' n' => Bool.eqb s s' && Nat.eqb n n'
  | Bool, Bool => true
  | Ptr x, Ptr y => type_eqb x y
  | Struct fs, Struct gs =>
    (fix go (fs gs : list (string * string * type)) : bool :=
       match fs, gs with
       | [], [] => true
       | (n, t, ft) :: fs', (n', t', gt) :: gs' =>
         String.eqb n n' && String.eqb t t' && type_eqb ft gt && go fs' gs'
       | _, _ => false
       end) fs gs
  | Union f0 xs, Union g0 ys =>
    match f0, g0 with
    | Some x, Some y => type_eqb x y
    | None, None => true
    | _, _ => false
    end
    && (fix go (xs ys : list (Z * option type)) : bool :=
          match xs, ys with
          | [], [] => true
          | (k, x) :: xs', (k', y) :: ys' =>
            (k =? k')
            && match x, y with
               | Some x, Some y => type_eqb x y
               | None, None => true
               | _, _ => false
               end
            && go xs' ys'
          | _, _ => false
          end) xs ys
  | Slice x, Slice y => type_eqb x y
  | RawBytes, RawBytes => true
  | Custom i x, Custom j y => Nat.eqb i j && type_eqb x y
  | Unsupported, Unsupported => true
  | Unsized, Unsized => true
  | _, _ => false
  end.

(** The causes of the errors the marshaller returns (the messages that
    wrap a cause on its way up are dropped). [Panic] is a Go panic,
    [OutOfFuel] the bound on the depth of the recursion. *)
Inductive muError : Type :=
| NotAPointer | NotAPointerToStruct
| NotInsideContainer | NotInsideValidUnionContainer
| NoSelectorMember | InvalidSelectorMemberName
| CannotSelectUnionType | IncorrectDataType
| UnsupportedKind
| NonAddressableCustom | NilPointerCustom | CustomFailed
| WriteFailed | ReadFailed
| ZeroSizedPreallocated
| CannotSetPointer | CannotSetData | CannotSetSlice
| NilRawByteSlice | NilRawSlice
| NonAddressable
| NonPointerDestination | NilDestination
| OutOfFuel | Panic.

(** What lies outside the marshaller: the [Marshal] and [Unmarshal]
    methods of the custom types (by type id, on the data of the receiver)
    and the conversions of [reflect]. *)
Class Reflection := {
  customMarshal : nat -> data -> result muError (list Z);
  customUnmarshal : nat -> data -> list Z -> result muError (data * list Z);
  ConvertibleTo : type -> type -> bool;
  Convert : type -> data -> type -> data
}.

Definition isValidUnionContainer (t : type) : bool := isStruct t.

Definition isUnion (t : type) : bool :=
  match t with Union _ _ => true | _ => false end.

Definition isSizedBuffer (t : type) : bool :=
  match kindOf t with
  | KSlice => match kindOf (Elem t) with KInt false 1%nat => true | _ => false end
  | _ => false
  end.

Definition hasCustomMarshallerImpl (t : type) : bool :=
  match t with
  | Custom _ _ => true
  | Ptr (Custom _ _) => true
  | _ => false
  end.

Definition customId (t : type) : nat :=
  match t with
  | Custom id _ => id
  | Ptr (Custom id _) => id
  | _ => O
  end.

(** *** Field options *)

Record muOptions := mkOptions { selector : string; sized : bool; raw : bool }.

Definition noOptions : muOptions := mkOptions "" false false.

(** [strings.Split(s, ",")], with [cur] the part read so far. *)
Fixpoint split (sep : ascii) (s cur : string) : list string :=
  match s with
  | EmptyString => [cur]
  | String c s' =>
    if Ascii.eqb c sep then cur :: split sep s' EmptyString
    else split sep s' (cur ++ String c EmptyString)%string
  end.

Definition parseFieldOptions (s : string) : muOptions :=
  fold_left
    (fun opts part =>
       if String.prefix "selector:" part then
         mkOptions (String.substring 9 (String.length part - 9) part) (sized opts) (raw opts)
       else if String.eqb part "sized" then mkOptions (selector opts) true (raw opts)
       else if String.eqb part "raw" then mkOptions (selector opts) (sized opts) true
       else opts)
    (split "," s EmptyString) noOptions.

(** *** Contexts *)

(** Of the container only the type and the data are ever consulted. *)
Record muContext := mkContext {
  depth : nat;
  container : option (type * data);
  parentType : option type;
  options : muOptions
}.

Definition newContext : muContext := mkContext O None None noOptions.

Definition beginStructFieldCtx (ctx : muContext) (s : Value) (tag : string) : muContext :=
  mkContext (depth ctx) (Some (vtype s, vdata s)) (Some (vtype s)) (parseFieldOptions tag).

Definition beginUnionDataCtx (ctx : muContext) (u : Value) : muContext :=
  mkContext (depth ctx) (Some (vtype u, vdata u)) (Some (vtype u)) noOptions.

Definition beginSliceElemCtx (ctx : muContext) (s : Value) : muContext :=
  mkContext (depth ctx) (Some (vtype s, vdata s)) (Some (vtype s)) noOptions.

Definition beginPtrElemCtx (ctx : muContext) (p : Value) : muContext :=
  mkContext (depth ctx) (container ctx) (Some (vtype p)) (options ctx).

Definition beginSizedStructCtx (ctx : muContext) : muContext :=
  mkContext (depth ctx) (container ctx) (parentType ctx)
            (mkOptions (selector (options ctx)) false (raw (options ctx))).

Definition beginInterfaceElemCtx (ctx : muContext) (i : Value) : muContext :=
  mkContext (depth ctx) (container ctx) (Some (vtype i)) (options ctx).

(** The context a call of [marshalValue] or [unmarshalValue] works with. *)
Definition enter (ctx : option muContext) : muContext :=
  match ctx with
  | None => newContext
  | Some c => mkContext (S (depth c)) (container c) (parentType c) (options c)
  end.

(** [container.FieldByName(name)]: type and data of the named field. *)
Fixpoint fieldByName (fs : list (string * string * type)) (ds : list data) (name : string)
  : option (type * data) :=
  match fs, ds with
  | (n, _, ft) :: fs', d :: ds' =>
    if String.eqb n name then Some (ft, d) else fieldByName fs' ds' name
  | _, _ => None
  end.

Definition FieldByName (c : type * data) (name : string) : option (type * data) :=
  match c with
  | (Struct fs, VStruct ds) => fieldByName fs ds name
  | _ => None
  end.

(** The [Select] method of a union with the table [alts]. *)
Fixpoint lookupAlt (alts : list (Z * option type)) (sel : Z) : result muError (option type) :=
  match alts with
  | [] => Err CannotSelectUnionType
  | (k, t) :: rest => if k =? sel then Ok t else lookupAlt rest sel
  end.

Definition Select (u : type) (selectorVal : type * data) : result muError (option type) :=
  match u, selectorVal with
  | Union _ alts, (_, VInt sel) => lookupAlt alts sel
  | _, _ => Err Panic
  end.

(** *** Marshalling *)

(** [binary.Write] of a value of a basic kind. *)
Definition binaryWrite (val : Value) : result muError (list Z) :=
  match kindOf (vtype val), vdata val with
  | KInt _ n, VInt v => Ok (be n v)
  | KBool, VBool b => Ok [if b then 1 else 0]
  | KUnsized, _ => Err WriteFailed
  | _, _ => Err Panic
  end.

(** The recursive call [marshalValue(buf, val, ctx)]: the bytes written. *)
Definition marshaller := Value -> option muContext -> result muError (list Z).

Definition marshalSized (rec : marshaller) (s : Value) (ctx : muContext)
  : result muError (list Z) :=
  if negb (isPtr (vtype s)) then Err NotAPointer
  else if negb (isStruct (Elem (vtype s))) then Err NotAPointerToStruct
  else if IsNil s then Ok (be 2 0)
  else
    do tmpBuf <- rec s (Some (beginSizedStructCtx ctx));
    Ok (be 2 (wrap16 (len tmpBuf)) ++ tmpBuf).

Definition marshalPtr (rec : marshaller) (ptr : Value) (ctx : muContext)
  : result muError (list Z) :=
  match vdata ptr with
  | VPtr None =>
    rec (mkValue (Elem (vtype ptr)) (Zero (Elem (vtype ptr))) false)
        (Some (beginPtrElemCtx ctx ptr))
  | VPtr (Some d) =>
    rec (mkValue (Elem (vtype ptr)) d true) (Some (beginPtrElemCtx ctx ptr))
  | _ => Err Panic
  end.

Definition marshalUnion `{Reflection} (rec : marshaller) (u : Value) (ctx : muContext)
  : result muError (list Z) :=
  match container ctx with
  | None => Err NotInsideContainer
  | Some c =>
    if negb (isValidUnionContainer (fst c)) then Err NotInsideValidUnionContainer
    else if String.eqb (selector (options ctx)) "" then Err NoSelectorMember
    else
      match FieldByName c (selector (options ctx)) with
      | None => Err InvalidSelectorMemberName
      | Some selectorVal =>
        do selected <- Select (vtype u) selectorVal;
        match selected with
        | None => Ok []
        | Some selectedType =>
          match vtype u, vdata u with
          | Union field0 _, VStruct [f] =>
            let d :=
              match field0, f with
              | None, VIface None => Some (mkValue selectedType (Zero selectedType) false)
              | None, VIface (Some (t, x)) => Some (mkValue t x false)
              | None, _ => None
              | Some ft, _ => Some (mkValue ft f (vaddr u))
              end in
            match d with
            | None => Err Panic
            | Some d =>
              if type_eqb (vtype d) selectedType then rec d (Some (beginUnionDataCtx ctx u))
              else if negb (ConvertibleTo (vtype d) selectedType) then Err IncorrectDataType
              else rec (mkValue selectedType (Convert (vtype d) (vdata d) selectedType) false)
                       (Some (beginUnionDataCtx ctx u))
            end
          | _, _ => Err Panic
          end
        end
      end
  end.

(** The loop of [marshalStruct] over the fields. *)
Fixpoint marshalFields (rec : marshaller) (ctx : muContext) (s : Value)
  (fs : list (string * string * type)) (ds : list data) : result muError (list Z) :=
  match fs, ds with
  | [], [] => Ok []
  | (_, tag, ft) :: fs', d :: ds' =>
    do b <- rec (mkValue ft d (vaddr s)) (Some (beginStructFieldCtx ctx s tag));
    do bs <- marshalFields rec ctx s fs' ds';
    Ok (b ++ bs)
  | _, _ => Err Panic
  end.

Definition marshalStruct `{Reflection} (rec : marshaller) (s : Value) (ctx : muContext)
  : result muError (list Z) :=
  if isUnion (vtype s) then marshalUnion rec s ctx
  else
    match vtype s, vdata s with
    | Struct fs, VStruct ds => marshalFields rec ctx s fs ds
    | _, _ => Err Panic
    end.

(** The loop of [marshalSlice] over the elements. *)
Fixpoint marshalElems (rec : marshaller) (ctx : muContext) (slice : Value) (ds : list data)
  : result muError (list Z) :=
  match ds with
  | [] => Ok []
  | d :: ds' =>
    do b <- rec (mkValue (Elem (vtype slice)) d true) (Some (beginSliceElemCtx ctx slice));
    do bs <- marshalElems rec ctx slice ds';
    Ok (b ++ bs)
  end.

(** [slice.Bytes()]. *)
Fixpoint sliceBytes (ds : list data) : result muError (list Z) :=
  match ds with
  | [] => Ok []
  | VInt v :: ds' => do bs <- sliceBytes ds'; Ok (wrap8 v :: bs)
  | _ => Err Panic
  end.

Definition elems (v : Value) : result muError (list data) :=
  match vdata v with
  | VSlice None => Ok []
  | VSlice (Some ds) => Ok ds
  | _ => Err Panic
  end.

Definition marshalSlice (rec : marshaller) (slice : Value) (ctx : muContext)
  : result muError (list Z) :=
  do ds <- elems slice;
  match vtype slice with
  | RawBytes =>
    (* Shortcut for raw byte-slice *)
    sliceBytes ds
  | _ =>
    let size :=
      if raw (options ctx) then []
      else if isSizedBuffer (vtype slice) then be 2 (wrap16 (Z.of_nat (length ds)))
      else be 4 (wrap32 (Z.of_nat (length ds))) in
    do body <- marshalElems rec ctx slice ds;
    Ok (size ++ body)
  end.

Fixpoint marshalValue `{Reflection} (fuel : nat) (val : Value) (ctx : option muContext)
  {struct fuel} : result muError (list Z) :=
  match fuel with
  | O => Err OutOfFuel
  | S fuel' =>
    let rec := marshalValue fuel' in
    if hasCustomMarshallerImpl (vtype val) then
      if negb (isPtr (vtype val)) && negb (vaddr val) then Err NonAddressableCustom
      else if negb (isPtr (vtype val)) then customMarshal (customId (vtype val)) (vdata val)
      else
        match vdata val with
        | VPtr None => Err NilPointerCustom
        | VPtr (Some d) => customMarshal (customId (vtype val)) d
        | _ => Err Panic
        end
    else
      let ctx := enter ctx in
      if sized (options ctx) then marshalSized rec val ctx
      else
        match kindOf (vtype val) with
        | KPtr => marshalPtr rec val ctx
        | KStruct => marshalStruct rec val ctx
        | KSlice => marshalSlice rec val ctx
        | KUnsupported => Err UnsupportedKind
        | _ => binaryWrite val
        end
  end.

(** [reflect.ValueOf] of an argument passed as [interface{}]. *)
Definition ValueOf (v : type * data) : Value := mkValue (fst v) (snd v) false.

Fixpoint MarshalToWriter `{Reflection} (fuel : nat) (vals : list (type * data))
  : result muError (list Z) :=
  match vals with
  | [] => Ok []
  | val :: vals' =>
    do b <- marshalValue fuel (ValueOf val) None;
    do bs <- MarshalToWriter fuel vals';
    Ok (b ++ bs)
  end.

Definition MarshalToBytes `{Reflection} (fuel : nat) (vals : list (type * data))
  : result muError (list Z) :=
  MarshalToWriter fuel vals.

(** *** Unmarshalling *)

(** [binary.Read] into a value of a basic kind. *)
Definition binaryRead (buf : list Z) (val : Value) : result muError (data * list Z) :=
  match kindOf (vtype val) with
  | KInt _ n =>
    match readN n buf with
    | Some (bs, rest) => Ok (VInt (decode_be bs), rest)
    | None => Err ReadFailed
    end
  | KBool =>
    match readN 1 buf with
    | Some (bs, rest) => Ok (VBool (negb (decode_be bs =? 0)), rest)
    | None => Err ReadFailed
    end
  | KUnsized => Err ReadFailed
  | _ => Err Panic
  end.

(** The recursive call [unmarshalValue(buf, val, ctx)]: the data of [val]
    afterwards and the input that remains. *)
Definition unmarshaller :=
  list Z -> Value -> option muContext -> result muError (data * list Z).

Definition unmarshalSized (rec : unmarshaller) (buf : list Z) (s : Value) (ctx : muContext)
  : result muError (data * list Z) :=
  if negb (isPtr (vtype s)) then Err NotAPointer
  else if negb (isStruct (Elem (vtype s))) then Err NotAPointerToStruct
  else
    match readN 2 buf with
    | None => Err ReadFailed
    | Some (bs, buf) =>
      let size := decode_be bs in
      if (size =? 0) && negb (IsNil s) then Err ZeroSizedPreallocated
      else if size =? 0 then Ok (vdata s, buf)
      else if IsNil s && negb (vaddr s) then Err CannotSetPointer
      else
        let s := if IsNil s
                 then mkValue (vtype s) (VPtr (Some (Zero (Elem (vtype s))))) (vaddr s)
                 else s in
        (* io.LimitReader(buf, size) *)
        do r <- rec (firstn (Z.to_nat size) buf) s (Some (beginSizedStructCtx ctx));
        Ok (fst r, snd r ++ skipn (Z.to_nat size) buf)
    end.

Definition unmarshalPtr (rec : unmarshaller) (buf : list Z) (ptr : Value) (ctx : muContext)
  : result muError (data * list Z) :=
  match vdata ptr with
  | VPtr None =>
    if negb (vaddr ptr) then Err CannotSetPointer
    else
      let ptr' := mkValue (vtype ptr) (VPtr (Some (Zero (Elem (vtype ptr))))) (vaddr ptr) in
      do r <- rec buf (mkValue (Elem (vtype ptr)) (Zero (Elem (vtype ptr))) true)
                  (Some (beginPtrElemCtx ctx ptr'));
      Ok (VPtr (Some (fst r)), snd r)
  | VPtr (Some d) =>
    do r <- rec buf (mkValue (Elem (vtype ptr)) d true) (Some (beginPtrElemCtx ctx ptr));
    Ok (VPtr (Some (fst r)), snd r)
  | _ => Err Panic
  end.

Definition unmarshalUnion (rec : unmarshaller) (buf : list Z) (u : Value) (ctx : muContext)
  : result muError (data * list Z) :=
  match container ctx with
  | None => Err NotInsideContainer
  | Some c =>
    if negb (isValidUnionContainer (fst c)) then Err NotInsideValidUnionContainer
    else if String.eqb (selector (options ctx)) "" then Err NoSelectorMember
    else
      match FieldByName c (selector (options ctx)) with
      | None => Err InvalidSelectorMemberName
      | Some selectorVal =>
        do selected <- Select (vtype u) selectorVal;
        match selected with
        | None => Ok (vdata u, buf)
        | Some selectedType =>
          match vtype u, vdata u with
          | Union None _, VStruct [VIface None] =>
            if negb (vaddr u) then Err CannotSetData
            else
              do r <- rec buf (mkValue selectedType (Zero selectedType) true)
                          (Some (beginUnionDataCtx ctx u));
              Ok (VStruct [VIface (Some (selectedType, fst r))], snd r)
          | Union None _, VStruct [VIface (Some (t, x))] =>
            do r <- rec buf (mkValue t x false) (Some (beginUnionDataCtx ctx u));
            Ok (VStruct [VIface (Some (t, fst r))], snd r)
          | Union (Some ft) _, VStruct [f] =>
            do r <- rec buf (mkValue ft f (vaddr u)) (Some (beginUnionDataCtx ctx u));
            Ok (VStruct [fst r], snd r)
          | _, _ => Err Panic
          end
        end
      end
  end.

(** The loop of [unmarshalStruct] over the fields. The structure is
    decoded in place, so the container of a field is the structure as it
    is when the loop reaches the field: [decoded] holds the fields before
    it as they were read, [ds] this field and those after it as they were
    passed in. *)
Fixpoint unmarshalFields (rec : unmarshaller) (ctx : muContext) (s : Value)
  (decoded : list data) (fs : list (string * string * type)) (ds : list data) (buf : list Z)
  : result muError (list data * list Z) :=
  match fs, ds with
  | [], [] => Ok ([], buf)
  | (_, tag, ft) :: fs', d :: ds' =>
    let s' := mkValue (vtype s) (VStruct (decoded ++ ds)) (vaddr s) in
    do r <- rec buf (mkValue ft d (vaddr s)) (Some (beginStructFieldCtx ctx s' tag));
    do rs <- unmarshalFields rec ctx s (decoded ++ [fst r]) fs' ds' (snd r);
    Ok (fst r :: fst rs, snd rs)
  | _, _ => Err Panic
  end.

Definition unmarshalStruct (rec : unmarshaller) (buf : list Z) (s : Value) (ctx : muContext)
  : result muError (data * list Z) :=
  if isUnion (vtype s) then unmarshalUnion rec buf s ctx
  else
    match vtype s, vdata s with
    | Struct fs, VStruct ds =>
      do r <- unmarshalFields rec ctx s [] fs ds buf;
      Ok (VStruct (fst r), snd r)
    | _, _ => Err Panic
    end.

(** The loop of [unmarshalSlice] over the elements. *)
Fixpoint unmarshalElems (rec : unmarshaller) (ctx : muContext) (slice : Value)
  (ds : list data) (buf : list Z) : result muError (list data * list Z) :=
  match ds with
  | [] => Ok ([], buf)
  | d :: ds' =>
    do r <- rec buf (mkValue (Elem (vtype slice)) d true) (Some (beginSliceElemCtx ctx slice));
    do rs <- unmarshalElems rec ctx slice ds' (snd r);
    Ok (fst r :: fst rs, snd rs)
  end.

Definition unmarshalSlice (rec : unmarshaller) (buf : list Z) (slice : Value) (ctx : muContext)
  : result muError (data * list Z) :=
  match vtype slice, vdata slice with
  | RawBytes, VSlice None => Err NilRawByteSlice
  | RawBytes, VSlice (Some ds) =>
    (* Shortcut for raw byte-slice *)
    match readN (length ds) buf with
    | Some (bs, rest) => Ok (VSlice (Some (map VInt bs)), rest)
    | None => Err ReadFailed
    end
  | _, VSlice ds =>
    do lb <-
      (if raw (options ctx) then
         if IsNil slice then Err NilRawSlice else Ok (0, buf)
       else if isSizedBuffer (vtype slice) then
         match readN 2 buf with
         | Some (bs, rest) => Ok (decode_be bs, rest)
         | None => Err ReadFailed
         end
       else
         match readN 4 buf with
         | Some (bs, rest) => Ok (decode_be bs, rest)
         | None => Err ReadFailed
         end);
    (* Allocate the slice *)
    do ds <-
      match ds with
      | None =>
        if negb (vaddr slice) then Err CannotSetSlice
        else Ok (repeat (Zero (Elem (vtype slice))) (Z.to_nat (fst lb)))
      | Some ds => Ok ds
      end;
    do r <- unmarshalElems rec ctx (mkValue (vtype slice) (VSlice (Some ds)) (vaddr slice))
                           ds (snd lb);
    Ok (VSlice (Some (fst r)), snd r)
  | _, _ => Err Panic
  end.

Fixpoint unmarshalValue `{Reflection} (fuel : nat) (buf : list Z) (val : Value)
  (ctx : option muContext) {struct fuel} : result muError (data * list Z) :=
  match fuel with
  | O => Err OutOfFuel
  | S fuel' =>
    let rec := unmarshalValue fuel' in
    if hasCustomMarshallerImpl (vtype val) then
      if negb (isPtr (vtype val)) && negb (vaddr val) then Err NonAddressableCustom
      else if negb (isPtr (vtype val)) then
        customUnmarshal (customId (vtype val)) (vdata val) buf
      else
        match vdata val with
        | VPtr None =>
          if negb (vaddr val) then Err Panic
          else
            do r <- customUnmarshal (customId (vtype val)) (Zero (Elem (vtype val))) buf;
            Ok (VPtr (Some (fst r)), snd r)
        | VPtr (Some d) =>
          do r <- customUnmarshal (customId (vtype val)) d buf;
          Ok (VPtr (Some (fst r)), snd r)
        | _ => Err Panic
        end
    else
      let ctx := enter ctx in
      if sized (options ctx) then unmarshalSized rec buf val ctx
      else
        match kindOf (vtype val) with
        | KPtr => unmarshalPtr rec buf val ctx
        | KStruct => unmarshalStruct rec buf val ctx
        | KSlice => unmarshalSlice rec buf val ctx
        | KUnsupported => Err UnsupportedKind
        | _ =>
          if negb (vaddr val) then Err NonAddressable
          else binaryRead buf val
        end
  end.

(** The destinations are pointers; the result lists them as they are
    afterwards, with the input that remains. *)
Fixpoint UnmarshalFromReader `{Reflection} (fuel : nat) (buf : list Z)
  (vals : list (type * data)) : result muError (list (type * data) * list Z) :=
  match vals with
  | [] => Ok ([], buf)
  | val :: vals' =>
    let v := ValueOf val in
    if negb (isPtr (vtype v)) then Err NonPointerDestination
    else
      match vdata v with
      | VPtr None => Err NilDestination
      | VPtr (Some d) =>
        do r <- unmarshalValue fuel buf (mkValue (Elem (vtype v)) d true) None;
        do rs <- UnmarshalFromReader fuel (snd r) vals';
        Ok ((vtype v, VPtr (Some (fst r))) :: fst rs, snd rs)
      | _ => Err Panic
      end
  end.

(** [UnmarshalFromBytes]: the number of bytes consumed and Go's error
    ([None] is nil), with the destinations as they are afterwards when
    there is no error. *)
Definition UnmarshalFromBytes `{Reflection} (fuel : nat) (b : list Z)
  (vals : list (type * data)) : Z * option muError * list (type * data) :=
  match UnmarshalFromReader fuel b vals with
  | Err err => (0, Some err, vals)
  | Ok (vals', buf) => (len b - len buf, None, vals')
  end.

(** A type none of whose parts has a custom marshaller. *)
Fixpoint customFree (t : type) : bool :=
  match t with
  | Int _ _ | Bool | RawBytes | Unsupported | Unsized => true
  | Ptr e | Slice e => customFree e
  | Struct fs => forallb (fun f => match f with (_, _, ft) => customFree ft end) fs
  | Union f0 alts =>
    match f0 with Some ft => customFree ft | None => true end
    && forallb (fun a => match a with
                         | (_, Some ft) => customFree ft
                         | (_, None) => true
                         end) alts
  | Custom _ _ => false
  end.

(** Every custom [Unmarshal] method leaves a suffix of the input it was
    given, as any consumer of an [io.Reader] does. *)
Definition readersConsume `{Reflection} : Prop :=
  forall id d buf d' rest,
    customUnmarshal id d buf = Ok (d', rest) -> exists used, buf = used ++ rest.

(** A recursive call whose result does not depend on the addressability
    of a value free of custom marshallers. *)
Definition addrBlind (rec : marshaller) : Prop :=
  forall t d a1 a2 ctx,
    customFree t = true -> rec (mkValue t d a1) ctx = rec (mkValue t d a2) ctx.

(** A recursive call that leaves a suffix of its input. *)
Definition consumes (rec : unmarshaller) : Prop :=
  forall buf v ctx d rest, rec buf v ctx = Ok (d, rest) -> exists used, buf = used ++ rest.

(** The context of a field tagged [sized] at the top of a structure. *)
Definition sizedField : muContext := mkContext O None None (parseFieldOptions "sized").

(** A program without custom marshallers and without conversions. *)
Definition plain : Reflection :=
  {| customMarshal := fun _ _ => Err CustomFailed;
     customUnmarshal := fun _ _ _ => Err CustomFailed;
     ConvertibleTo := fun _ _ => false;
     Convert := fun _ d _ => d |}.


(** A program whose custom types are marshalled as one byte that counts
    the elements of the underlying slice (as a selection list would be). *)
Definition counted : Reflection :=
  {| customMarshal := fun _ d =>
       match d with
       | VSlice None => Ok [0]
       | VSlice (Some l) => Ok [wrap8 (Z.of_nat (length l))]
       | _ => Err CustomFailed
       end;
     customUnmarshal := fun _ _ buf =>
       match buf with
       | n :: rest => Ok (VSlice (Some (repeat (VInt 0) (Z.to_nat n))), rest)
       | [] => Err ReadFailed
       end;
     ConvertibleTo := fun _ _ => false;
     Convert := fun _ d _ => d |}.

(** The types of the examples: an unsigned byte, a selection list with a
    custom marshaller, a structure that holds one, a structure with a raw
    byte string, and the wrapper that marks its pointer field sized. *)
Definition uint8 : type := Int false 1.
Definition uint16 : type := Int false 2.
Definition selectionData : type := Custom 0 (Slice (Int true 8)).
Definition selection : type :=
  Struct [("Hash", "", uint16); ("Select", "", selectionData)]%string.
Definition blob : type := Struct [("Buffer", "", RawBytes)]%string.
Definition blobSized : type := Struct [("Ptr", "sized", Ptr blob)]%string.

(** The values made of unsigned integers within their width, booleans,
    pointers that are not nil, structures whose fields carry no option,
    and slices that are not nil and whose length fits the prefix that
    [marshalSlice] writes (16 bits for a slice of bytes, 32 bits
    otherwise). *)
Fixpoint plainValue (t : type) (d : data) {struct d} : bool :=
  match t, d with
  | Int false n, VInt v => (0 <=? v) && (v <? 2 ^ (8 * Z.of_nat n))
  | Bool, VBool _ => true
  | Ptr e, VPtr (Some x) => plainValue e x
  | Struct fs, VStruct ds =>
    (fix go (fs : list (string * string * type)) (ds : list data) {struct ds} : bool :=
       match fs, ds with
       | [], [] => true
       | (_, tag, ft) :: fs', x :: ds' =>
         String.eqb tag "" && plainValue ft x && go fs' ds'
       | _, _ => false
       end) fs ds
  | Slice e, VSlice (Some ds) =>
    (Z.of_nat (length ds) <? (if isSizedBuffer (Slice e) then 2 ^ 16 else 2 ^ 32))
    && forallb (plainValue e) ds
  | _, _ => false
  end.

(** A context whose options mark the value neither sized nor raw. *)
Definition plainContext (ctx : option muContext) : Prop :=
  match ctx with
  | None => True
  | Some c => sized (options c) = false /\ raw (options c) = false
  end.

(** The types of the command and response headers, and a point with two
    coordinate buffers. *)
Definition uint32 : type := Int false 4.
Definition header : type :=
  Struct [("Tag", "", uint16); ("Size", "", uint32); ("Code", "", uint32)]%string.
Definition point : type :=
  Struct [("X", "", Slice uint8); ("Y", "", Slice uint8)]%string.

(** A structure with a union and the field that selects its alternative. *)
Definition keyed : type :=
  Struct [("Selector", "", uint8);
          ("Data", "selector:Selector",
           Union None [(1, Some uint8); (2, Some uint16)])]%string.

End Mu.

(** ** Handle contexts ([resources.go]) *)

Module Resources.
Import Errors Mu.

(** *** Handles and names *)

(** Modelled from the spec: the declarations of the handle types are
    absent; the top byte of a handle is its type. *)
Definition HandleTypePCR : Z := 0x00.
Definition HandleTypeNVIndex : Z := 0x01.
Definition HandleTypeHMACSession : Z := 0x02.
Definition HandleTypePolicySession : Z := 0x03.
Definition HandleTypePermanent : Z := 0x40.
Definition HandleTypeTransient : Z := 0x80.
Definition HandleTypePersistent : Z := 0x81.

Definition HandleType (h : Z) : Z := Z.shiftr h 24.

(** Modelled from the spec: the methods of [Name] are absent; a name that
    is a handle is the four bytes of the handle in big-endian order. *)
Definition IsHandle (n : list Z) : bool := (length n =? 4)%nat.
Definition NameHandle (n : list Z) : Z := decode_be n.

(** The name that the constructors build from a handle
    ([binary.BigEndian.PutUint32]). *)
Definition handleName (handle : Z) : list Z := be 4 handle.

Definition handleContextTypeDummy : Z := 0.
Definition handleContextTypePermanent : Z := 1.
Definition handleContextTypeObject : Z := 2.
Definition handleContextTypeNvIndex : Z := 3.
Definition handleContextTypeSession : Z := 4.

(** *** What lies outside the sources *)

(** The constants, the digest algorithms and the types [Public] and
    [SymDef] are declared outside the sources at hand; the model takes
    them as parameters. [hashSum alg b] is the digest of [b] under [alg];
    [marshalPublic] and [marshalSymDef] encode a pointer ([None] is nil);
    [symModeSym] is [None] when the mode pointer of a symmetric definition
    is nil. *)
Class Platform := {
  HandleUnassigned : Z;
  HashAlgorithmSHA256 : Z;
  SessionTypeHMAC : Z;
  SessionTypePolicy : Z;
  SessionTypeTrial : Z;
  policyHMACTypeMax : Z;
  SymAlgorithmAES : Z;
  SymAlgorithmXOR : Z;
  SymAlgorithmNull : Z;
  SymAlgorithmSM4 : Z;
  SymAlgorithmCamellia : Z;
  SymModeCFB : Z;
  CommandReadPublic : Z;
  CommandNVReadPublic : Z;
  Supported : Z -> bool;
  Size : Z -> Z;
  hashSum : Z -> list Z -> list Z;
  Public : Type;
  marshalPublic : option Public -> result muError (list Z);
  unmarshalPublic : list Z -> result muError (Public * list Z);
  publicName : Public -> result string (list Z);
  SymDef : Type;
  symAlgorithm : SymDef -> Z;
  symModeSym : SymDef -> option Z;
  marshalSymDef : option SymDef -> result muError (list Z);
  unmarshalSymDef : list Z -> result muError (SymDef * list Z)
}.

(** *** The data of a context *)

(** Modelled from the spec: the declaration of [NVPublic] is absent; the
    public area of an NV index is its index handle, name algorithm,
    attributes, authorization policy and data size. *)
Record NVPublic := mkNVPublic {
  Index : Z;
  NameAlg : Z;
  Attrs : Z;
  AuthPolicy : list Z;
  NVSize : Z
}.

Record sessionContextData `{Platform} := mkSessionData {
  IsAudit : bool;
  IsExclusive : bool;
  HashAlg : Z;
  SessionType : Z;
  PolicyHMACType : Z;
  IsBound : bool;
  BoundEntity : list Z;
  SessionKey : list Z;
  NonceCaller : list Z;
  NonceTPM : list Z;
  Symmetric : option SymDef
}.

Record handleContextU `{Platform} := mkU {
  Object : option Public;
  NV : option NVPublic;
  Session : option sessionContextData
}.

Record handleContext `{Platform} := mkHandleContext {
  Type' : Z;
  H : Z;
  N : list Z;
  Data : option handleContextU
}.

Record resourceContext `{Platform} := mkResourceContext {
  hc : handleContext;
  authValue : list Z
}.

Arguments mkSessionData {_} _ _ _ _ _ _ _ _ _ _ _.
Arguments mkU {_} _ _ _.
Arguments mkHandleContext {_} _ _ _ _.
Arguments mkResourceContext {_} _ _.

(** The implementations of [HandleContext]. A session context shares its
    [handleContext] and carries the attributes of its use. *)
Inductive HandleContext `{Platform} : Type :=
| dummyContext (h : handleContext)
| permanentContext (r : resourceContext)
| objectContext (r : resourceContext)
| nvIndexContext (r : resourceContext)
| sessionContext (h : handleContext) (attrs : Z).

Arguments dummyContext {_} h.
Arguments permanentContext {_} r.
Arguments objectContext {_} r.
Arguments nvIndexContext {_} r.
Arguments sessionContext {_} h attrs.

(** The embedded [handleContext]. *)
Definition contextOf `{Platform} (c : HandleContext) : handleContext :=
  match c with
  | dummyContext h => h
  | permanentContext r | objectContext r | nvIndexContext r => hc r
  | sessionContext h _ => h
  end.

Definition Handle `{Platform} (c : HandleContext) : Z := H (contextOf c).
Definition Name `{Platform} (c : HandleContext) : list Z := N (contextOf c).

(** [GetAuthValue] of a resource context. *)
Definition GetAuthValue `{Platform} (c : HandleContext) : list Z :=
  match c with
  | permanentContext r | objectContext r | nvIndexContext r => authValue r
  | _ => []
  end.

Definition SetAuthValue `{Platform} (c : HandleContext) (a : list Z) : HandleContext :=
  match c with
  | permanentContext r => permanentContext (mkResourceContext (hc r) a)
  | objectContext r => objectContext (mkResourceContext (hc r) a)
  | nvIndexContext r => nvIndexContext (mkResourceContext (hc r) a)
  | c => c
  end.

(** The payload that the type tag of a context selects
    ([handleContextU.Select]). *)
Inductive payload `{Platform} : Type :=
| NoPayload
| ObjectPayload (p : option Public)
| NVPayload (p : option NVPublic)
| SessionPayload (d : option sessionContextData)
| InvalidSelector.

Arguments NoPayload {_}.
Arguments ObjectPayload {_} p.
Arguments NVPayload {_} p.
Arguments SessionPayload {_} d.
Arguments InvalidSelector {_}.

Definition zeroU `{Platform} : handleContextU := mkU None None None.

Definition selectPayload `{Platform} (h : handleContext) : payload :=
  let d := match Data h with Some u => u | None => zeroU end in
  if (Type' h =? handleContextTypeDummy) || (Type' h =? handleContextTypePermanent)
  then NoPayload
  else if Type' h =? handleContextTypeObject then ObjectPayload (Object d)
  else if Type' h =? handleContextTypeNvIndex then NVPayload (NV d)
  else if Type' h =? handleContextTypeSession then SessionPayload (Session d)
  else InvalidSelector.

(** *** The constructors *)

Definition makeDummyContext `{Platform} (handle : Z) : HandleContext :=
  dummyContext (mkHandleContext handleContextTypeDummy handle (handleName handle) None).

Definition makePermanentContext `{Platform} (handle : Z) : HandleContext :=
  permanentContext
    (mkResourceContext
       (mkHandleContext handleContextTypePermanent handle (handleName handle) None) []).

Definition makeObjectContext `{Platform} (handle : Z) (name : list Z) (public : option Public)
  : HandleContext :=
  objectContext
    (mkResourceContext
       (mkHandleContext handleContextTypeObject handle name (Some (mkU public None None))) []).

Definition makeNVIndexContext `{Platform} (name : list Z) (public : NVPublic) : HandleContext :=
  nvIndexContext
    (mkResourceContext
       (mkHandleContext handleContextTypeNvIndex (Index public) name
                        (Some (mkU None (Some public) None))) []).

Definition makeSessionContext `{Platform} (handle : Z) (data : option sessionContextData)
  : HandleContext :=
  sessionContext
    (mkHandleContext handleContextTypeSession handle (handleName handle)
                     (Some (mkU None None data))) 0.

(** [CreateIncompleteSessionContext]; [None] is the panic on a handle that
    is not a session handle. *)
Definition CreateIncompleteSessionContext `{Platform} (handle : Z) : option HandleContext :=
  if (HandleType handle =? HandleTypeHMACSession)
     || (HandleType handle =? HandleTypePolicySession)
  then Some (makeSessionContext handle None)
  else None.

(** *** The wire form of a context *)

(** [bytes.Equal]. *)
Fixpoint bytesEqual (a b : list Z) : bool :=
  match a, b with
  | [], [] => true
  | x :: a', y :: b' => (x =? y) && bytesEqual a' b'
  | _, _ => false
  end.

(** A sized buffer: the length as an unsigned 16-bit integer, then the
    bytes ([marshalSlice] on a byte slice). *)
Definition sizedBuffer (b : list Z) : list Z := be 2 (wrap16 (len b)) ++ b.

Definition boolByte (b : bool) : list Z := [if b then 1 else 0].

Definition readU (n : nat) (buf : list Z) : result muError (Z * list Z) :=
  match readN n buf with
  | Some (bs, rest) => Ok (decode_be bs, rest)
  | None => Err ReadFailed
  end.

Definition readBool (buf : list Z) : result muError (bool * list Z) :=
  do r <- readU 1 buf; Ok (negb (fst r =? 0), snd r).

Definition readSized (buf : list Z) : result muError (list Z * list Z) :=
  do l <- readU 2 buf;
  match readN (Z.to_nat (fst l)) (snd l) with
  | Some (bs, rest) => Ok (bs, rest)
  | None => Err ReadFailed
  end.

(** Modelled from the spec: the wire form of the public area of an NV
    index, field by field. *)
Definition marshalNVPublic (p : NVPublic) : list Z :=
  be 4 (Index p) ++ be 2 (NameAlg p) ++ be 4 (Attrs p)
  ++ sizedBuffer (AuthPolicy p) ++ be 2 (NVSize p).

Definition zeroNVPublic : NVPublic := mkNVPublic 0 0 0 [] 0.

Definition unmarshalNVPublic (buf : list Z) : result muError (NVPublic * list Z) :=
  do i <- readU 4 buf;
  do a <- readU 2 (snd i);
  do t <- readU 4 (snd a);
  do p <- readSized (snd t);
  do z <- readU 2 (snd p);
  Ok (mkNVPublic (fst i) (fst a) (fst t) (fst p) (fst z), snd z).

(** Modelled from the spec: the name of an NV index is the identifier of
    its name algorithm followed by the digest of its public area. *)
Definition nvName `{Platform} (p : NVPublic) : result string (list Z) :=
  if negb (Supported (NameAlg p)) then Err "unsupported name algorithm"%string
  else Ok (be 2 (NameAlg p) ++ hashSum (NameAlg p) (marshalNVPublic p)).

(** Modelled from the spec: [compareName] is absent; a name matches a
    public area when it equals the name computed from the area. *)
Definition compareNVName `{Platform} (p : NVPublic) (name : list Z) : bool :=
  match nvName p with
  | Ok n => bytesEqual n name
  | Err _ => false
  end.

Definition comparePublicName `{Platform} (p : Public) (name : list Z) : bool :=
  match publicName p with
  | Ok n => bytesEqual n name
  | Err _ => false
  end.

(** The wire form of the session data, field by field; a nil pointer is
    marshalled as the zero value. *)
Definition zeroSessionData `{Platform} : sessionContextData :=
  mkSessionData false false 0 0 0 false [] [] [] [] None.

Definition marshalSessionData `{Platform} (d : option sessionContextData)
  : result muError (list Z) :=
  let d := match d with Some d => d | None => zeroSessionData end in
  do sym <- marshalSymDef (Symmetric d);
  Ok (boolByte (IsAudit d) ++ boolByte (IsExclusive d) ++ be 2 (HashAlg d)
      ++ be 1 (SessionType d) ++ be 1 (PolicyHMACType d) ++ boolByte (IsBound d)
      ++ sizedBuffer (BoundEntity d) ++ sizedBuffer (SessionKey d)
      ++ sizedBuffer (NonceCaller d) ++ sizedBuffer (NonceTPM d) ++ sym).

Definition unmarshalSessionData `{Platform} (buf : list Z)
  : result muError (sessionContextData * list Z) :=
  do audit <- readBool buf;
  do excl <- readBool (snd audit);
  do alg <- readU 2 (snd excl);
  do ty <- readU 1 (snd alg);
  do pol <- readU 1 (snd ty);
  do bound <- readBool (snd pol);
  do entity <- readSized (snd bound);
  do key <- readSized (snd entity);
  do nc <- readSized (snd key);
  do nt <- readSized (snd nc);
  do sym <- unmarshalSymDef (snd nt);
  Ok (mkSessionData (fst audit) (fst excl) (fst alg) (fst ty) (fst pol) (fst bound)
                    (fst entity) (fst key) (fst nc) (fst nt) (Some (fst sym)),
      snd sym).

(** Modelled from the spec: the marshaller applied to a [handleContext]:
    type tag, handle, name as a sized buffer, then the payload that the
    tag selects (none for a dummy or permanent context, an error for an
    unknown tag). *)
Definition marshalHandleContext `{Platform} (h : handleContext) : result muError (list Z) :=
  do body <-
    match selectPayload h with
    | NoPayload => Ok []
    | ObjectPayload p => marshalPublic p
    | NVPayload p => Ok (marshalNVPublic (match p with Some p => p | None => zeroNVPublic end))
    | SessionPayload d => marshalSessionData d
    | InvalidSelector => Err CannotSelectUnionType
    end;
  Ok (be 1 (Type' h) ++ be 4 (H h) ++ sizedBuffer (N h) ++ body).

(** Unmarshalling allocates every pointer it meets: the union, and the
    payload that the tag selects. *)
Definition unmarshalHandleContext `{Platform} (buf : list Z)
  : result muError (handleContext * list Z) :=
  do ty <- readU 1 buf;
  do h <- readU 4 (snd ty);
  do n <- readSized (snd h);
  let mk u := mkHandleContext (fst ty) (fst h) (fst n) (Some u) in
  if (fst ty =? handleContextTypeDummy) || (fst ty =? handleContextTypePermanent) then
    Ok (mk zeroU, snd n)
  else if fst ty =? handleContextTypeObject then
    do p <- unmarshalPublic (snd n); Ok (mk (mkU (Some (fst p)) None None), snd p)
  else if fst ty =? handleContextTypeNvIndex then
    do p <- unmarshalNVPublic (snd n); Ok (mk (mkU None (Some (fst p)) None), snd p)
  else if fst ty =? handleContextTypeSession then
    do d <- unmarshalSessionData (snd n); Ok (mk (mkU None None (Some (fst d))), snd d)
  else Err CannotSelectUnionType.

(** *** Serialization *)

(** [handleContext.SerializeToBytes]; an error is a panic of the source. *)
Definition serialize `{Platform} (h : handleContext) : result muError (list Z) :=
  do data <- marshalHandleContext h;
  Ok (be 2 HashAlgorithmSHA256 ++ sizedBuffer (hashSum HashAlgorithmSHA256 data)
      ++ sizedBuffer data).

(** [SerializeToBytes] of each implementation; the dummy context returns
    nil. [SerializeToWriter] writes the same bytes to its writer. *)
Definition SerializeToBytes `{Platform} (c : HandleContext) : result muError (list Z) :=
  match c with
  | dummyContext _ => Ok []
  | permanentContext r | objectContext r | nvIndexContext r => serialize (hc r)
  | sessionContext h _ => serialize h
  end.

Definition SerializeToWriter `{Platform} (c : HandleContext) : result muError (list Z) :=
  SerializeToBytes c.

(** *** Consistency *)

Inductive checked : Type :=
| Consistent
| Inconsistent (msg : string)
| Panicked.

Definition checkSessionData `{Platform} (scData : sessionContextData) : checked :=
  if negb (IsAudit scData) && IsExclusive scData then
    Inconsistent "inconsistent audit attributes for session context"
  else if negb (Supported (HashAlg scData)) then
    Inconsistent "invalid digest algorithm for session context"
  else if negb ((SessionType scData =? SessionTypeHMAC)
                || (SessionType scData =? SessionTypePolicy)
                || (SessionType scData =? SessionTypeTrial)) then
    Inconsistent "invalid session type for session context"
  else if PolicyHMACType scData >? policyHMACTypeMax then
    Inconsistent "invalid policy session HMAC type for session context"
  else if (IsBound scData && (len (BoundEntity scData) =? 0))
          || (negb (IsBound scData) && (len (BoundEntity scData) >? 0)) then
    Inconsistent "invalid bind properties for session context"
  else
    let digestSize := Size (HashAlg scData) in
    if negb (len (SessionKey scData) =? digestSize)
       && negb (len (SessionKey scData) =? 0) then
      Inconsistent "unexpected session key size for session context"
    else if negb (len (NonceCaller scData) =? digestSize)
            || negb (len (NonceTPM scData) =? digestSize) then
      Inconsistent "unexpected nonce size for session context"
    else
      match Symmetric scData with
      | None => Panicked
      | Some sym =>
        if negb ((symAlgorithm sym =? SymAlgorithmAES)
                 || (symAlgorithm sym =? SymAlgorithmXOR)
                 || (symAlgorithm sym =? SymAlgorithmNull)
                 || (symAlgorithm sym =? SymAlgorithmSM4)
                 || (symAlgorithm sym =? SymAlgorithmCamellia)) then
          Inconsistent "invalid symmetric algorithm for session context"
        else if (symAlgorithm sym =? SymAlgorithmAES)
                || (symAlgorithm sym =? SymAlgorithmSM4)
                || (symAlgorithm sym =? SymAlgorithmCamellia) then
          match symModeSym sym with
          | None => Panicked
          | Some mode =>
            if negb (mode =? SymModeCFB) then
              Inconsistent "invalid symmetric mode for session context"
            else Consistent
          end
        else Consistent
      end.

Definition checkConsistency `{Platform} (h : handleContext) : checked :=
  if Type' h =? handleContextTypePermanent then
    if negb ((HandleType (H h) =? HandleTypePCR) || (HandleType (H h) =? HandleTypePermanent))
    then Inconsistent "inconsistent handle type for permanent context"
    else if negb (IsHandle (N h)) || negb (NameHandle (N h) =? H h)
    then Inconsistent "name inconsistent with handle for permanent context"
    else Consistent
  else if Type' h =? handleContextTypeObject then
    if negb ((HandleType (H h) =? HandleTypeTransient)
             || (HandleType (H h) =? HandleTypePersistent))
    then Inconsistent "inconsistent handle type for object context"
    else
      match Data h with
      | None => Panicked
      | Some u =>
        match Object u with
        | None => Inconsistent "no public area for object context"
        | Some pub =>
          if negb (comparePublicName pub (N h))
          then Inconsistent "name inconsistent with public area for object context"
          else Consistent
        end
      end
  else if Type' h =? handleContextTypeNvIndex then
    if negb (HandleType (H h) =? HandleTypeNVIndex)
    then Inconsistent "inconsistent handle type for NV context"
    else
      match Data h with
      | None => Panicked
      | Some u =>
        match NV u with
        | None => Inconsistent "no public area for NV context"
        | Some pub =>
          if negb (compareNVName pub (N h))
          then Inconsistent "name inconsistent with public area for NV context"
          else Consistent
        end
      end
  else if Type' h =? handleContextTypeSession then
    if negb ((HandleType (H h) =? HandleTypeHMACSession)
             || (HandleType (H h) =? HandleTypePolicySession))
    then Inconsistent "inconsistent handle type for session context"
    else if negb (IsHandle (N h)) || negb (NameHandle (N h) =? H h)
    then Inconsistent "name inconsistent with handle for session context"
    else
      match Data h with
      | None => Panicked
      | Some u =>
        match Session u with
        | None => Consistent
        | Some scData => checkSessionData scData
        end
      end
  else Inconsistent "unrecognized context type".

(** The invariants of session data that the specification lists. *)
Definition sessionInvariant `{Platform} (d : sessionContextData) : Prop :=
  (IsExclusive d = true -> IsAudit d = true)
  /\ len (NonceCaller d) = Size (HashAlg d)
  /\ len (NonceTPM d) = Size (HashAlg d)
  /\ (len (SessionKey d) = Size (HashAlg d) \/ len (SessionKey d) = 0)
  /\ (BoundEntity d <> [] <-> IsBound d = true).

(** *** Restoring a serialized context *)

Inductive restoreError : Type :=
| CannotUnpack (e : muError)
| InvalidChecksumAlgorithm
| InvalidChecksum
| CannotUnmarshalContext (e : muError)
| TrailingBytes
| PermanentFromSerialized
| InconsistentContext (msg : string)
| RestorePanic.

(** The three values that [CreateHandleContextFromReader] unpacks first. *)
Definition unpack (r : list Z) : result muError (Z * list Z * list Z * list Z) :=
  do integrityAlg <- readU 2 r;
  do integrity <- readSized (snd integrityAlg);
  do b <- readSized (snd integrity);
  Ok (fst integrityAlg, fst integrity, fst b, snd b).

(** [CreateHandleContextFromReader]: the context and what is left of the
    reader. *)
Definition CreateHandleContextFromReader `{Platform} (r : list Z)
  : result restoreError (HandleContext * list Z) :=
  match unpack r with
  | Err e => Err (CannotUnpack e)
  | Ok (integrityAlg, integrity, b, rest) =>
    if negb (Supported integrityAlg) then Err InvalidChecksumAlgorithm
    else if negb (bytesEqual (hashSum integrityAlg b) integrity) then Err InvalidChecksum
    else
      match unmarshalHandleContext b with
      | Err e => Err (CannotUnmarshalContext e)
      | Ok (data, buf) =>
        let n := len b - len buf in
        if n <? len b then Err TrailingBytes
        else if Type' data =? handleContextTypePermanent then Err PermanentFromSerialized
        else
          match checkConsistency data with
          | Inconsistent msg => Err (InconsistentContext msg)
          | Panicked => Err RestorePanic
          | Consistent =>
            if Type' data =? handleContextTypeObject then
              Ok (objectContext (mkResourceContext data []), rest)
            else if Type' data =? handleContextTypeNvIndex then
              Ok (nvIndexContext (mkResourceContext data []), rest)
            else if Type' data =? handleContextTypeSession then
              Ok (sessionContext data 0, rest)
            else Err RestorePanic
          end
      end
  end.

(** [CreateHandleContextFromBytes]: the context, the number of bytes
    consumed and the error. *)
Definition CreateHandleContextFromBytes `{Platform} (b : list Z)
  : option HandleContext * Z * option restoreError :=
  match CreateHandleContextFromReader b with
  | Err err => (None, 0, Some err)
  | Ok (rc, buf) => (Some rc, len b - len buf, None)
  end.

(** *** Contexts that fit the wire form *)

(** The ranges of the Go types of the fields: unsigned integers of their
    width, and buffers that a 16-bit length prefix can describe. *)
Definition wellTypedNV (p : NVPublic) : Prop :=
  0 <= Index p < 2 ^ 32 /\ 0 <= NameAlg p < 2 ^ 16 /\ 0 <= Attrs p < 2 ^ 32
  /\ len (AuthPolicy p) < 2 ^ 16 /\ 0 <= NVSize p < 2 ^ 16.

Definition wellTypedSession `{Platform} (d : sessionContextData) : Prop :=
  0 <= HashAlg d < 2 ^ 16 /\ 0 <= SessionType d < 2 ^ 8 /\ 0 <= PolicyHMACType d < 2 ^ 8
  /\ len (BoundEntity d) < 2 ^ 16 /\ len (SessionKey d) < 2 ^ 16
  /\ len (NonceCaller d) < 2 ^ 16 /\ len (NonceTPM d) < 2 ^ 16.

(** The marshaller of a type declared outside the sources reads back what
    it wrote. *)
Definition publicRoundTrips `{Platform} (p : Public) : Prop :=
  exists m, marshalPublic (Some p) = Ok m /\ unmarshalPublic m = Ok (p, []).

Definition symDefRoundTrips `{Platform} (s : SymDef) : Prop :=
  exists m, marshalSymDef (Some s) = Ok m /\ unmarshalSymDef m = Ok (s, []).

(** An object, NV index or session context whose fields fit the wire form;
    a session context carries session data. *)
Definition restorable `{Platform} (c : HandleContext) : Prop :=
  0 <= H (contextOf c) < 2 ^ 32 /\ len (N (contextOf c)) < 2 ^ 16
  /\ match c with
     | objectContext r =>
       Type' (hc r) = handleContextTypeObject
       /\ forall u p, Data (hc r) = Some u -> Object u = Some p -> publicRoundTrips p
     | nvIndexContext r =>
       Type' (hc r) = handleContextTypeNvIndex
       /\ forall u p, Data (hc r) = Some u -> NV u = Some p -> wellTypedNV p
     | sessionContext h _ =>
       Type' h = handleContextTypeSession
       /\ exists u d, Data h = Some u /\ Session u = Some d /\ wellTypedSession d
                      /\ forall s, Symmetric d = Some s -> symDefRoundTrips s
     | _ => False
     end.

(** The serialized form: algorithm identifier, digest of the body, body. *)
Definition blobOf `{Platform} (body : list Z) : list Z :=
  be 2 HashAlgorithmSHA256 ++ sizedBuffer (hashSum HashAlgorithmSHA256 body)
  ++ sizedBuffer body.

(** Two contexts of the same implementation. *)
Definition sameVariant `{Platform} (c c' : HandleContext) : Prop :=
  match c, c' with
  | dummyContext _, dummyContext _
  | permanentContext _, permanentContext _
  | objectContext _, objectContext _
  | nvIndexContext _, nvIndexContext _
  | sessionContext _ _, sessionContext _ _ => True
  | _, _ => False
  end.

(** *** Contexts read back from the TPM *)

(** The TPM as [CreateResourceContextFromTPM] meets it: the answers of
    [ReadPublic] and [NVReadPublic] to the read number [i] (from zero) of a
    handle with the given sessions: the public area and the name, or the
    error of the command. *)
Record TPMContext `{Platform} := mkTPM {
  ReadPublic : nat -> Z -> list HandleContext -> result error (Public * list Z);
  NVReadPublic : nat -> Z -> list HandleContext -> result error (NVPublic * list Z)
}.

Arguments mkTPM {_} _ _.

Definition makeObjectContextFromTPM `{Platform} (t : TPMContext) (i : nat)
  (context : HandleContext) (sessions : list HandleContext) : result error HandleContext :=
  match ReadPublic t i (Handle context) sessions with
  | Err err => Err err
  | Ok (pub, name) =>
    match publicName pub with
    | Err _ =>
      Err (InvalidResponseError CommandReadPublic
                                "cannot compute name of returned public area")
    | Ok n =>
      if negb (bytesEqual n name) then
        Err (InvalidResponseError CommandReadPublic "name and public area don't match")
      else Ok (makeObjectContext (Handle context) name (Some pub))
    end
  end.

Definition makeNVIndexContextFromTPM `{Platform} (t : TPMContext) (i : nat)
  (context : HandleContext) (sessions : list HandleContext) : result error HandleContext :=
  match NVReadPublic t i (Handle context) sessions with
  | Err err => Err err
  | Ok (pub, name) =>
    match nvName pub with
    | Err _ =>
      Err (InvalidResponseError CommandNVReadPublic
                                "cannot compute name of returned public area")
    | Ok n =>
      if negb (bytesEqual n name) then
        Err (InvalidResponseError CommandNVReadPublic "name and public area don't match")
      else if negb (Index pub =? Handle context) then
        Err (InvalidResponseError CommandNVReadPublic "unexpected index in public area")
      else Ok (makeNVIndexContext name pub)
    end
  end.

(** What [CreateResourceContextFromTPM] returns: a context and a nil
    error, or no context and an error; or it panics. *)
Inductive created `{Platform} : Type :=
| Created (rc : HandleContext)
| Failed (err : error)
| CreatePanic.

Arguments Created {_} rc.
Arguments Failed {_} err.
Arguments CreatePanic {_}.

(** The read of one round of the loop. *)
Definition readContext `{Platform} (t : TPMContext) (handle : Z) (i : nat)
  (rc : HandleContext) (s : list HandleContext) : result error HandleContext :=
  if HandleType handle =? HandleTypeNVIndex then makeNVIndexContextFromTPM t i rc s
  else makeObjectContextFromTPM t i rc s.

(** The loop of [CreateResourceContextFromTPM], with [n] rounds to go. *)
Fixpoint createLoop `{ResponseCodeTable} `{Platform} (t : TPMContext) (handle : Z)
  (sessions : list HandleContext) (n i : nat) (rc : HandleContext) (s : list HandleContext)
  : created :=
  match n with
  | O => Created rc
  | S n' =>
    match readContext t handle i rc s with
    | Err err =>
      if IsTPMWarning (Some err) WarningReferenceH0 AnyCommandCode then
        Failed (ResourceUnavailableError handle)
      else if IsTPMHandleError (Some err) ErrorHandle AnyCommandCode AnyHandleIndex then
        Failed (ResourceUnavailableError handle)
      else Failed err
    | Ok rc =>
      if (length sessions =? 0)%nat then Created rc
      else createLoop t handle sessions n' (S i) rc sessions
    end
  end.

Definition CreateResourceContextFromTPM `{ResponseCodeTable} `{Platform} (t : TPMContext)
  (handle : Z) (sessions : list HandleContext) : created :=
  if (HandleType handle =? HandleTypeNVIndex)
     || (HandleType handle =? HandleTypeTransient)
     || (HandleType handle =? HandleTypePersistent)
  then createLoop t handle sessions 2 0 (makeDummyContext handle) []
  else CreatePanic.

(** An error that tells that the resource is unavailable: a warning with
    the code reference-h0, or a handle error with the code handle, for any
    command and any handle index, possibly wrapped. *)
Definition unavailable `{ResponseCodeTable} (err : error) : Prop :=
  (exists cmd, As isTPMWarning err = Some (TPMWarning cmd WarningReferenceH0))
  \/ (exists idx cmd,
        As isTPMHandleError err = Some (TPMHandleError idx (mkTPMError cmd ErrorHandle))).

(** The handle types that [CreateResourceContextFromTPM] accepts. *)
Definition readable (handle : Z) : Prop :=
  HandleType handle = HandleTypeNVIndex
  \/ HandleType handle = HandleTypeTransient
  \/ HandleType handle = HandleTypePersistent.

(** The command that reads the public area behind a handle. *)
Definition readCommand `{Platform} (handle : Z) : Z :=
  if HandleType handle =? HandleTypeNVIndex then CommandNVReadPublic else CommandReadPublic.

(** The error of the command of round [i], if it fails. *)
Definition readError `{Platform} (t : TPMContext) (handle : Z) (i : nat)
  (rc : HandleContext) (s : list HandleContext) : option error :=
  if HandleType handle =? HandleTypeNVIndex then
    match NVReadPublic t i (Handle rc) s with Err err => Some err | Ok _ => None end
  else
    match ReadPublic t i (Handle rc) s with Err err => Some err | Ok _ => None end.

(** A read of [CreateResourceContextFromTPM] fails with [err]: the first
    one, without sessions, or, when there are sessions and the first round
    gave the context [rc0], the second one. *)
Inductive readFails `{Platform} (t : TPMContext) (handle : Z)
  (sessions : list HandleContext) (err : error) : Prop :=
| firstReadFails :
    readError t handle 0 (makeDummyContext handle) [] = Some err ->
    readFails t handle sessions err
| secondReadFails (rc0 : HandleContext) :
    sessions <> [] ->
    readContext t handle 0 (makeDummyContext handle) [] = Ok rc0 ->
    readError t handle 1 rc0 sessions = Some err ->
    readFails t handle sessions err.

(** The cross-checks on the answer of the command of round [i], when it
    succeeds: the name computed from the returned public area is the
    returned name and, for an NV index, the index of the returned public
    area is the queried handle. *)
Definition crossChecked `{Platform} (t : TPMContext) (handle : Z) (i : nat)
  (rc : HandleContext) (s : list HandleContext) : option bool :=
  if HandleType handle =? HandleTypeNVIndex then
    match NVReadPublic t i (Handle rc) s with
    | Err _ => None
    | Ok (pub, name) =>
      Some (match nvName pub with Ok n => bytesEqual n name | Err _ => false end
            && (Index pub =? handle))
    end
  else
    match ReadPublic t i (Handle rc) s with
    | Err _ => None
    | Ok (pub, name) =>
      Some (match publicName pub with Ok n => bytesEqual n name | Err _ => false end)
    end.

(** *** A platform to evaluate the model on *)

(** The constants of the TCG algorithm registry, a checksum of the right
    length in place of each digest function, an object public area reduced
    to its type, name algorithm and unique field, and a symmetric
    definition whose key size and mode are present as its algorithm
    selects them. *)
Definition simSupported (alg : Z) : bool :=
  (alg =? 0x0004) || (alg =? 0x000b) || (alg =? 0x000c) || (alg =? 0x000d).

Definition simSize (alg : Z) : Z :=
  if alg =? 0x0004 then 20
  else if alg =? 0x000b then 32
  else if alg =? 0x000c then 48
  else if alg =? 0x000d then 64
  else 0.

Definition simHashSum (alg : Z) (b : list Z) : list Z :=
  let acc := fold_left (fun acc x => (acc * 31 + x + 7) mod 2 ^ 32) b (len b + alg) in
  map (fun i => ((acc + Z.of_nat i) * (2 * Z.of_nat i + 1)) mod 256)
      (seq 0 (Z.to_nat (simSize alg))).

Record simPublic := mkSimPublic { PType : Z; PNameAlg : Z; PUnique : list Z }.

Definition simMarshalPublic (p : option simPublic) : result muError (list Z) :=
  let p := match p with Some p => p | None => mkSimPublic 0 0 [] end in
  Ok (be 2 (PType p) ++ be 2 (PNameAlg p) ++ sizedBuffer (PUnique p)).

Definition simUnmarshalPublic (buf : list Z) : result muError (simPublic * list Z) :=
  do t <- readU 2 buf;
  do a <- readU 2 (snd t);
  do u <- readSized (snd a);
  Ok (mkSimPublic (fst t) (fst a) (fst u), snd u).

Definition simPublicName (p : simPublic) : result string (list Z) :=
  if negb (simSupported (PNameAlg p)) then Err "unsupported name algorithm"%string
  else
    match simMarshalPublic (Some p) with
    | Ok m => Ok (be 2 (PNameAlg p) ++ simHashSum (PNameAlg p) m)
    | Err _ => Err "cannot marshal public area"%string
    end.

Record simSymDef := mkSimSymDef { Algorithm : Z; KeyBits : Z; Mode : Z }.

Definition simBlockCipher (alg : Z) : bool :=
  (alg =? 0x0006) || (alg =? 0x0013) || (alg =? 0x0026).

Definition simMarshalSymDef (d : option simSymDef) : result muError (list Z) :=
  let d := match d with Some d => d | None => mkSimSymDef 0 0 0 end in
  if simBlockCipher (Algorithm d) then
    Ok (be 2 (Algorithm d) ++ be 2 (KeyBits d) ++ be 2 (Mode d))
  else if Algorithm d =? 0x000a then Ok (be 2 (Algorithm d) ++ be 2 (KeyBits d))
  else if Algorithm d =? 0x0010 then Ok (be 2 (Algorithm d))
  else Err CannotSelectUnionType.

Definition simUnmarshalSymDef (buf : list Z) : result muError (simSymDef * list Z) :=
  do a <- readU 2 buf;
  if simBlockCipher (fst a) then
    do k <- readU 2 (snd a);
    do m <- readU 2 (snd k);
    Ok (mkSimSymDef (fst a) (fst k) (fst m), snd m)
  else if fst a =? 0x000a then
    do k <- readU 2 (snd a); Ok (mkSimSymDef (fst a) (fst k) 0, snd k)
  else if fst a =? 0x0010 then Ok (mkSimSymDef (fst a) 0 0, snd a)
  else Err CannotSelectUnionType.

Definition sim : Platform :=
  {| HandleUnassigned := 0x40000008;
     HashAlgorithmSHA256 := 0x000b;
     SessionTypeHMAC := 0x00;
     SessionTypePolicy := 0x01;
     SessionTypeTrial := 0x03;
     policyHMACTypeMax := 2;
     SymAlgorithmAES := 0x0006;
     SymAlgorithmXOR := 0x000a;
     SymAlgorithmNull := 0x0010;
     SymAlgorithmSM4 := 0x0013;
     SymAlgorithmCamellia := 0x0026;
     SymModeCFB := 0x0043;
     CommandReadPublic := 0x00000173;
     CommandNVReadPublic := 0x00000169;
     Supported := simSupported;
     Size := simSize;
     hashSum := simHashSum;
     Public := simPublic;
     marshalPublic := simMarshalPublic;
     unmarshalPublic := simUnmarshalPublic;
     publicName := simPublicName;
     SymDef := simSymDef;
     symAlgorithm := Algorithm;
     symModeSym := fun d => Some (Mode d);
     marshalSymDef := simMarshalSymDef;
     unmarshalSymDef := simUnmarshalSymDef |}.

(** An NV index with its context, a primary key with its context, and an
    HMAC session. *)
Definition nvExample : NVPublic := mkNVPublic 0x01500000 0x000b 0x0002000a [] 8.

Definition nvExampleName : list Z :=
  be 2 0x000b ++ simHashSum 0x000b (marshalNVPublic nvExample).

Definition nvExampleContext : @HandleContext sim :=
  @SetAuthValue sim (@makeNVIndexContext sim nvExampleName nvExample) [1; 2; 3].

Definition keyExample : simPublic := mkSimPublic 0x0001 0x000b [0xde; 0xad].

Definition keyExampleName : list Z :=
  be 2 0x000b ++ simHashSum 0x000b (be 2 0x0001 ++ be 2 0x000b ++ sizedBuffer [0xde; 0xad]).

Definition keyExampleContext : @HandleContext sim :=
  @makeObjectContext sim 0x80000001 keyExampleName (Some keyExample).

Definition sessionExampleData : @sessionContextData sim :=
  @mkSessionData sim true false 0x000b 0x00 0 false []
    (repeat 0x11 32) (repeat 0x22 32) (repeat 0x33 32)
    (Some (mkSimSymDef 0x0006 128 0x0043)).

Definition sessionExampleContext : @HandleContext sim :=
  @makeSessionContext sim 0x02000000 (Some sessionExampleData).

Definition incompleteSession : @HandleContext sim :=
  @makeSessionContext sim 0x02000000 None.

(** The marshalled body of the NV index context. *)
Definition nvExampleBody : list Z :=
  match @marshalHandleContext sim (contextOf nvExampleContext) with
  | Ok body => body
  | Err _ => []
  end.

(** A TPM that holds the key and the NV index of the examples and nothing
    else: the read of another object fails with the handle error of the
    first handle, the read of another index with the reference-h0
    warning. *)
Definition tpmExample : @TPMContext sim :=
  @mkTPM sim
    (fun _ h _ =>
       if h =? 0x80000001 then Ok (keyExample, keyExampleName)
       else Err (TPMHandleError 1 (mkTPMError 0x00000173 0x8b)))
    (fun _ h _ =>
       if h =? 0x01500000 then Ok (nvExample, nvExampleName)
       else Err (TPMWarning 0x00000169 0x10)).

(** A TPM that answers every read with the areas of the examples, whatever
    the handle, and with the name of the key for the index. *)
Definition tpmForged : @TPMContext sim :=
  @mkTPM sim
    (fun _ _ _ => Ok (keyExample, keyExampleName))
    (fun _ _ _ => Ok (nvExample, keyExampleName)).

(** *** Invalidation *)

(** [handleContext.invalidate]. *)
Definition invalidateContext `{Platform} (h : handleContext) : handleContext :=
  mkHandleContext (Type' h) HandleUnassigned (handleName HandleUnassigned) (Data h).

(** [invalidate] of each implementation: the dummy and the permanent
    context ignore it, the others inherit it from [handleContext]. *)
Definition invalidate `{Platform} (c : HandleContext) : HandleContext :=
  match c with
  | dummyContext h => dummyContext h
  | permanentContext r => permanentContext r
  | objectContext r =>
    objectContext (mkResourceContext (invalidateContext (hc r)) (authValue r))
  | nvIndexContext r =>
    nvIndexContext (mkResourceContext (invalidateContext (hc r)) (authValue r))
  | sessionContext h attrs => sessionContext (invalidateContext h) attrs
  end.

(** *** The attributes of an NV index context *)

(** The public area with other attributes. *)
Definition withNVAttrs (p : NVPublic) (attrs : Z) : NVPublic :=
  mkNVPublic (Index p) (NameAlg p) attrs (AuthPolicy p) (NVSize p).

(** The context after its public area was changed to [p]: the name is
    computed anew, and is nil when that fails. [None] is the panic on a
    context without public area. *)
Definition renamed `{Platform} (r : resourceContext) (change : NVPublic -> NVPublic)
  : option HandleContext :=
  match Data (hc r) with
  | None => None
  | Some u =>
    match NV u with
    | None => None
    | Some p =>
      let name := match nvName (change p) with Ok n => n | Err _ => [] end in
      Some (nvIndexContext
              (mkResourceContext
                 (mkHandleContext (Type' (hc r)) (H (hc r)) name
                                  (Some (mkU (Object u) (Some (change p)) (Session u))))
                 (authValue r)))
    end
  end.

(** [nvIndexContext.SetAttr] and [nvIndexContext.ClearAttr]; the
    attributes are an unsigned 32-bit word. *)
Definition SetAttr `{Platform} (r : resourceContext) (a : Z) : option HandleContext :=
  renamed r (fun p => withNVAttrs p (Z.lor (Attrs p) a)).

Definition ClearAttr `{Platform} (r : resourceContext) (a : Z) : option HandleContext :=
  renamed r (fun p => withNVAttrs p (Z.land (Attrs p) (wrap32 (Z.lnot a)))).

(** *** The attributes of a session context *)

Definition AttrContinueSession : Z := Z.shiftl 1 0.
Definition AttrAuditExclusive : Z := Z.shiftl 1 1.
Definition AttrAuditReset : Z := Z.shiftl 1 2.
Definition AttrCommandEncrypt : Z := Z.shiftl 1 3.
Definition AttrResponseEncrypt : Z := Z.shiftl 1 4.
Definition AttrAudit : Z := Z.shiftl 1 5.

(** [SetAttrs], [WithAttrs], [IncludeAttrs] and [ExcludeAttrs] of the
    session context with the handle context [h] and the attributes
    [attrs0]. The duplicates keep the pointer to the handle context. *)
Definition SetAttrs `{Platform} (h : handleContext) (attrs0 attrs : Z) : HandleContext :=
  sessionContext h attrs.

Definition WithAttrs `{Platform} (h : handleContext) (attrs0 attrs : Z) : HandleContext :=
  sessionContext h attrs.

Definition IncludeAttrs `{Platform} (h : handleContext) (attrs0 attrs : Z) : HandleContext :=
  sessionContext h (Z.lor attrs0 attrs).

Definition ExcludeAttrs `{Platform} (h : handleContext) (attrs0 attrs : Z) : HandleContext :=
  sessionContext h (Z.ldiff attrs0 attrs).

(** The attribute bits of the TPM are declared outside the sources. *)
Class SessionAttrTable := {
  attrContinueSession : Z;
  attrAuditExclusive : Z;
  attrAuditReset : Z;
  attrDecrypt : Z;
  attrEncrypt : Z;
  attrAudit : Z
}.

(** [sessionContext.tpmAttrs] for the attributes [attrs]. *)
Definition tpmAttrs `{SessionAttrTable} (attrs : Z) : Z :=
  let r := 0 in
  let r := if Z.land attrs AttrContinueSession >? 0 then Z.lor r attrContinueSession else r in
  let r := if Z.land attrs AttrAuditExclusive >? 0
           then Z.lor r (Z.lor attrAuditExclusive attrAudit) else r in
  let r := if Z.land attrs AttrAuditReset >? 0
           then Z.lor r (Z.lor attrAuditReset attrAudit) else r in
  let r := if Z.land attrs AttrCommandEncrypt >? 0 then Z.lor r attrDecrypt else r in
  let r := if Z.land attrs AttrResponseEncrypt >? 0 then Z.lor r attrEncrypt else r in
  let r := if Z.land attrs AttrAudit >? 0 then Z.lor r attrAudit else r in
  r.

(** The session attribute bits of the TCG library specification. *)
Definition tcgSessionAttrs : SessionAttrTable :=
  {| attrContinueSession := 0x01; attrAuditExclusive := 0x02; attrAuditReset := 0x04;
     attrDecrypt := 0x20; attrEncrypt := 0x40; attrAudit := 0x80 |}.

(** *** Permanent contexts *)

(** [TPMContext.GetPermanentContext]: the context and the map
    [t.permanentResources] afterwards; [None] is the panic on a handle
    that is neither a permanent nor a PCR handle. *)
Definition GetPermanentContext `{Platform} (permanentResources : gmap Z HandleContext)
  (handle : Z) : option (HandleContext * gmap Z HandleContext) :=
  if (HandleType handle =? HandleTypePermanent) || (HandleType handle =? HandleTypePCR) then
    match permanentResources !! handle with
    | Some rc => Some (rc, permanentResources)
    | None =>
      let rc := makePermanentContext handle in
      Some (rc, <[handle := rc]> permanentResources)
    end
  else None.

(** [TPMContext.PCRHandleContext]; [Handle(pcr)] converts to 32 bits. *)
Definition PCRHandleContext `{Platform} (permanentResources : gmap Z HandleContext)
  (pcr : Z) : option (HandleContext * gmap Z HandleContext) :=
  let h := wrap32 pcr in
  if negb (HandleType h =? HandleTypePCR) then None
  else GetPermanentContext permanentResources h.

(** *** Contexts from a public area *)

(** What the constructors from a public area return: a context, an error,
    or a panic. *)
Inductive built `{Platform} : Type :=
| Built (rc : HandleContext)
| Refused (msg : string)
| BuildPanic.

Arguments Built {_} rc.
Arguments Refused {_} msg.
Arguments BuildPanic {_}.

Definition checkedContext `{Platform} (rc : HandleContext) : built :=
  match checkConsistency (contextOf rc) with
  | Consistent => Built rc
  | Inconsistent msg => Refused msg
  | Panicked => BuildPanic
  end.

Definition CreateNVIndexResourceContextFromPublic `{Platform} (pub : NVPublic) : built :=
  match nvName pub with
  | Err msg => Refused (String.append "cannot compute name from public area: " msg)
  | Ok name => checkedContext (makeNVIndexContext name pub)
  end.

Definition CreateObjectResourceContextFromPublic `{Platform} (handle : Z) (pub : Public)
  : built :=
  match publicName pub with
  | Err msg => Refused (String.append "cannot compute name from public area: " msg)
  | Ok name => checkedContext (makeObjectContext handle name (Some pub))
  end.

End Resources.

(** ** The registry and [Clear] ([cmds_hierarchy.go]) *)

Module Hierarchy.
Import Errors.

(** Modelled from the spec: the declaration of [AttrNVPlatformCreate] is
    absent; platform-created is one bit of the attribute word of an NV
    index, the bit [platformCreateBit]. *)
Class NVAttributeTable := { platformCreateBit : Z }.

Definition AttrNVPlatformCreate `{NVAttributeTable} : Z := Z.shiftl 1 platformCreateBit.

(** The implementations of [ResourceContext] at the time of this file: an
    object context holds its handle and name, an NV index context its
    public area as well. *)
Inductive ResourceContext : Type :=
| permanentContext (handle : Z)
| objectContext (handle : Z) (name : list Z)
| nvIndexContext (handle : Z) (name : list Z) (public : Resources.NVPublic)
| sessionContext (handle : Z) (name : list Z).

Definition Handle (rc : ResourceContext) : Z :=
  match rc with
  | permanentContext handle => handle
  | objectContext handle _ => handle
  | nvIndexContext handle _ _ => handle
  | sessionContext handle _ => handle
  end.

(** Modelled from the spec: [evictResourceContext] is absent; it removes
    the context from the registry [t.resources], a
    [map[Handle]ResourceContext] in which the context sits under its
    handle, and invalidates the context, which the registry no longer
    holds. *)
Definition evictResourceContext (rc : ResourceContext)
  (resources : gmap Z ResourceContext) : gmap Z ResourceContext :=
  delete (Handle rc) resources.

(** A session that a command uses (for [Clear] and [NVGlobalWriteLock],
    [authHandleAuth] when it is a session): the handle and the name of its
    context and the attributes it is used with. *)
Record session := mkSession {
  sessionHandle : Z;
  sessionName : list Z;
  sessionAttrs : Z
}.

Definition contextOfSession (s : session) : ResourceContext :=
  sessionContext (sessionHandle s) (sessionName s).

(** The handles of the sessions that are used without
    [AttrContinueSession]. *)
Definition invalidated (sessions : list session) : list Z :=
  map sessionHandle
      (List.filter (fun s => negb (Z.land (sessionAttrs s) Resources.AttrContinueSession >? 0))
                   sessions).

(** Modelled from the spec: the processing of the response of a command
    is absent. "If continue-session is not set in the command's session
    attributes, the session is invalidated after response processing
    regardless of success", and to invalidate a context evicts it from the
    registry: of the sessions of the command, the contexts of those used
    without [AttrContinueSession] are evicted. *)
Definition invalidateSessions (sessions : list session)
  (resources : gmap Z ResourceContext) : gmap Z ResourceContext :=
  fold_left
    (fun resources s =>
       if Z.land (sessionAttrs s) Resources.AttrContinueSession >? 0 then resources
       else evictResourceContext (contextOfSession s) resources)
    sessions resources.

(** Modelled from the spec: what a failure does to the sessions of a
    command is absent as well. "If the transport aborts a read
    mid-response, all attached sessions are marked invalid", and a response
    HMAC that does not verify "marks all sessions in the command invalid":
    the contexts of the sessions that a failing call marks are evicted. *)
Definition invalidateAll (marked : list session)
  (resources : gmap Z ResourceContext) : gmap Z ResourceContext :=
  fold_left (fun resources s => evictResourceContext (contextOfSession s) resources)
            marked resources.

(** Modelled from the spec: [validateAndAppendSessionParam],
    [runCommandWithoutProcessingResponse], [processResponse] and
    [GetCapabilityHandles] are absent. The record holds what they answer
    to [Clear]: the sessions that the command uses, the error of each of
    the first three, if any, the sessions that a call which fails after
    the command was sent marks invalid (all of them or none, as above),
    and the answers of [GetCapabilityHandles] for the transient and the
    persistent handles. [validateAndAppendSessionParam] refuses "before
    sending any bytes" and leaves the registry as it is; the processing of
    the response invalidates the sessions used without
    [AttrContinueSession], whether it succeeds or not;
    [GetCapabilityHandles] is called without a session. *)
Record pipeline := mkPipeline {
  sessions : list session;
  validateError : option string;
  runError : option error;
  processError : option error;
  marked : list session;
  transientHandles : result error (list Z);
  persistentHandles : result error (list Z)
}.

(** The closure [getHandles] of [Clear]: [out] is a
    [map[Handle]struct{}]. *)
Definition getHandles (answer : result error (list Z)) (out : gset Z)
  : result error (gset Z) :=
  match answer with
  | Err _ => Err (OtherError "cannot fetch handles from TPM after clear")
  | Ok handles => Ok (fold_left (fun out handle => {[ handle ]} ∪ out) handles out)
  end.

(** The type switch of the loop: [true] is [continue]. *)
Definition continues `{NVAttributeTable} (handles : gset Z) (rc : ResourceContext) : bool :=
  match rc with
  | objectContext handle _ => bool_decide (handle ∈ handles)
  | nvIndexContext _ _ public =>
    Z.land (Resources.Attrs public) AttrNVPlatformCreate >? 0
  | sessionContext _ _ => true
  | permanentContext _ => false
  end.

(** One round of [for _, rc := range t.resources]: an entry that was
    removed before the iteration reached it is not produced. *)
Definition clearStep `{NVAttributeTable} (handles : gset Z) (resources : gmap Z ResourceContext)
  (entry : Z * ResourceContext) : gmap Z ResourceContext :=
  match resources !! fst entry with
  | None => resources
  | Some _ =>
    if continues handles (snd entry) then resources
    else evictResourceContext (snd entry) resources
  end.

(** [Clear]: the error it returns ([None] is nil) and the registry it
    leaves. [order] is the order in which the loop visits the entries
    that the registry holds when the loop begins, which Go leaves
    unspecified. *)
Definition Clear `{NVAttributeTable} (t : pipeline) (order : list (Z * ResourceContext))
  (resources : gmap Z ResourceContext) : option error * gmap Z ResourceContext :=
  match validateError t with
  | Some msg =>
    (Some (OtherError
             (String.append
                "error whilst processing handle with authorization for authHandle: " msg)),
     resources)
  | None =>
    match runError t with
    | Some err => (Some err, invalidateAll (marked t) resources)
    | None =>
      (* t.processResponse(ctx) *)
      let resources := invalidateSessions (sessions t) resources in
      match processError t with
      | Some err => (Some err, invalidateAll (marked t) resources)
      | None =>
        match getHandles (transientHandles t) ∅ with
        | Err err => (Some err, resources)
        | Ok handles =>
          match getHandles (persistentHandles t) handles with
          | Err err => (Some err, resources)
          | Ok handles => (None, fold_left (clearStep handles) order resources)
          end
        end
      end
    end
  end.

(** Every context of the registry sits under its own handle. *)
Definition wellKeyed (resources : gmap Z ResourceContext) : Prop :=
  forall key rc, resources !! key = Some rc -> Handle rc = key.

(** The sessions of a command are contexts of the registry. *)
Definition registered (sessions : list session) (resources : gmap Z ResourceContext) : Prop :=
  forall s, In s sessions -> resources !! sessionHandle s = Some (contextOfSession s).

(** The contexts that outlive [Clear], given the sessions that the
    command used and the handles that the capability queries returned:
    the session contexts that the command did not invalidate, the NV
    index contexts whose platform-created bit is set, the object contexts
    whose handle was returned. *)
Definition survives `{NVAttributeTable} (sessions : list session) (queried : list Z)
  (rc : ResourceContext) : Prop :=
  match rc with
  | sessionContext handle _ => ~ In handle (invalidated sessions)
  | nvIndexContext _ _ public =>
    Z.testbit (Resources.Attrs public) platformCreateBit = true
  | objectContext handle _ => In handle queried
  | permanentContext _ => False
  end.

(** The attribute table of the TCG library specification, a pipeline in
    which every call succeeds and one persistent object is left, with a
    password authorization and with an authorization session that is used
    without [AttrContinueSession], and a registry with a context of each
    kind. *)
Definition tcgAttributes : NVAttributeTable := {| platformCreateBit := 30 |}.

Definition pipelineExample : pipeline :=
  mkPipeline [] None None None [] (Ok []) (Ok [0x81000001]).

Definition pipelineWithSession : pipeline :=
  mkPipeline [mkSession 0x02000000 [2; 0; 0; 0] 0] None None None [] (Ok [])
             (Ok [0x81000001]).

Definition registryExample : gmap Z ResourceContext :=
  <[0x80000001 := objectContext 0x80000001 [0; 11; 1]]>
  (<[0x81000001 := objectContext 0x81000001 [0; 11; 2]]>
  (<[0x01500000 := nvIndexContext 0x01500000 [0; 11; 3]
                     (Resources.mkNVPublic 0x01500000 0x000b 0x0002000a [] 8)]>
  (<[0x01500001 := nvIndexContext 0x01500001 [0; 11; 4]
                     (Resources.mkNVPublic 0x01500001 0x000b 0x4002000a [] 8)]>
  (<[0x02000000 := sessionContext 0x02000000 [2; 0; 0; 0]]> ∅)))).

(** *** [NVGlobalWriteLock] *)

(** Modelled from the spec: the declarations of [AttrNVGlobalLock] and
    [AttrNVWriteLocked] are absent; each is one bit of the attribute
    word. *)
Class NVLockTable := { globalLockBit : Z; writeLockedBit : Z }.

Definition AttrNVGlobalLock `{NVLockTable} : Z := Z.shiftl 1 globalLockBit.
Definition AttrNVWriteLocked `{NVLockTable} : Z := Z.shiftl 1 writeLockedBit.

(** Modelled from the spec: [setAttr] of an NV index context is absent at
    the time of this file; as [SetAttr] of [resources.go] does, it sets
    the bits in the attributes of the public area and computes the name
    anew, which is nil when that fails. *)
Definition setAttr `{Resources.Platform} (a : Z) (rc : ResourceContext) : ResourceContext :=
  match rc with
  | nvIndexContext handle name public =>
    let public' := Resources.withNVAttrs public (Z.lor (Resources.Attrs public) a) in
    nvIndexContext handle
                   (match Resources.nvName public' with Ok n => n | Err _ => [] end)
                   public'
  | _ => rc
  end.

(** The body of the loop of [NVGlobalWriteLock]: the context that the
    registry holds afterwards where it held [rc]. *)
Definition writeLock `{Resources.Platform} `{NVLockTable} (rc : ResourceContext)
  : ResourceContext :=
  match rc with
  | nvIndexContext _ _ public =>
    if Z.land (Resources.Attrs public) AttrNVGlobalLock >? 0
    then setAttr AttrNVWriteLocked rc
    else rc
  | _ => rc
  end.

(** What [RunCommand] answers: an error before a response is processed,
    or the outcome of the processing of the response. *)
Inductive answer : Type :=
| notProcessed (err : error)
| processed (err : option error).

(** Modelled from the spec: [RunCommand] of this [TPMContext] is absent;
    it returns the error of the command, if any. The processing of the
    response invalidates the sessions that were used without
    [AttrContinueSession], and a failure invalidates the sessions that it
    marks, as for [Clear]. *)
Definition RunCommand (sessions marked : list session) (a : answer)
  (resources : gmap Z ResourceContext) : option error * gmap Z ResourceContext :=
  match a with
  | notProcessed err => (Some err, invalidateAll marked resources)
  | processed (Some err) =>
    (Some err, invalidateAll marked (invalidateSessions sessions resources))
  | processed None => (None, invalidateSessions sessions resources)
  end.

(** [NVGlobalWriteLock], given the sessions of the command and the answer
    of [RunCommand]: the error it returns and the registry afterwards.
    The loop changes the contexts through the pointers that the registry
    holds. *)
Definition NVGlobalWriteLock `{Resources.Platform} `{NVLockTable}
  (sessions marked : list session) (a : answer) (resources : gmap Z ResourceContext)
  : option error * gmap Z ResourceContext :=
  match RunCommand sessions marked a resources with
  | (Some err, resources) => (Some err, resources)
  | (None, resources) => (None, writeLock <$> resources)
  end.

(** The lock bits of the TCG library specification. *)
Definition tcgLocks : NVLockTable := {| globalLockBit := 15; writeLockedBit := 12 |}.

End Hierarchy.

(** ** The transport ([RunCommandBytes], [RunCommand]) *)

Module Transport.
Import Errors Mu.

Definition maxCommandSize : nat := 4096.

(** Modelled from the spec: the declarations of [StructTag], [CommandCode]
    and [ResponseCode] are absent; a tag is 16 bits wide, a command code
    and a response code 32 bits. *)
Definition commandHeader : type :=
  Struct [("Tag", "", Int false 2); ("CommandSize", "", Int false 4);
          ("CommandCode", "", Int false 4)]%string.

Definition responseHeader : type :=
  Struct [("Tag", "", Int false 2); ("ResponseSize", "", Int false 4);
          ("ResponseCode", "", Int false 4)]%string.

(** The device behind [t.tpm]: the error of [Write] for the bytes written,
    if any, and what [Read] then answers. *)
Record device := mkDevice {
  Write : list Z -> option string;
  Read : list Z -> result string (list Z)
}.

Inductive transportError : Type :=
| MarshallingError (err : muError)
| TPMWriteError (IOError : string)
| TPMReadError (IOError : string)
| UnmarshallingError (err : muError)
| ResponseError (err : error)
| TransportPanic.

(** [RunCommandBytes]: the response code, the response tag, the response
    bytes ([None] is nil) and the error. The decoder is applied as
    [errors.go] declares it, with the command code. *)
Definition RunCommandBytes `{Reflection} `{ResponseCodeTable} (fuel : nat) (tpm : device)
  (tag commandCode : Z) (commandBytes : list Z)
  : Z * Z * option (list Z) * option transportError :=
  let cHeader := VStruct [VInt tag; VInt (wrap32 (10 + len commandBytes)); VInt commandCode] in
  match MarshalToBytes fuel [(commandHeader, cHeader)] with
  | Err err => (0, 0, None, Some (MarshallingError err))
  | Ok headerBytes =>
    match Write tpm (headerBytes ++ commandBytes) with
    | Some err => (0, 0, None, Some (TPMWriteError err))
    | None =>
      match Read tpm (headerBytes ++ commandBytes) with
      | Err err => (0, 0, None, Some (TPMReadError err))
      | Ok answer =>
        let responseBytes := firstn maxCommandSize answer in
        match UnmarshalFromBytes fuel responseBytes
                [(Ptr responseHeader, VPtr (Some (Zero responseHeader)))] with
        | (_, Some err, _) => (0, 0, None, Some (UnmarshallingError err))
        | (rHeaderLen, None,
           [(_, VPtr (Some (VStruct [VInt rTag; VInt _; VInt rCode])))]) =>
          let responseBytes := skipn (Z.to_nat rHeaderLen) responseBytes in
          match DecodeResponseCode commandCode rCode with
          | Some err => (rCode, rTag, None, Some (ResponseError err))
          | None => (rCode, rTag, Some responseBytes, None)
          end
        | _ => (0, 0, None, Some TransportPanic)
        end
      end
    end
  end.

(** *** The arguments of [RunCommand] *)

(** An argument of [RunCommand]: the [Separator] sentinel or a value. *)
Inductive param (A : Type) : Type :=
| Separator
| Arg (a : A).

Arguments Separator {A}.
Arguments Arg {A} a.

Definition isSeparator {A : Type} (p : param A) : bool :=
  match p with Separator => true | Arg _ => false end.

(** The loop of [RunCommand]: the sentinels met, the command arguments
    and the response arguments so far. *)
Definition runCommandStep {A : Type} (st : nat * list (param A) * list (param A))
  (p : param A) : nat * list (param A) * list (param A) :=
  match st with
  | (sentinels, commandArgs, responseArgs) =>
    let sentinels' := if isSeparator p then S sentinels else sentinels in
    match sentinels with
    | 0%nat | 1%nat => (sentinels', commandArgs ++ [p], responseArgs)
    | 2%nat | 3%nat => (sentinels', commandArgs, responseArgs ++ [p])
    | 4%nat => (sentinels', commandArgs ++ [p], responseArgs ++ [p])
    | _ => (sentinels, commandArgs, responseArgs)
    end
  end.

Definition runCommandArgs {A : Type} (params : list (param A))
  : list (param A) * list (param A) :=
  let st := fold_left runCommandStep params (0%nat, [], []) in
  (snd (fst st), snd st).

(** The loops of [RunCommandAndReturnRawResponse] and of
    [ProcessResponse]: the handles, the parameters and the session
    parameters so far. [isHandle] is the type test on a handle argument,
    whose failure is the [InvalidParamError]. *)
Definition sectionStep {A : Type} (isHandle : A -> bool)
  (st : option (nat * list A * list A * list A)) (p : param A)
  : option (nat * list A * list A * list A) :=
  match st with
  | None => None
  | Some (sentinels, handles, params, sessions) =>
    match p with
    | Separator => Some (S sentinels, handles, params, sessions)
    | Arg a =>
      match sentinels with
      | 0%nat => if isHandle a then Some (sentinels, handles ++ [a], params, sessions)
                 else None
      | 1%nat => Some (sentinels, handles, params ++ [a], sessions)
      | 2%nat => Some (sentinels, handles, params, sessions ++ [a])
      | _ => Some (sentinels, handles, params, sessions)
      end
    end
  end.

Definition sections {A : Type} (isHandle : A -> bool) (params : list (param A))
  : option (list A * list A * list A) :=
  match fold_left (sectionStep isHandle) params (Some (0%nat, [], [], [])) with
  | None => None
  | Some (_, handles, params, sessions) => Some (handles, params, sessions)
  end.

(** The bytes of a command on the wire: the header with the tag, the
    total size and the command code, then the command bytes. *)
Definition frame (tag commandCode : Z) (commandBytes : list Z) : list Z :=
  be 2 tag ++ be 4 (wrap32 (10 + len commandBytes)) ++ be 4 commandCode ++ commandBytes.

(** The arguments of a command in the order [RunCommand] takes them:
    command handles, command parameters, response handles, response
    parameters and session parameters, each part ended by a separator
    but the last, which may be followed by a separator and anything. *)
Definition arguments {A : Type} (ch cp rh rp ss : list A) (tail : list (param A))
  : list (param A) :=
  map Arg ch ++ Separator :: map Arg cp ++ Separator :: map Arg rh ++ Separator
  :: map Arg rp ++ Separator :: map Arg ss ++ tail.

(** A device that accepts every command and answers with a fixed
    response. *)
Definition echo (answer : list Z) : device :=
  mkDevice (fun _ => None) (fun _ => Ok answer).

End Transport.

(* ===================================================================== *)
(** * Part II: the properties *)
(* ===================================================================== *)

(** ** Bit-level facts used by the decoder *)

Lemma land_pow2_testbit (r k : Z) :
  0 <= k -> Z.land r (Z.shiftl 1 k) = if Z.testbit r k then 2 ^ k else 0.
Proof.
  intros Hk. rewrite Z.shiftl_1_l.
  apply Z.bits_inj'. intros n Hn.
  rewrite Z.land_spec, Z.pow2_bits_eqb by lia.
  destruct (Z.eqb_spec k n) as [->|Hne].
  - rewrite andb_true_r. destruct (Z.testbit r n).
    + rewrite Z.pow2_bits_true; lia.
    + apply eq_sym, Z.bits_0.
  - rewrite andb_false_r. destruct (Z.testbit r k).
    + rewrite Z.pow2_bits_false; lia.
    + apply eq_sym, Z.bits_0.
Qed.

Lemma land_bit_eq0 (r k : Z) :
  0 <= k -> (Z.land r (Z.shiftl 1 k) =? 0) = negb (Z.testbit r k).
Proof.
  intros Hk. rewrite land_pow2_testbit by lia.
  destruct (Z.testbit r k); simpl; [|reflexivity].
  apply Z.eqb_neq. assert (0 < 2 ^ k) by (apply Z.pow_pos_nonneg; lia). lia.
Qed.

Lemma land_bit_gt0 (r k : Z) :
  0 <= k -> (Z.land r (Z.shiftl 1 k) >? 0) = Z.testbit r k.
Proof.
  intros Hk. rewrite land_pow2_testbit by lia.
  destruct (Z.testbit r k); [|reflexivity].
  assert (0 < 2 ^ k) by (apply Z.pow_pos_nonneg; lia).
  apply Z.gtb_lt; lia.
Qed.

Lemma land_shifted_mask (r m k : Z) :
  0 <= k -> Z.land r (Z.shiftl m k) = Z.shiftl (Z.land (Z.shiftr r k) m) k.
Proof.
  intros Hk. apply Z.bits_inj'. intros n Hn.
  rewrite Z.land_spec, !Z.shiftl_spec by lia.
  destruct (Z.ltb_spec n k) as [Hlt|Hge].
  - rewrite (Z.testbit_neg_r m (n - k)) by lia.
    rewrite (Z.testbit_neg_r _ (n - k)) by lia. apply andb_false_r.
  - rewrite Z.land_spec, Z.shiftr_spec by lia.
    replace (n - k + k) with n by lia. reflexivity.
Qed.

Lemma field_extract (r w k : Z) :
  0 <= k -> 0 <= w ->
  Z.shiftr (Z.land r (Z.shiftl (Z.ones w) k)) k = (r / 2 ^ k) mod 2 ^ w.
Proof.
  intros Hk Hw. rewrite land_shifted_mask by lia.
  rewrite Z.shiftr_shiftl_l by lia. rewrite Z.sub_diag, Z.shiftl_0_r.
  rewrite Z.land_ones by lia. rewrite Z.shiftr_div_pow2 by lia. reflexivity.
Qed.

Lemma field_nonzero (r w k : Z) :
  0 <= k -> 0 <= w ->
  (Z.land r (Z.shiftl (Z.ones w) k) >? 0) = negb ((r / 2 ^ k) mod 2 ^ w =? 0).
Proof.
  intros Hk Hw. rewrite land_shifted_mask by lia.
  rewrite Z.land_ones by lia. rewrite Z.shiftr_div_pow2 by lia.
  rewrite Z.shiftl_mul_pow2 by lia.
  assert (0 < 2 ^ k) by (apply Z.pow_pos_nonneg; lia).
  assert (0 <= (r / 2 ^ k) mod 2 ^ w) by (apply Z.mod_pos_bound, Z.pow_pos_nonneg; lia).
  destruct (Z.eqb_spec ((r / 2 ^ k) mod 2 ^ w) 0) as [->|Hne]; simpl.
  - reflexivity.
  - apply Z.gtb_lt. nia.
Qed.

(** ** The response-code decoder *)

Import Errors.

(** C1. For every response code, [DecodeResponseCode] returns the result of
    the taxonomy: no error for [Success]; in format zero (bit 7 clear) a
    [TPM1Error] with the whole code when bit 8 is clear, else a
    [TPMVendorError] with the whole code when bit 10 is set, else a
    [TPMWarning] with the low seven bits when bit 11 is set, else a
    [TPMError] with the low seven bits; in format one the error code is the
    low six bits plus the bias [errorCode1Start], and the result is a
    [TPMParameterError] indexed by bits 8 to 11 when bit 6 is set, else a
    [TPMSessionError] indexed by bits 8 to 10 when bit 11 is set, else a
    [TPMHandleError] with that index when it is not zero, else a plain
    [TPMError]. In particular 0x000005E7 decodes to a parameter error with
    index 5 and code [ErrorECCPoint]. The bias is an unsigned 32-bit
    constant that a six-bit code can be added to without overflow. *)
Theorem DecodeResponseCode_taxonomy `{ResponseCodeTable} (command resp : Z) :
  0 <= errorCode1Start <= 2 ^ 32 - 2 ^ 6 ->
  DecodeResponseCode command resp = taxonomy command resp
  /\ DecodeResponseCode command 0x000005E7
     = Some (TPMParameterError 5 (mkTPMError command ErrorECCPoint)).
Proof.
  intros Hbias.
  assert (Hcode : forall r, wrap32 (Z.land r fmt1ErrorCodeMask + errorCode1Start)
                            = r mod 2 ^ 6 + errorCode1Start).
  { intros r. unfold wrap32, fmt1ErrorCodeMask.
    change 0x3f with (Z.ones 6). rewrite Z.land_ones by lia.
    assert (0 <= r mod 2 ^ 6 < 2 ^ 6) by (apply Z.mod_pos_bound; lia).
    apply Z.mod_small. lia. }
  split.
  - unfold DecodeResponseCode, taxonomy, Success.
    destruct (resp =? 0); [reflexivity|].
    unfold formatMask, fmt0VersionMask, fmt0VendorMask, fmt0SeverityMask,
      fmt1ParameterMask, fmt1SessionMask.
    rewrite !land_bit_eq0, !land_bit_gt0 by lia.
    rewrite Hcode.
    unfold fmt0ErrorCodeMask. change 0x7f with (Z.ones 7).
    rewrite !Z.land_ones by lia.
    unfold fmt1ParameterIndexMask, fmt1HandleOrSessionIndexMask, fmt1IndexShift.
    change 0xf with (Z.ones 4). change 0x7 with (Z.ones 3).
    rewrite !field_extract, field_nonzero by lia.
    reflexivity.
  - unfold DecodeResponseCode. rewrite Hcode. unfold ErrorECCPoint.
    replace (0x000005E7 mod 2 ^ 6 + errorCode1Start) with (errorCode1Start + 0x27)
      by (change (0x000005E7 mod 2 ^ 6) with 0x27; lia).
    reflexivity.
Qed.

(** The vector 0x000005E7 under the TCG code table. *)
Lemma DecodeResponseCode_taxonomy_witness :
  @DecodeResponseCode tcgTable 0x17e 0x00000923 = @taxonomy tcgTable 0x17e 0x00000923
  /\ @DecodeResponseCode tcgTable 0x17e 0x000005E7
     = Some (TPMParameterError 5 (mkTPMError 0x17e 0xa7)).
Proof.
  apply (@DecodeResponseCode_taxonomy tcgTable 0x17e 0x00000923).
  vm_compute. split; discriminate.
Defined.

(** ** The marshaller *)

Import Mu.

Lemma be_2 (v : Z) : be 2 v = [(v / 256) mod 256; v mod 256].
Proof.
  unfold be. simpl. rewrite Z.div_1_r. reflexivity.
Qed.

Lemma decode_be_2 (v : Z) : 0 <= v < 2 ^ 16 -> decode_be (be 2 v) = v.
Proof.
  intros Hv. rewrite be_2. unfold decode_be. simpl.
  assert (v < 256 * 256) by lia.
  rewrite (Z.mod_small (v / 256) 256) by (split; [apply Z.div_pos; lia | apply Z.div_lt_upper_bound; lia]).
  pose proof (Z.div_mod v 256). lia.
Qed.

Lemma customFree_hasCustom (t : type) :
  customFree t = true -> hasCustomMarshallerImpl t = false.
Proof.
  destruct t as [| | e | | | | | | |]; simpl; try reflexivity; try discriminate.
  destruct e; simpl; try reflexivity; discriminate.
Qed.

(** *** Sized fields *)

(** C5 (as amended). For a field marked sized whose type is a pointer to a
    structure without a custom marshaller: marshalling a nil pointer emits
    exactly the two bytes 0x00 0x00; unmarshalling a zero length prefix
    into a nil destination consumes exactly the two prefix bytes and leaves
    the destination nil, while a destination that is already allocated is
    refused with an error; and for a non-nil pointer whose encoded body is
    shorter than 65536 bytes, marshalling emits the length of the body as
    an unsigned 16-bit integer followed by the body. *)
Theorem sized_field_encoding `{Reflection} (fuel : nat) (e : type) (a : bool) (ctx : muContext) :
  sized (options ctx) = true ->
  isStruct e = true ->
  hasCustomMarshallerImpl (Ptr e) = false ->
  marshalValue (S fuel) (mkValue (Ptr e) (VPtr None) a) (Some ctx) = Ok [0; 0]
  /\ (forall rest,
        unmarshalValue (S fuel) (0 :: 0 :: rest) (mkValue (Ptr e) (VPtr None) a) (Some ctx)
        = Ok (VPtr None, rest))
  /\ (forall d rest,
        unmarshalValue (S fuel) (0 :: 0 :: rest) (mkValue (Ptr e) (VPtr (Some d)) a) (Some ctx)
        = Err ZeroSizedPreallocated)
  /\ (forall d body,
        marshalValue fuel (mkValue e d true)
          (Some (beginPtrElemCtx (enter (Some (beginSizedStructCtx (enter (Some ctx)))))
                                 (mkValue (Ptr e) (VPtr (Some d)) a)))
        = Ok body ->
        len body < 2 ^ 16 ->
        marshalValue (S (S fuel)) (mkValue (Ptr e) (VPtr (Some d)) a) (Some ctx)
        = Ok (be 2 (len body) ++ body)
        /\ decode_be (be 2 (len body)) = len body).
Proof.
  intros Hsized Hstruct Hcustom.
  repeat split.
  - cbn [marshalValue vtype]. rewrite Hcustom.
    cbn [enter options]. rewrite Hsized.
    unfold marshalSized. cbn [vtype isPtr kindOf negb Elem]. rewrite Hstruct.
    reflexivity.
  - intros rest. cbn [unmarshalValue vtype]. rewrite Hcustom.
    cbn [enter options]. rewrite Hsized.
    unfold unmarshalSized. cbn [vtype isPtr kindOf negb Elem]. rewrite Hstruct.
    reflexivity.
  - intros d rest. cbn [unmarshalValue vtype]. rewrite Hcustom.
    cbn [enter options]. rewrite Hsized.
    unfold unmarshalSized. cbn [vtype isPtr kindOf negb Elem]. rewrite Hstruct.
    reflexivity.
  - cbn [marshalValue vtype]. rewrite Hcustom.
    cbn [enter options]. rewrite Hsized.
    unfold marshalSized at 1. cbn [vtype isPtr kindOf negb Elem]. rewrite Hstruct.
    cbn. cbn in H0. cbn in Hcustom. rewrite Hcustom, H0. cbn.
    unfold wrap16. rewrite (Z.mod_small (len body) (2 ^ 16)) by (unfold len in *; lia).
    reflexivity.
  - apply decode_be_2. unfold len in *. lia.
Qed.

Lemma sliceBytes_bytes (bs : list Z) :
  Forall (fun b => 0 <= b < 256) bs -> sliceBytes (map VInt bs) = Ok bs.
Proof.
  induction 1 as [|b bs Hb _ IH]; simpl; [reflexivity|].
  rewrite IH. simpl. unfold wrap8. rewrite Z.mod_small by lia. reflexivity.
Qed.

Lemma marshal_blobSized `{Reflection} (fuel : nat) (bs : list Z) :
  Forall (fun b => 0 <= b < 256) bs ->
  MarshalToBytes (S (S (S (S (S fuel)))))
    [(blobSized, VStruct [VPtr (Some (VStruct [VSlice (Some (map VInt bs))]))])]
  = Ok (be 2 (wrap16 (len bs)) ++ bs).
Proof.
  intros Hbs. cbv -[sliceBytes map be wrap16 len app].
  rewrite (sliceBytes_bytes bs Hbs). rewrite !app_nil_r. reflexivity.
Qed.

(** C5, as stated, fails on two inputs: a zero length prefix read into a
    destination that is already allocated is an error (the destination
    stays allocated), and a body of 65536 bytes is prefixed by the length
    zero. *)
Lemma sized_field_counterexample :
  @UnmarshalFromBytes plain 5 [0; 0]
     [(Ptr blobSized, VPtr (Some (VStruct [VPtr (Some (VStruct [VSlice (Some [])]))])))]
  = (0, Some ZeroSizedPreallocated,
     [(Ptr blobSized, VPtr (Some (VStruct [VPtr (Some (VStruct [VSlice (Some [])]))])))])
  /\ @MarshalToBytes plain 5
       [(blobSized,
         VStruct [VPtr (Some (VStruct [VSlice (Some (map VInt (repeat 0 (Z.to_nat 65536))))]))])]
     = Ok (0 :: 0 :: repeat 0 (Z.to_nat 65536)).
Proof.
  split; [reflexivity|].
  generalize (Z2Nat.id 65536 ltac:(lia)).
  generalize (Z.to_nat 65536) as n. intros n Hn.
  rewrite (@marshal_blobSized plain 0 (repeat 0 n)).
  - unfold len. rewrite repeat_length, Hn. reflexivity.
  - clear Hn. induction n as [|n IH]; simpl; constructor; [lia | exact IH].
Qed.

(** The sized pointer of a structure with a three-byte body. *)
Lemma sized_field_encoding_witness :
  @marshalValue plain 3 (mkValue (Ptr blob) (VPtr None) false) (Some sizedField) = Ok [0; 0]
  /\ @unmarshalValue plain 3 [0; 0; 7] (mkValue (Ptr blob) (VPtr None) true) (Some sizedField)
     = Ok (VPtr None, [7])
  /\ @marshalValue plain 4
       (mkValue (Ptr blob) (VPtr (Some (VStruct [VSlice (Some [VInt 1; VInt 2; VInt 3])]))) false)
       (Some sizedField)
     = Ok (be 2 (len [1; 2; 3]) ++ [1; 2; 3]).
Proof.
  split; [|split].
  - apply (@sized_field_encoding plain 2 blob false sizedField); reflexivity.
  - apply (@sized_field_encoding plain 2 blob true sizedField); reflexivity.
  - apply (@sized_field_encoding plain 2 blob false sizedField eq_refl eq_refl eq_refl).
    + reflexivity.
    + vm_compute. reflexivity.
Defined.

(** *** Nil pointers *)


Lemma marshalFields_addr (rec : marshaller) (ctx : muContext) (T : type) (D : data)
  (a1 a2 : bool) (fs : list (string * string * type)) :
  addrBlind rec ->
  forallb (fun f => match f with (_, _, ft) => customFree ft end) fs = true ->
  forall ds,
    marshalFields rec ctx (mkValue T D a1) fs ds = marshalFields rec ctx (mkValue T D a2) fs ds.
Proof.
  intros Hrec. induction fs as [|[[n tag] ft] fs IH]; intros Hfs ds; [reflexivity|].
  simpl in Hfs. apply andb_true_iff in Hfs as [Hft Hfs].
  destruct ds as [|d ds]; [reflexivity|]. cbn [marshalFields vaddr].
  unfold beginStructFieldCtx. cbn [vtype vdata].
  rewrite (Hrec ft d a1 a2 _ Hft), (IH Hfs ds). reflexivity.
Qed.

Lemma marshalElems_addr (rec : marshaller) (ctx : muContext) (T : type) (D : data)
  (a1 a2 : bool) (ds : list data) :
  marshalElems rec ctx (mkValue T D a1) ds = marshalElems rec ctx (mkValue T D a2) ds.
Proof.
  induction ds as [|d ds IH]; [reflexivity|].
  cbn [marshalElems]. rewrite IH. reflexivity.
Qed.

Lemma lookupAlt_customFree (alts : list (Z * option type)) (sel : Z) (t : type) :
  forallb (fun a => match a with (_, Some ft) => customFree ft | (_, None) => true end) alts = true ->
  lookupAlt alts sel = Ok (Some t) -> customFree t = true.
Proof.
  induction alts as [|[k o] alts IH]; simpl; [discriminate|].
  intros Hall Hsel. apply andb_true_iff in Hall as [Ho Hall].
  destruct (k =? sel).
  - injection Hsel as ->. exact Ho.
  - apply IH; assumption.
Qed.

Lemma marshalUnion_addr `{Reflection} (rec : marshaller) (ctx : muContext)
  (f0 : option type) (alts : list (Z * option type)) (D : data) (a1 a2 : bool) :
  addrBlind rec ->
  customFree (Union f0 alts) = true ->
  marshalUnion rec (mkValue (Union f0 alts) D a1) ctx
  = marshalUnion rec (mkValue (Union f0 alts) D a2) ctx.
Proof.
  intros Hrec Hfree. simpl in Hfree. apply andb_true_iff in Hfree as [Hf0 Halts].
  unfold marshalUnion. destruct (container ctx) as [c|]; [|reflexivity].
  destruct (negb (isValidUnionContainer (fst c))); [reflexivity|].
  destruct (String.eqb (selector (options ctx)) ""); [reflexivity|].
  destruct (FieldByName c (selector (options ctx))) as [[st sd]|]; [|reflexivity].
  cbn [vtype vdata vaddr]. unfold Select.
  destruct sd as [sel| | | | | |]; try reflexivity.
  destruct (lookupAlt alts sel) as [[selectedType|]|e] eqn:Hsel; try reflexivity.
  cbn [bind].
  destruct D as [| | |[|f [|]]| | |]; try reflexivity.
  unfold beginUnionDataCtx. cbn [vtype vdata].
  destruct f0 as [ft|].
  - cbn [vtype vdata].
    destruct (type_eqb ft selectedType); [|reflexivity].
    apply Hrec. exact Hf0.
  - destruct f as [| | | | |[[t x]|]|]; reflexivity.
Qed.

Lemma marshalValue_addr `{Reflection} (fuel : nat) : addrBlind (marshalValue fuel).
Proof.
  induction fuel as [|fuel IH]; intros t d a1 a2 ctx Hfree; [reflexivity|].
  cbn [marshalValue vtype vdata vaddr].
  rewrite (customFree_hasCustom t Hfree).
  destruct (sized (options (enter ctx))).
  - unfold marshalSized. cbn [vtype vdata]. unfold IsNil. cbn [vdata].
    destruct (negb (isPtr t)); [reflexivity|].
    destruct (negb (isStruct (Elem t))); [reflexivity|].
    destruct d as [| |[|]| | | |]; try reflexivity;
      rewrite (IH t _ a1 a2 _ Hfree); reflexivity.
  - destruct t as [s n| |e|fs|f0 alts|e| |id u| |]; cbn [kindOf]; try reflexivity.
    + unfold marshalStruct. cbn [vtype vdata isUnion].
      destruct d as [| | |ds| | |]; try reflexivity.
      apply marshalFields_addr; [exact IH | exact Hfree].
    + unfold marshalStruct. cbn [vtype isUnion].
      apply marshalUnion_addr; [exact IH | exact Hfree].
    + unfold marshalSlice, elems. cbn [vtype vdata].
      destruct d as [| | | |[ds|]| |]; try reflexivity.
      cbn [bind]. rewrite (marshalElems_addr _ _ (Slice e) (VSlice (Some ds)) a1 a2).
      reflexivity.
    + discriminate.
Qed.

(** C10 (as amended). For every pointer that is not marked sized and whose
    pointed-to type has no custom marshaller in any of its parts,
    marshalling a nil pointer gives exactly the result of marshalling a
    freshly allocated zero value of the pointed-to type; and for every
    pointer to a type with a custom marshaller, whatever the options of the
    field, marshalling a nil pointer is refused with the error "cannot
    marshal nil pointer type with custom marshaller". *)
Theorem nil_pointer_marshals_as_zero `{Reflection} (fuel : nat) (t : type) (a : bool)
  (ctx : option muContext) :
  (customFree t = true ->
   sized (options (enter ctx)) = false ->
   marshalValue fuel (mkValue (Ptr t) (VPtr None) a) ctx
   = marshalValue fuel (mkValue (Ptr t) (VPtr (Some (Zero t))) a) ctx)
  /\ (hasCustomMarshallerImpl (Ptr t) = true ->
      marshalValue (S fuel) (mkValue (Ptr t) (VPtr None) a) ctx = Err NilPointerCustom).
Proof.
  split.
  - intros Hfree Hsized. destruct fuel as [|fuel]; [reflexivity|].
    cbn [marshalValue vtype vdata].
    assert (Hptr : hasCustomMarshallerImpl (Ptr t) = false)
      by (apply customFree_hasCustom; exact Hfree).
    rewrite Hptr, Hsized. cbn [kindOf]. unfold marshalPtr. cbn [vdata vtype Elem].
    apply marshalValue_addr. exact Hfree.
  - intros Hcustom. cbn [marshalValue vtype vdata vaddr].
    rewrite Hcustom. reflexivity.
Qed.

(** C10, as stated, fails where a custom marshaller is involved: a nil
    pointer to a type with a custom marshaller is an error while the zero
    value is marshalled, and so is a nil pointer to a structure with such a
    member (the zero value it stands for is not addressable). *)
Lemma nil_pointer_counterexample :
  @MarshalToBytes counted 3 [(Ptr selectionData, VPtr None)] = Err NilPointerCustom
  /\ @MarshalToBytes counted 3 [(Ptr selectionData, VPtr (Some (Zero selectionData)))] = Ok [0]
  /\ @MarshalToBytes counted 3 [(Ptr selection, VPtr None)] = Err NonAddressableCustom
  /\ @MarshalToBytes counted 3 [(Ptr selection, VPtr (Some (Zero selection)))] = Ok [0; 0; 0].
Proof. repeat split; reflexivity. Qed.

(** A nil pointer to the wrapper of a sized field, and a nil pointer to a
    type with a custom marshaller, at the top level. *)
Lemma nil_pointer_marshals_as_zero_witness :
  @MarshalToBytes plain 4 [(Ptr blobSized, VPtr None)]
  = @MarshalToBytes plain 4 [(Ptr blobSized, VPtr (Some (Zero blobSized)))]
  /\ @MarshalToBytes counted 3 [(Ptr selectionData, VPtr None)] = Err NilPointerCustom.
Proof.
  unfold MarshalToBytes, MarshalToWriter, ValueOf. cbn [fst snd]. split.
  - rewrite (proj1 (@nil_pointer_marshals_as_zero plain 4 blobSized false None)
                   eq_refl eq_refl).
    reflexivity.
  - rewrite (proj2 (@nil_pointer_marshals_as_zero counted 2 selectionData false None)
                   eq_refl).
    reflexivity.
Defined.

(** *** Top-level unmarshalling *)


Ltac bind_inv H :=
  match type of H with
  | bind ?c _ = Ok _ =>
    let E := fresh "E" in
    destruct c as [[? ?]|?] eqn:E; cbn [bind fst snd] in H; [|discriminate H]
  end.

Ltac ok_inv H := injection H as <- <-.

Lemma readN_app (n : nat) (buf bs rest : list Z) :
  readN n buf = Some (bs, rest) -> buf = bs ++ rest.
Proof.
  unfold readN. destruct (length buf <? n)%nat; [discriminate|].
  intros [= <- <-]. symmetry. apply firstn_skipn.
Qed.

Lemma binaryRead_consumes (buf : list Z) (v : Value) (d : data) (rest : list Z) :
  binaryRead buf v = Ok (d, rest) -> exists used, buf = used ++ rest.
Proof.
  unfold binaryRead. destruct (kindOf (vtype v)); try discriminate.
  - destruct (readN size buf) as [[bs r]|] eqn:E; [|discriminate].
    intros [= <- <-]. exists bs. eapply readN_app; eassumption.
  - destruct (readN 1 buf) as [[bs r]|] eqn:E; [|discriminate].
    intros [= <- <-]. exists bs. eapply readN_app; eassumption.
Qed.

Lemma unmarshalSized_consumes (rec : unmarshaller) :
  consumes rec ->
  forall buf s ctx d rest,
    unmarshalSized rec buf s ctx = Ok (d, rest) -> exists used, buf = used ++ rest.
Proof.
  intros Hrec buf s ctx d rest. unfold unmarshalSized.
  destruct (negb (isPtr (vtype s))); [discriminate|].
  destruct (negb (isStruct (Elem (vtype s)))); [discriminate|].
  destruct (readN 2 buf) as [[bs buf']|] eqn:Hread; [|discriminate].
  apply readN_app in Hread. subst buf.
  destruct ((decode_be bs =? 0) && negb (IsNil s)); [discriminate|].
  destruct (decode_be bs =? 0).
  { intros [= <- <-]. exists bs. reflexivity. }
  destruct (IsNil s && negb (vaddr s)); [discriminate|].
  intros Hb. bind_inv Hb. ok_inv Hb.
  apply Hrec in E as [used Hused].
  exists (bs ++ used).
  rewrite <- (firstn_skipn (Z.to_nat (decode_be bs)) buf') at 1.
  rewrite Hused, <- !app_assoc. reflexivity.
Qed.

Lemma unmarshalPtr_consumes (rec : unmarshaller) :
  consumes rec ->
  forall buf p ctx d rest,
    unmarshalPtr rec buf p ctx = Ok (d, rest) -> exists used, buf = used ++ rest.
Proof.
  intros Hrec buf p ctx d rest. unfold unmarshalPtr.
  destruct (vdata p) as [| |[x|]| | | |]; try discriminate.
  - intros Hb. bind_inv Hb. ok_inv Hb. eapply Hrec; eassumption.
  - destruct (negb (vaddr p)); [discriminate|].
    intros Hb. bind_inv Hb. ok_inv Hb. eapply Hrec; eassumption.
Qed.

Lemma unmarshalUnion_consumes (rec : unmarshaller) :
  consumes rec ->
  forall buf u ctx d rest,
    unmarshalUnion rec buf u ctx = Ok (d, rest) -> exists used, buf = used ++ rest.
Proof.
  intros Hrec buf u ctx d rest. unfold unmarshalUnion.
  destruct (container ctx) as [c|]; [|discriminate].
  destruct (negb (isValidUnionContainer (fst c))); [discriminate|].
  destruct (String.eqb (selector (options ctx)) ""); [discriminate|].
  destruct (FieldByName c (selector (options ctx))) as [sv|]; [|discriminate].
  destruct (Select (vtype u) sv) as [[selectedType|]|e]; cbn [bind]; try discriminate.
  - repeat (first [ discriminate
                  | match goal with
                    | |- match ?x with _ => _ end = _ -> _ => destruct x
                    end ]);
      intros Hb; bind_inv Hb; ok_inv Hb; eapply Hrec; eassumption.
  - intros [= <- <-]. exists []. reflexivity.
Qed.

Lemma unmarshalFields_consumes (rec : unmarshaller) (ctx : muContext) (s : Value) :
  consumes rec ->
  forall fs decoded ds buf ds' rest,
    unmarshalFields rec ctx s decoded fs ds buf = Ok (ds', rest) ->
    exists used, buf = used ++ rest.
Proof.
  intros Hrec. induction fs as [|[[n tag] ft] fs IH]; intros decoded ds buf ds' rest.
  - destruct ds; [|discriminate]. intros [= <- <-]. exists []. reflexivity.
  - destruct ds as [|d ds]; [discriminate|]. cbn [unmarshalFields].
    intros Hb. bind_inv Hb. bind_inv Hb. ok_inv Hb.
    apply Hrec in E as [u1 ->]. apply IH in E0 as [u2 ->].
    exists (u1 ++ u2). rewrite app_assoc. reflexivity.
Qed.

Lemma unmarshalElems_consumes (rec : unmarshaller) (ctx : muContext) (s : Value) :
  consumes rec ->
  forall ds buf ds' rest,
    unmarshalElems rec ctx s ds buf = Ok (ds', rest) -> exists used, buf = used ++ rest.
Proof.
  intros Hrec. induction ds as [|d ds IH]; intros buf ds' rest.
  - intros [= <- <-]. exists []. reflexivity.
  - cbn [unmarshalElems].
    intros Hb. bind_inv Hb. bind_inv Hb. ok_inv Hb.
    apply Hrec in E as [u1 ->]. apply IH in E0 as [u2 ->].
    exists (u1 ++ u2). rewrite app_assoc. reflexivity.
Qed.

Lemma unmarshalStruct_consumes (rec : unmarshaller) :
  consumes rec ->
  forall buf s ctx d rest,
    unmarshalStruct rec buf s ctx = Ok (d, rest) -> exists used, buf = used ++ rest.
Proof.
  intros Hrec buf s ctx d rest. unfold unmarshalStruct.
  destruct (isUnion (vtype s)).
  - apply unmarshalUnion_consumes. exact Hrec.
  - destruct (vtype s); try discriminate. destruct (vdata s); try discriminate.
    intros Hb. bind_inv Hb. ok_inv Hb.
    eapply unmarshalFields_consumes; eassumption.
Qed.

Lemma unmarshalSlice_consumes (rec : unmarshaller) :
  consumes rec ->
  forall buf s ctx d rest,
    unmarshalSlice rec buf s ctx = Ok (d, rest) -> exists used, buf = used ++ rest.
Proof.
  intros Hrec buf s ctx d rest. unfold unmarshalSlice.
  assert (Hgen : forall (t : type) (isnil : bool) (ds : option (list data)),
    (do lb <-
       (if raw (options ctx) then if isnil then Err NilRawSlice else Ok (0, buf)
        else if isSizedBuffer t then
          match readN 2 buf with
          | Some (bs, rest) => Ok (decode_be bs, rest)
          | None => Err ReadFailed
          end
        else
          match readN 4 buf with
          | Some (bs, rest) => Ok (decode_be bs, rest)
          | None => Err ReadFailed
          end);
     do ds0 <-
       match ds with
       | None => if negb (vaddr s) then Err CannotSetSlice
                 else Ok (repeat (Zero (Elem t)) (Z.to_nat (fst lb)))
       | Some ds => Ok ds
       end;
     do r <- unmarshalElems rec ctx (mkValue t (VSlice (Some ds0)) (vaddr s)) ds0 (snd lb);
     Ok (VSlice (Some (fst r)), snd r)) = Ok (d, rest) ->
    exists used, buf = used ++ rest).
  { intros t isnil ds Hb.
    destruct (if raw (options ctx) then _ else _) as [[l buf']|e] eqn:Hlb;
      cbn [bind fst snd] in Hb; [|discriminate].
    assert (Hpre : exists u0, buf = u0 ++ buf').
    { destruct (raw (options ctx)).
      - destruct isnil; [discriminate|]. injection Hlb as <- <-. exists []. reflexivity.
      - destruct (isSizedBuffer t).
        + destruct (readN 2 buf) as [[bs r]|] eqn:Hr; [|discriminate].
          injection Hlb as <- <-. exists bs. eapply readN_app; eassumption.
        + destruct (readN 4 buf) as [[bs r]|] eqn:Hr; [|discriminate].
          injection Hlb as <- <-. exists bs. eapply readN_app; eassumption. }
    destruct Hpre as [u0 ->].
    destruct (match ds with None => _ | Some _ => _ end) as [ds0|e]; cbn [bind] in Hb;
      [|discriminate].
    bind_inv Hb. ok_inv Hb.
    eapply unmarshalElems_consumes in E as [u1 ->]; [|exact Hrec].
    exists (u0 ++ u1). rewrite app_assoc. reflexivity. }
  destruct (vtype s); destruct (vdata s) as [| | | |[ds|]| |]; try discriminate;
    try (apply (Hgen _ _ (Some ds))); try (apply (Hgen _ _ None)).
  destruct (readN (length ds) buf) as [[bs r]|] eqn:Hr; [|discriminate].
  intros [= <- <-]. exists bs. eapply readN_app; eassumption.
Qed.

Lemma unmarshalValue_consumes `{Reflection} (fuel : nat) :
  readersConsume -> consumes (unmarshalValue fuel).
Proof.
  intros Hcustom. induction fuel as [|fuel IH]; intros buf v ctx d rest; [discriminate|].
  cbn [unmarshalValue].
  destruct (hasCustomMarshallerImpl (vtype v)).
  - destruct (negb (isPtr (vtype v)) && negb (vaddr v)); [discriminate|].
    destruct (negb (isPtr (vtype v))).
    + apply Hcustom.
    + destruct (vdata v) as [| |[x|]| | | |]; try discriminate.
      * intros Hb. bind_inv Hb. ok_inv Hb. eapply Hcustom; eassumption.
      * destruct (negb (vaddr v)); [discriminate|].
        intros Hb. bind_inv Hb. ok_inv Hb. eapply Hcustom; eassumption.
  - destruct (sized (options (enter ctx))).
    + apply unmarshalSized_consumes. exact IH.
    + destruct (kindOf (vtype v)).
      * destruct (negb (vaddr v)); [discriminate|]. apply binaryRead_consumes.
      * destruct (negb (vaddr v)); [discriminate|]. apply binaryRead_consumes.
      * apply unmarshalPtr_consumes. exact IH.
      * apply unmarshalStruct_consumes. exact IH.
      * apply unmarshalSlice_consumes. exact IH.
      * discriminate.
      * destruct (negb (vaddr v)); [discriminate|]. apply binaryRead_consumes.
Qed.

Lemma UnmarshalFromReader_consumes `{Reflection} (fuel : nat) :
  readersConsume ->
  forall vals buf vals' rest,
    UnmarshalFromReader fuel buf vals = Ok (vals', rest) -> exists used, buf = used ++ rest.
Proof.
  intros Hcustom. induction vals as [|[t x] vals IH]; intros buf vals' rest.
  - intros [= <- <-]. exists []. reflexivity.
  - cbn [UnmarshalFromReader ValueOf fst snd vtype vdata].
    destruct (negb (isPtr t)); [discriminate|].
    destruct x as [| |[x|]| | | |]; try discriminate.
    intros Hb. bind_inv Hb. bind_inv Hb. ok_inv Hb.
    apply (unmarshalValue_consumes fuel Hcustom) in E as [u1 ->].
    apply IH in E0 as [u2 ->].
    exists (u1 ++ u2). rewrite app_assoc. reflexivity.
Qed.

(** C4 (as amended). [UnmarshalFromBytes] has no trailing-bytes error: when
    all destinations have been decoded it returns a nil error and the
    number of bytes consumed, which leaves exactly the input that remains
    and is smaller than the length of the input when bytes remain; a caller
    that wants to refuse trailing bytes compares the two. *)
Theorem UnmarshalFromBytes_returns_consumed `{Reflection} (fuel : nat) (b : list Z)
  (vals vals' : list (type * data)) (rest : list Z) :
  readersConsume ->
  UnmarshalFromReader fuel b vals = Ok (vals', rest) ->
  UnmarshalFromBytes fuel b vals = (len b - len rest, None, vals')
  /\ skipn (Z.to_nat (len b - len rest)) b = rest
  /\ (rest <> [] -> len b - len rest < len b).
Proof.
  intros Hcustom Hread. unfold UnmarshalFromBytes. rewrite Hread.
  destruct (UnmarshalFromReader_consumes fuel Hcustom _ _ _ _ Hread) as [used ->].
  assert (Hlen : len (used ++ rest) - len rest = len used)
    by (unfold len; rewrite length_app; lia).
  repeat split.
  - rewrite Hlen. unfold len. rewrite Nat2Z.id.
    rewrite skipn_app, skipn_all, Nat.sub_diag. reflexivity.
  - intros Hne. rewrite Hlen. unfold len. rewrite length_app.
    destruct rest; [congruence|]. simpl. lia.
Qed.

Lemma plain_readersConsume : @readersConsume plain.
Proof. intros id d buf d' rest H. discriminate H. Qed.

(** C4, as stated, fails: one byte decoded from two, and no error. *)
Lemma UnmarshalFromBytes_trailing_counterexample :
  @UnmarshalFromBytes plain 2 [0x2a; 0xff] [(Ptr uint8, VPtr (Some (VInt 0)))]
  = (1, None, [(Ptr uint8, VPtr (Some (VInt 0x2a)))]).
Proof. reflexivity. Qed.

(** Two bytes decoded from three. *)
Lemma UnmarshalFromBytes_returns_consumed_witness :
  @UnmarshalFromBytes plain 2 [0x01; 0x02; 0x03] [(Ptr uint16, VPtr (Some (VInt 0)))]
  = (len [0x01; 0x02; 0x03] - len [0x03], None, [(Ptr uint16, VPtr (Some (VInt 0x0102)))])
  /\ skipn (Z.to_nat (len [0x01; 0x02; 0x03] - len [0x03])) [0x01; 0x02; 0x03] = [0x03]
  /\ ([0x03] <> [] -> len [0x01; 0x02; 0x03] - len [0x03] < len [0x01; 0x02; 0x03]).
Proof.
  apply (@UnmarshalFromBytes_returns_consumed plain 2 [0x01; 0x02; 0x03]
           [(Ptr uint16, VPtr (Some (VInt 0)))]).
  - exact plain_readersConsume.
  - reflexivity.
Defined.

(** A union is decoded into the alternative of the selector that has just
    been read into the structure, and marshalled from it. *)
Lemma UnmarshalFromBytes_selects_decoded :
  @UnmarshalFromBytes plain 4 [2; 0x01; 0x02; 0xff] [(Ptr keyed, VPtr (Some (Zero keyed)))]
  = (3, None,
     [(Ptr keyed,
       VPtr (Some (VStruct [VInt 2; VStruct [VIface (Some (uint16, VInt 0x0102))]])))])
  /\ @MarshalToBytes plain 4
       [(keyed, VStruct [VInt 2; VStruct [VIface (Some (uint16, VInt 0x0102))]])]
     = Ok [2; 0x01; 0x02].
Proof. split; reflexivity. Qed.

(** ** Handle contexts *)

Import Resources.

(** *** The primitives of the wire form *)

Lemma length_be (n : nat) (v : Z) : length (be n v) = n.
Proof. induction n as [|n IH]; simpl; [reflexivity | rewrite IH; reflexivity]. Qed.

Lemma fold_be (n : nat) (v acc : Z) :
  fold_left (fun acc b => acc * 256 + b) (be n v) acc
  = acc * 2 ^ (8 * Z.of_nat n) + v mod 2 ^ (8 * Z.of_nat n).
Proof.
  revert acc. induction n as [|n IH]; intros acc.
  - simpl. rewrite Z.mod_1_r. lia.
  - cbn [be fold_left]. rewrite IH.
    replace (8 * Z.of_nat (S n)) with (8 * Z.of_nat n + 8) by lia.
    rewrite Z.pow_add_r by lia.
    assert (Hp : 0 < 2 ^ (8 * Z.of_nat n)) by (apply Z.pow_pos_nonneg; lia).
    change (2 ^ 8) with 256.
    rewrite (Z.rem_mul_r v (2 ^ (8 * Z.of_nat n)) 256) by lia.
    ring.
Qed.

Lemma decode_be_be (n : nat) (v : Z) :
  0 <= v < 2 ^ (8 * Z.of_nat n) -> decode_be (be n v) = v.
Proof.
  intros Hv. unfold decode_be. rewrite fold_be. rewrite Z.mod_small by lia. lia.
Qed.

Lemma readN_exact (n : nat) (bs rest : list Z) :
  length bs = n -> readN n (bs ++ rest) = Some (bs, rest).
Proof.
  intros Hn. unfold readN.
  destruct (Nat.ltb_spec (length (bs ++ rest)) n) as [Hlt|_].
  - rewrite length_app in Hlt. lia.
  - rewrite <- Hn, firstn_app, skipn_app, Nat.sub_diag, firstn_all, skipn_all.
    simpl. rewrite app_nil_r. reflexivity.
Qed.

Lemma readU_be (n : nat) (v : Z) (rest : list Z) :
  0 <= v < 2 ^ (8 * Z.of_nat n) -> readU n (be n v ++ rest) = Ok (v, rest).
Proof.
  intros Hv. unfold readU. rewrite readN_exact by apply length_be.
  rewrite decode_be_be by exact Hv. reflexivity.
Qed.

Lemma readBool_boolByte (b : bool) (rest : list Z) :
  readBool (boolByte b ++ rest) = Ok (b, rest).
Proof. destruct b; reflexivity. Qed.

Lemma readSized_sizedBuffer (b rest : list Z) :
  len b < 2 ^ 16 -> readSized (sizedBuffer b ++ rest) = Ok (b, rest).
Proof.
  intros Hb. unfold readSized, sizedBuffer, wrap16.
  assert (0 <= len b) by (unfold len; lia).
  rewrite Z.mod_small by lia. rewrite <- app_assoc.
  rewrite readU_be by (simpl; lia). cbn [bind fst snd].
  rewrite readN_exact by (unfold len; rewrite Nat2Z.id; reflexivity).
  reflexivity.
Qed.

Lemma bytesEqual_eq (a b : list Z) : bytesEqual a b = true <-> a = b.
Proof.
  revert b. induction a as [|x a IH]; intros [|y b]; simpl; split; try congruence.
  - intros Hxy. apply andb_true_iff in Hxy as [Hx Hab].
    apply Z.eqb_eq in Hx. apply IH in Hab. congruence.
  - intros [= -> ->]. rewrite Z.eqb_refl. simpl. apply IH. reflexivity.
Qed.

Lemma bytesEqual_refl (a : list Z) : bytesEqual a a = true.
Proof. apply bytesEqual_eq. reflexivity. Qed.

(** *** Consistency of session data *)

Lemma checkSessionData_invariant `{Platform} (d : sessionContextData) :
  checkSessionData d = Consistent -> sessionInvariant d.
Proof.
  unfold checkSessionData, sessionInvariant.
  destruct (negb (IsAudit d) && IsExclusive d) eqn:Haudit; [discriminate|].
  destruct (negb (Supported (HashAlg d))); [discriminate|].
  destruct (negb ((SessionType d =? SessionTypeHMAC) || _ || _)); [discriminate|].
  destruct (PolicyHMACType d >? policyHMACTypeMax); [discriminate|].
  destruct ((IsBound d && (len (BoundEntity d) =? 0))
            || (negb (IsBound d) && (len (BoundEntity d) >? 0))) eqn:Hbound; [discriminate|].
  destruct (negb (len (SessionKey d) =? Size (HashAlg d))
            && negb (len (SessionKey d) =? 0)) eqn:Hkey; [discriminate|].
  destruct (negb (len (NonceCaller d) =? Size (HashAlg d))
            || negb (len (NonceTPM d) =? Size (HashAlg d))) eqn:Hnonce; [discriminate|].
  intros _.
  apply orb_false_iff in Hnonce as [Hnc Hnt].
  apply negb_false_iff, Z.eqb_eq in Hnc. apply negb_false_iff, Z.eqb_eq in Hnt.
  apply orb_false_iff in Hbound as [Hb1 Hb2].
  repeat split.
  - intros Hex. rewrite Hex in Haudit. destruct (IsAudit d); [reflexivity | discriminate].
  - exact Hnc.
  - exact Hnt.
  - apply andb_false_iff in Hkey as [Hk|Hk]; apply negb_false_iff, Z.eqb_eq in Hk; auto.
  - intros Hne. destruct (IsBound d); [reflexivity|]. simpl in Hb2.
    rewrite Z.gtb_ltb in Hb2. apply Z.ltb_ge in Hb2. unfold len in Hb2.
    destruct (BoundEntity d); [congruence | simpl in Hb2; lia].
  - intros Hb Hnil. rewrite Hb, Hnil in Hb1. discriminate.
Qed.

Lemma checkConsistency_session `{Platform} (h : handleContext) :
  checkConsistency h = Consistent ->
  Type' h = handleContextTypeSession ->
  exists u, Data h = Some u
            /\ match Session u with Some d => checkSessionData d = Consistent | None => True end.
Proof.
  unfold checkConsistency. intros Hc Hty. rewrite Hty in Hc. cbn in Hc.
  destruct (negb _); [discriminate|].
  destruct (negb (IsHandle (N h)) || _); [discriminate|].
  destruct (Data h) as [u|]; [|discriminate].
  exists u. split; [reflexivity|].
  destruct (Session u); [exact Hc | exact I].
Qed.

Lemma len_nil_iff (l : list Z) : len l <= 0 <-> l = [].
Proof.
  unfold len. destruct l; simpl; split; intros; try reflexivity; try lia; discriminate.
Qed.

Lemma unmarshalHandleContext_session `{Platform} (b : list Z) (data : handleContext)
  (rest : list Z) :
  unmarshalHandleContext b = Ok (data, rest) ->
  Type' data = handleContextTypeSession ->
  exists d, Data data = Some (mkU None None (Some d)).
Proof.
  unfold unmarshalHandleContext. intros Hu Hty.
  destruct (readU 1 b) as [[ty b1]|]; cbn [bind fst snd] in Hu; [|discriminate].
  destruct (readU 4 b1) as [[hh b2]|]; cbn [bind fst snd] in Hu; [|discriminate].
  destruct (readSized b2) as [[n b3]|]; cbn [bind fst snd] in Hu; [|discriminate].
  destruct ((ty =? handleContextTypeDummy) || (ty =? handleContextTypePermanent)) eqn:E0.
  { injection Hu as <- <-. cbn in Hty. subst ty. discriminate. }
  destruct (ty =? handleContextTypeObject) eqn:E1.
  { destruct (unmarshalPublic b3) as [[p b4]|]; cbn [bind fst snd] in Hu; [|discriminate].
    injection Hu as <- <-. cbn in Hty. subst ty. discriminate. }
  destruct (ty =? handleContextTypeNvIndex) eqn:E2.
  { destruct (unmarshalNVPublic b3) as [[p b4]|]; cbn [bind fst snd] in Hu; [|discriminate].
    injection Hu as <- <-. cbn in Hty. subst ty. discriminate. }
  destruct (ty =? handleContextTypeSession) eqn:E3; [|discriminate].
  destruct (unmarshalSessionData b3) as [[d b4]|]; cbn [bind fst snd] in Hu; [|discriminate].
  injection Hu as <- <-. exists d. reflexivity.
Qed.

(** What a successful restore went through. *)
Lemma restore_inv `{Platform} (r : list Z) (c : HandleContext) (rest : list Z) :
  CreateHandleContextFromReader r = Ok (c, rest) ->
  exists alg integrity b data,
    unpack r = Ok (alg, integrity, b, rest)
    /\ Supported alg = true
    /\ hashSum alg b = integrity
    /\ unmarshalHandleContext b = Ok (data, [])
    /\ Type' data <> handleContextTypePermanent
    /\ checkConsistency data = Consistent
    /\ (c = objectContext (mkResourceContext data [])
          /\ Type' data = handleContextTypeObject
        \/ c = nvIndexContext (mkResourceContext data [])
          /\ Type' data = handleContextTypeNvIndex
        \/ c = sessionContext data 0
          /\ Type' data = handleContextTypeSession).
Proof.
  unfold CreateHandleContextFromReader. intros Hr.
  destruct (unpack r) as [[[[alg integrity] b] rest']|]; [|discriminate].
  destruct (Supported alg) eqn:Hsup; [|discriminate]. cbn [negb] in Hr.
  destruct (bytesEqual (hashSum alg b) integrity) eqn:Hsum; [|discriminate]. cbn [negb] in Hr.
  apply bytesEqual_eq in Hsum.
  destruct (unmarshalHandleContext b) as [[data buf]|] eqn:Hun; [|discriminate].
  destruct (len b - len buf <? len b) eqn:Hn; [discriminate|].
  apply Z.ltb_ge in Hn.
  assert (Hbuf : buf = []) by (apply len_nil_iff; lia). subst buf.
  destruct (Type' data =? handleContextTypePermanent) eqn:Hperm; [discriminate|].
  apply Z.eqb_neq in Hperm.
  destruct (checkConsistency data) eqn:Hcheck; try discriminate.
  exists alg, integrity, b, data.
  destruct (Type' data =? handleContextTypeObject) eqn:E1;
    [|destruct (Type' data =? handleContextTypeNvIndex) eqn:E2;
      [|destruct (Type' data =? handleContextTypeSession) eqn:E3; [|discriminate]]];
    injection Hr as <- <-;
    repeat (split; [first [reflexivity | assumption]|]);
    [left | right; left | right; right]; split; try reflexivity;
    apply Z.eqb_eq; assumption.
Qed.

(** C7. Every session context that [checkConsistency] accepts, and hence
    every session context that a restore returns, satisfies all of these
    (on the session data it carries): the exclusive flag implies the audit
    flag; the caller nonce and the TPM nonce are as long as the digest of
    the hash algorithm; the session key is that long or empty; and the name
    of the bound entity is non-empty exactly when the bound flag is set. A
    restored session context always carries session data. *)
Theorem session_invariants `{Platform} (h : handleContext) (r : list Z)
  (h' : handleContext) (attrs : Z) (rest : list Z) :
  (checkConsistency h = Consistent ->
   Type' h = handleContextTypeSession ->
   forall u d, Data h = Some u -> Session u = Some d -> sessionInvariant d)
  /\ (CreateHandleContextFromReader r = Ok (sessionContext h' attrs, rest) ->
      exists u d, Data h' = Some u /\ Session u = Some d /\ sessionInvariant d).
Proof.
  split.
  - intros Hc Hty u d Hu Hd.
    destruct (checkConsistency_session h Hc Hty) as (u' & Hu' & Hs).
    rewrite Hu in Hu'. injection Hu' as <-. rewrite Hd in Hs.
    apply checkSessionData_invariant. exact Hs.
  - intros Hr.
    destruct (restore_inv r _ _ Hr)
      as (alg & integrity & b & data & _ & _ & _ & Hun & _ & Hc & Hv).
    destruct Hv as [[Hv _]|[[Hv _]|[Hv Hty]]]; try discriminate.
    injection Hv as -> ->.
    destruct (unmarshalHandleContext_session b data [] Hun Hty) as [d Hd].
    exists (mkU None None (Some d)), d.
    split; [exact Hd | split; [reflexivity|]].
    destruct (checkConsistency_session data Hc Hty) as (u' & Hu' & Hs).
    rewrite Hd in Hu'. injection Hu' as <-. cbn in Hs.
    apply checkSessionData_invariant. exact Hs.
Qed.

Lemma unpack_frame (alg : Z) (digest body rest : list Z) :
  0 <= alg < 2 ^ 16 -> len digest < 2 ^ 16 -> len body < 2 ^ 16 ->
  unpack (be 2 alg ++ sizedBuffer digest ++ sizedBuffer body ++ rest)
  = Ok (alg, digest, body, rest).
Proof.
  intros Halg Hd Hb. unfold unpack.
  rewrite readU_be by (simpl; lia). cbn [bind fst snd].
  rewrite readSized_sizedBuffer by exact Hd. cbn [bind fst snd].
  rewrite readSized_sizedBuffer by exact Hb. reflexivity.
Qed.

(** *** Restoring *)

(** C3. [CreateHandleContextFromReader] returns a context only if the
    checksum algorithm is supported, the digest of the body equals the
    digest in the blob, the body unmarshals without trailing bytes, the
    context is not a permanent one and it passes the consistency checks;
    and it returns the corresponding error, and no context, when the
    algorithm is unsupported, when the digests differ (as for a blob of
    [SerializeToBytes] in which a body byte was changed so that the digest
    of the body changes), when bytes trail the marshalled body, for a
    permanent context, and for a body that fails the consistency checks. *)
Theorem restore_refuses `{Platform} (r : list Z) (alg : Z) (integrity b rest : list Z)
  (h : handleContext) (body : list Z) (i : nat) (x : Z) :
  (forall c rest0,
      CreateHandleContextFromReader r = Ok (c, rest0) ->
      exists alg integrity b data,
        unpack r = Ok (alg, integrity, b, rest0)
        /\ Supported alg = true
        /\ hashSum alg b = integrity
        /\ unmarshalHandleContext b = Ok (data, [])
        /\ Type' data <> handleContextTypePermanent
        /\ checkConsistency data = Consistent
        /\ contextOf c = data)
  /\ (unpack r = Ok (alg, integrity, b, rest) ->
      (Supported alg = false ->
       CreateHandleContextFromReader r = Err InvalidChecksumAlgorithm)
      /\ (Supported alg = true -> hashSum alg b <> integrity ->
          CreateHandleContextFromReader r = Err InvalidChecksum)
      /\ (Supported alg = true -> hashSum alg b = integrity ->
          forall data buf,
            unmarshalHandleContext b = Ok (data, buf) ->
            (buf <> [] -> CreateHandleContextFromReader r = Err TrailingBytes)
            /\ (buf = [] -> Type' data = handleContextTypePermanent ->
                CreateHandleContextFromReader r = Err PermanentFromSerialized)
            /\ (buf = [] -> Type' data <> handleContextTypePermanent ->
                forall msg, checkConsistency data = Inconsistent msg ->
                CreateHandleContextFromReader r = Err (InconsistentContext msg))))
  /\ (marshalHandleContext h = Ok body ->
      Supported HashAlgorithmSHA256 = true ->
      0 <= HashAlgorithmSHA256 < 2 ^ 16 ->
      len (hashSum HashAlgorithmSHA256 body) < 2 ^ 16 ->
      len body < 2 ^ 16 ->
      hashSum HashAlgorithmSHA256 (<[i:=x]> body) <> hashSum HashAlgorithmSHA256 body ->
      serialize h = Ok (be 2 HashAlgorithmSHA256
                        ++ sizedBuffer (hashSum HashAlgorithmSHA256 body)
                        ++ sizedBuffer body)
      /\ CreateHandleContextFromReader
           (be 2 HashAlgorithmSHA256 ++ sizedBuffer (hashSum HashAlgorithmSHA256 body)
            ++ sizedBuffer (<[i:=x]> body))
         = Err InvalidChecksum).
Proof.
  split; [|split].
  - intros c rest0 Hr.
    destruct (restore_inv r c rest0 Hr)
      as (alg0 & integrity0 & b0 & data & Hu & Hs & Hh & Hm & Hp & Hc & Hv).
    exists alg0, integrity0, b0, data. repeat (split; [assumption|]).
    destruct Hv as [[-> _]|[[-> _]|[-> _]]]; reflexivity.
  - intros Hu. unfold CreateHandleContextFromReader. rewrite Hu.
    split; [|split].
    + intros ->. reflexivity.
    + intros -> Hne. cbn [negb].
      destruct (bytesEqual (hashSum alg b) integrity) eqn:E; [|reflexivity].
      apply bytesEqual_eq in E. contradiction.
    + intros -> <- data buf Hm. cbn [negb]. rewrite bytesEqual_refl, Hm. cbn [negb].
      split; [|split].
      * intros Hne.
        assert (Hlt : (len b - len buf <? len b) = true).
        { apply Z.ltb_lt. unfold len. destruct buf; [congruence | simpl; lia]. }
        rewrite Hlt. reflexivity.
      * intros -> Hty. replace (len b - len [] <? len b) with false
          by (symmetry; apply Z.ltb_ge; unfold len; simpl; lia).
        rewrite Hty. reflexivity.
      * intros -> Hty msg Hc. replace (len b - len [] <? len b) with false
          by (symmetry; apply Z.ltb_ge; unfold len; simpl; lia).
        apply Z.eqb_neq in Hty. rewrite Hty, Hc. reflexivity.
  - intros Hm Hsup Halg Hdig Hlen Hne. split.
    + unfold serialize. rewrite Hm. reflexivity.
    + unfold CreateHandleContextFromReader.
      rewrite <- (app_nil_r (sizedBuffer (<[i:=x]> body))).
      rewrite unpack_frame; try assumption.
      * rewrite Hsup. cbn [negb].
        destruct (bytesEqual _ _) eqn:E; [|reflexivity].
        apply bytesEqual_eq in E. contradiction.
      * unfold len. rewrite length_insert. exact Hlen.
Qed.

Lemma unmarshalNVPublic_marshal (p : NVPublic) (rest : list Z) :
  wellTypedNV p -> unmarshalNVPublic (marshalNVPublic p ++ rest) = Ok (p, rest).
Proof.
  intros (Hi & Ha & Ht & Hp & Hs). unfold unmarshalNVPublic, marshalNVPublic.
  repeat rewrite <- app_assoc.
  rewrite readU_be by (simpl; lia). cbn [bind fst snd].
  rewrite readU_be by (simpl; lia). cbn [bind fst snd].
  rewrite readU_be by (simpl; lia). cbn [bind fst snd].
  rewrite readSized_sizedBuffer by exact Hp. cbn [bind fst snd].
  rewrite readU_be by (simpl; lia). cbn [bind fst snd].
  destruct p; reflexivity.
Qed.

Lemma unmarshalSessionData_marshal `{Platform} (d : sessionContextData) (s : SymDef)
  (m : list Z) :
  wellTypedSession d ->
  Symmetric d = Some s ->
  marshalSymDef (Some s) = Ok m ->
  unmarshalSymDef m = Ok (s, []) ->
  exists body, marshalSessionData (Some d) = Ok body
               /\ unmarshalSessionData body = Ok (d, []).
Proof.
  intros (Ha & Ht & Hp & Hb & Hk & Hc & Hn) Hsym Hm Hu.
  unfold marshalSessionData. rewrite Hsym, Hm. cbn [bind].
  eexists. split; [reflexivity|].
  unfold unmarshalSessionData.
  rewrite readBool_boolByte. cbn [bind fst snd].
  rewrite readBool_boolByte. cbn [bind fst snd].
  rewrite readU_be by (simpl; lia). cbn [bind fst snd].
  rewrite readU_be by (simpl; lia). cbn [bind fst snd].
  rewrite readU_be by (simpl; lia). cbn [bind fst snd].
  rewrite readBool_boolByte. cbn [bind fst snd].
  rewrite readSized_sizedBuffer by exact Hb. cbn [bind fst snd].
  rewrite readSized_sizedBuffer by exact Hk. cbn [bind fst snd].
  rewrite readSized_sizedBuffer by exact Hc. cbn [bind fst snd].
  rewrite readSized_sizedBuffer by exact Hn. cbn [bind fst snd].
  rewrite Hu. cbn [bind fst snd]. rewrite <- Hsym. destruct d; reflexivity.
Qed.

Lemma checkConsistency_ext `{Platform} (h1 h2 : handleContext) :
  Type' h1 = Type' h2 -> H h1 = H h2 -> N h1 = N h2 ->
  Data h1 <> None -> Data h2 <> None ->
  selectPayload h1 = selectPayload h2 ->
  checkConsistency h1 = checkConsistency h2.
Proof.
  intros Hty Hh Hn Hd1 Hd2 Hsel.
  unfold checkConsistency, selectPayload in *.
  rewrite <- Hty, <- Hh, <- Hn in *.
  destruct (Data h1) as [u1|]; [|congruence].
  destruct (Data h2) as [u2|]; [|congruence].
  destruct (Type' h1 =? handleContextTypePermanent) eqn:E0; [reflexivity|].
  rewrite orb_false_r in Hsel.
  destruct (Type' h1 =? handleContextTypeDummy) eqn:Ed.
  { apply Z.eqb_eq in Ed. rewrite Ed. reflexivity. }
  cbn [orb] in Hsel.
  destruct (Type' h1 =? handleContextTypeObject).
  { injection Hsel as ->. reflexivity. }
  destruct (Type' h1 =? handleContextTypeNvIndex).
  { injection Hsel as ->. reflexivity. }
  destruct (Type' h1 =? handleContextTypeSession).
  { injection Hsel as ->. reflexivity. }
  reflexivity.
Qed.

(** Marshalling a restorable, consistent context and unmarshalling the
    result gives back its type tag, handle, name and payload. *)
Lemma unmarshal_marshal `{Platform} (c : HandleContext) :
  restorable c ->
  checkConsistency (contextOf c) = Consistent ->
  exists body data,
    marshalHandleContext (contextOf c) = Ok body
    /\ unmarshalHandleContext body = Ok (data, [])
    /\ Type' data = Type' (contextOf c)
    /\ H data = H (contextOf c)
    /\ N data = N (contextOf c)
    /\ selectPayload data = selectPayload (contextOf c)
    /\ checkConsistency data = Consistent.
Proof.
  intros (Hh & Hn & Hc) Hcons.
  assert (Hgoal : forall body data,
    marshalHandleContext (contextOf c) = Ok body ->
    unmarshalHandleContext body = Ok (data, []) ->
    Type' data = Type' (contextOf c) -> H data = H (contextOf c) ->
    N data = N (contextOf c) -> Data data <> None -> Data (contextOf c) <> None ->
    selectPayload data = selectPayload (contextOf c) ->
    exists body data,
      marshalHandleContext (contextOf c) = Ok body
      /\ unmarshalHandleContext body = Ok (data, [])
      /\ Type' data = Type' (contextOf c)
      /\ H data = H (contextOf c)
      /\ N data = N (contextOf c)
      /\ selectPayload data = selectPayload (contextOf c)
      /\ checkConsistency data = Consistent).
  { intros body data Hm Hu Ht Hhh Hnn Hd1 Hd2 Hs. exists body, data.
    repeat (split; [assumption|]).
    rewrite <- Hcons. apply checkConsistency_ext; assumption. }
  destruct c as [h|r|r|r|h attrs]; try contradiction; cbn [contextOf] in *.
  - (* object *)
    destruct Hc as [Hty Hpub].
    set (h := hc r) in *.
    unfold checkConsistency in Hcons. rewrite Hty in Hcons. cbn in Hcons.
    destruct (negb _); [discriminate|].
    destruct (Data h) as [u|] eqn:Hu; [|discriminate].
    destruct (Object u) as [p|] eqn:Hp; [|discriminate].
    destruct (Hpub u p eq_refl Hp) as (m & Hm & Hum).
    assert (Hsel : selectPayload h = ObjectPayload (Some p)).
    { unfold selectPayload. rewrite Hty, Hu, Hp. reflexivity. }
    eapply (Hgoal _ (mkHandleContext (Type' h) (H h) (N h) (Some (mkU (Some p) None None)))).
    + unfold marshalHandleContext. rewrite Hsel, Hm. reflexivity.
    + unfold unmarshalHandleContext.
      rewrite readU_be by (rewrite Hty; simpl; unfold handleContextTypeObject; lia).
      cbn [bind fst snd].
      rewrite readU_be by (simpl; lia). cbn [bind fst snd].
      rewrite readSized_sizedBuffer by exact Hn. cbn [bind fst snd].
      rewrite Hty. cbn. rewrite Hum. reflexivity.
    + reflexivity.
    + reflexivity.
    + reflexivity.
    + discriminate.
    + discriminate.
    + rewrite Hsel. unfold selectPayload. cbn. rewrite Hty. reflexivity.
  - (* NV index *)
    destruct Hc as [Hty Hpub].
    set (h := hc r) in *.
    unfold checkConsistency in Hcons. rewrite Hty in Hcons. cbn in Hcons.
    destruct (negb _); [discriminate|].
    destruct (Data h) as [u|] eqn:Hu; [|discriminate].
    destruct (NV u) as [p|] eqn:Hp; [|discriminate].
    pose proof (Hpub u p eq_refl Hp) as Hwt.
    assert (Hsel : selectPayload h = NVPayload (Some p)).
    { unfold selectPayload. rewrite Hty, Hu, Hp. reflexivity. }
    eapply (Hgoal _ (mkHandleContext (Type' h) (H h) (N h) (Some (mkU None (Some p) None)))).
    + unfold marshalHandleContext. rewrite Hsel. reflexivity.
    + unfold unmarshalHandleContext.
      rewrite readU_be by (rewrite Hty; simpl; unfold handleContextTypeNvIndex; lia).
      cbn [bind fst snd].
      rewrite readU_be by (simpl; lia). cbn [bind fst snd].
      rewrite readSized_sizedBuffer by exact Hn. cbn [bind fst snd].
      rewrite Hty. cbn -[marshalNVPublic unmarshalNVPublic].
      rewrite <- (app_nil_r (marshalNVPublic p)).
      rewrite unmarshalNVPublic_marshal by exact Hwt. reflexivity.
    + reflexivity.
    + reflexivity.
    + reflexivity.
    + discriminate.
    + discriminate.
    + rewrite Hsel. unfold selectPayload. cbn. rewrite Hty. reflexivity.
  - (* session *)
    destruct Hc as (Hty & u & d & Hu & Hd & Hwt & Hsymrt).
    unfold checkConsistency in Hcons. rewrite Hty, Hu, Hd in Hcons. cbn in Hcons.
    destruct (negb _); [discriminate|].
    destruct (negb (IsHandle (N h)) || _); [discriminate|].
    assert (Hsym : exists s, Symmetric d = Some s).
    { unfold checkSessionData in Hcons.
      repeat match type of Hcons with
             | (if ?b then _ else _) = _ => destruct b; [discriminate|]
             end.
      destruct (Symmetric d) as [s|]; [exists s; reflexivity | discriminate]. }
    destruct Hsym as [s Hs].
    destruct (Hsymrt s Hs) as (m & Hm & Hum).
    destruct (unmarshalSessionData_marshal d s m Hwt Hs Hm Hum) as (sb & Hsb & Husb).
    assert (Hsel : selectPayload h = SessionPayload (Some d)).
    { unfold selectPayload. rewrite Hty, Hu, Hd. reflexivity. }
    eapply (Hgoal _ (mkHandleContext (Type' h) (H h) (N h) (Some (mkU None None (Some d))))).
    + unfold marshalHandleContext. rewrite Hsel, Hsb. reflexivity.
    + unfold unmarshalHandleContext.
      rewrite readU_be by (rewrite Hty; simpl; unfold handleContextTypeSession; lia).
      cbn [bind fst snd].
      rewrite readU_be by (simpl; lia). cbn [bind fst snd].
      rewrite readSized_sizedBuffer by exact Hn. cbn [bind fst snd].
      rewrite Hty. cbn. rewrite Husb. reflexivity.
    + reflexivity.
    + reflexivity.
    + reflexivity.
    + discriminate.
    + rewrite Hu. discriminate.
    + rewrite Hsel. unfold selectPayload. cbn. rewrite Hty. reflexivity.
Qed.

Lemma restore_frame `{Platform} (body rest : list Z) (data : handleContext) :
  Supported HashAlgorithmSHA256 = true ->
  0 <= HashAlgorithmSHA256 < 2 ^ 16 ->
  len body < 2 ^ 16 ->
  len (hashSum HashAlgorithmSHA256 body) < 2 ^ 16 ->
  unmarshalHandleContext body = Ok (data, []) ->
  Type' data <> handleContextTypePermanent ->
  checkConsistency data = Consistent ->
  CreateHandleContextFromReader (blobOf body ++ rest)
  = if Type' data =? handleContextTypeObject then
      Ok (objectContext (mkResourceContext data []), rest)
    else if Type' data =? handleContextTypeNvIndex then
      Ok (nvIndexContext (mkResourceContext data []), rest)
    else if Type' data =? handleContextTypeSession then
      Ok (sessionContext data 0, rest)
    else Err RestorePanic.
Proof.
  intros Hsup Halg Hb Hd Hu Hperm Hc.
  unfold CreateHandleContextFromReader, blobOf.
  repeat rewrite <- app_assoc.
  rewrite unpack_frame by assumption.
  rewrite Hsup, bytesEqual_refl, Hu. cbn [negb].
  replace (len body - len [] <? len body) with false
    by (symmetry; apply Z.ltb_ge; unfold len; simpl; lia).
  apply Z.eqb_neq in Hperm. rewrite Hperm, Hc. reflexivity.
Qed.

Lemma len_app (a b : list Z) : len (a ++ b) = len a + len b.
Proof. unfold len. rewrite length_app. lia. Qed.

(** Serializing and restoring under the wire form modelled above (the
    marshaller that [SerializeToBytes] and [CreateHandleContextFromReader]
    call is not among the sources, nor are the types [Public] and
    [SymDef]). For an object, NV index or session context that passes the
    consistency checks, whose session data (for a session context) is
    present and whose fields fit the wire form (integers of their width,
    buffers and body shorter than 65536 bytes), and on the assumption that
    a public area and a symmetric definition read back as written: the
    serialized form is the algorithm identifier, the digest of the
    marshalled body and the body, and does not depend on the authorization
    value; restoring it succeeds, consumes all of it, and yields a context
    of the same kind, equal in type tag, handle, name and payload, whose
    authorization value is empty. *)
Theorem restore_serialize `{Platform} (c : HandleContext) :
  restorable c ->
  checkConsistency (contextOf c) = Consistent ->
  Supported HashAlgorithmSHA256 = true ->
  0 <= HashAlgorithmSHA256 < 2 ^ 16 ->
  (forall body, marshalHandleContext (contextOf c) = Ok body ->
                len body < 2 ^ 16 /\ len (hashSum HashAlgorithmSHA256 body) < 2 ^ 16) ->
  exists body c',
    marshalHandleContext (contextOf c) = Ok body
    /\ SerializeToBytes c = Ok (blobOf body)
    /\ SerializeToWriter c = Ok (blobOf body)
    /\ (forall a, SerializeToBytes (SetAuthValue c a) = Ok (blobOf body))
    /\ CreateHandleContextFromBytes (blobOf body) = (Some c', len (blobOf body), None)
    /\ (forall rest, CreateHandleContextFromReader (blobOf body ++ rest) = Ok (c', rest))
    /\ sameVariant c c'
    /\ Type' (contextOf c') = Type' (contextOf c)
    /\ Handle c' = Handle c
    /\ Name c' = Name c
    /\ selectPayload (contextOf c') = selectPayload (contextOf c)
    /\ GetAuthValue c' = [].
Proof.
  intros Hres Hcons Hsup Halg Hfit.
  destruct (unmarshal_marshal c Hres Hcons)
    as (body & data & Hm & Hu & Hty & Hh & Hn & Hsel & Hc).
  destruct (Hfit body Hm) as [Hb Hd].
  assert (Hser : serialize (contextOf c) = Ok (blobOf body)).
  { unfold serialize. rewrite Hm. reflexivity. }
  destruct Hres as (_ & _ & Hvar).
  assert (Hperm : Type' data <> handleContextTypePermanent).
  { rewrite Hty. destruct c as [h|r|r|r|h attrs]; try contradiction;
      cbn [contextOf]; destruct Hvar as [-> _]; discriminate. }
  pose proof (fun rest => restore_frame body rest data Hsup Halg Hb Hd Hu Hperm Hc) as Hr.
  exists body.
  destruct c as [h|r|r|r|h attrs]; try contradiction; cbn [contextOf] in *;
    destruct Hvar as [Htag _]; rewrite Htag in Hty; rewrite Hty in Hr;
    cbv [handleContextTypeObject handleContextTypeNvIndex handleContextTypeSession
         Z.eqb Pos.eqb] in Hr;
    [ exists (objectContext (mkResourceContext data []))
    | exists (nvIndexContext (mkResourceContext data []))
    | exists (sessionContext data 0) ];
    (split; [exact Hm|]);
    (split; [exact Hser|]);
    (split; [exact Hser|]);
    (split; [intros a; exact Hser|]);
    (split; [unfold CreateHandleContextFromBytes;
             rewrite <- (app_nil_r (blobOf body)) at 1; rewrite Hr;
             unfold len; simpl; rewrite Z.sub_0_r; reflexivity|]);
    (split; [exact Hr|]);
    (split; [exact I|]);
    (split; [cbn [contextOf hc]; congruence|]);
    (split; [exact Hh|]);
    (split; [exact Hn|]);
    (split; [exact Hsel|]);
    reflexivity.
Qed.

(** Every session context that a restore returns carries session data. *)
Lemma restored_session_has_data `{Platform} (r : list Z) (c : HandleContext) (rest : list Z) :
  CreateHandleContextFromReader r = Ok (c, rest) ->
  Type' (contextOf c) = handleContextTypeSession ->
  exists d, selectPayload (contextOf c) = SessionPayload (Some d).
Proof.
  intros Hr Hty.
  destruct (restore_inv r c rest Hr)
    as (alg & integrity & b & data & _ & _ & _ & Hun & _ & _ & Hv).
  assert (Hdata : contextOf c = data)
    by (destruct Hv as [[-> _]|[[-> _]|[-> _]]]; reflexivity).
  rewrite Hdata in *.
  destruct (unmarshalHandleContext_session b data [] Hun Hty) as [d Hd].
  exists d. unfold selectPayload. rewrite Hty, Hd. reflexivity.
Qed.

(** A session context without session data (as
    [CreateIncompleteSessionContext] builds it) passes the consistency
    checks; in the wire form modelled above unmarshalling allocates every
    pointer, so that no blob restores to a session context without session
    data. *)
Lemma incomplete_session_not_restored :
  @checkConsistency sim (contextOf incompleteSession) = Consistent
  /\ @SerializeToBytes sim incompleteSession = Err CannotSelectUnionType
  /\ ~ (exists r rest c',
           @CreateHandleContextFromReader sim r = Ok (c', rest)
           /\ Type' (contextOf c') = Type' (contextOf incompleteSession)
           /\ selectPayload (contextOf c') = selectPayload (contextOf incompleteSession)).
Proof.
  split; [reflexivity|]. split; [reflexivity|].
  intros (r & rest & c' & Hr & Hty & Hsel).
  destruct (restored_session_has_data r c' rest Hr Hty) as [d Hd].
  rewrite Hd in Hsel. discriminate Hsel.
Qed.

(** The NV index context, with an authorization value set. *)
Lemma restore_serialize_example :
  exists body c',
    @marshalHandleContext sim (contextOf nvExampleContext) = Ok body
    /\ @SerializeToBytes sim nvExampleContext = Ok (@blobOf sim body)
    /\ @SerializeToWriter sim nvExampleContext = Ok (@blobOf sim body)
    /\ (forall a, @SerializeToBytes sim (SetAuthValue nvExampleContext a)
                  = Ok (@blobOf sim body))
    /\ @CreateHandleContextFromBytes sim (@blobOf sim body)
       = (Some c', len (@blobOf sim body), None)
    /\ (forall rest,
          @CreateHandleContextFromReader sim (@blobOf sim body ++ rest) = Ok (c', rest))
    /\ sameVariant nvExampleContext c'
    /\ Type' (contextOf c') = Type' (contextOf nvExampleContext)
    /\ Handle c' = Handle nvExampleContext
    /\ Name c' = Name nvExampleContext
    /\ selectPayload (contextOf c') = selectPayload (contextOf nvExampleContext)
    /\ GetAuthValue c' = [].
Proof.
  apply (@restore_serialize sim nvExampleContext).
  - split; [vm_compute; split; [discriminate | reflexivity]|].
    split; [vm_compute; reflexivity|].
    split; [reflexivity|].
    intros u p [= <-] [= <-]. vm_compute. repeat split; discriminate.
  - vm_compute. reflexivity.
  - reflexivity.
  - vm_compute. split; [discriminate | reflexivity].
  - intros body [= <-]. vm_compute. split; reflexivity.
Defined.

(** The HMAC session of the examples. *)
Lemma session_invariants_witness :
  @sessionInvariant sim sessionExampleData.
Proof.
  pose proof (@session_invariants sim (contextOf sessionExampleContext) []
                (contextOf sessionExampleContext) 0 []) as P.
  apply proj1 in P.
  exact (P eq_refl eq_refl (mkU None None (Some sessionExampleData))
           sessionExampleData eq_refl eq_refl).
Defined.

(** The blob of the NV index context with the eleventh body byte changed. *)
Lemma restore_refuses_witness :
  @serialize sim (contextOf nvExampleContext) = Ok (@blobOf sim nvExampleBody)
  /\ @CreateHandleContextFromReader sim
       (be 2 0x000b ++ sizedBuffer (simHashSum 0x000b nvExampleBody)
        ++ sizedBuffer (<[10%nat:=0xff]> nvExampleBody))
     = Err InvalidChecksum.
Proof.
  refine (proj2 (proj2 (@restore_refuses sim [] 0 [] [] [] (contextOf nvExampleContext)
                          nvExampleBody 10 0xff)) _ _ _ _ _ _).
  - vm_compute. reflexivity.
  - reflexivity.
  - vm_compute. split; [discriminate | reflexivity].
  - vm_compute. reflexivity.
  - vm_compute. reflexivity.
  - vm_compute. discriminate.
Defined.

(** *** Reading a context back from the TPM *)

Lemma IsTPMWarning_code (err : error) (code : Z) :
  code <> AnyWarningCode ->
  IsTPMWarning (Some err) code AnyCommandCode = true
  <-> exists cmd, As isTPMWarning err = Some (TPMWarning cmd code).
Proof.
  intros Hc. unfold IsTPMWarning.
  apply Z.eqb_neq in Hc. rewrite Hc. cbn [orb].
  destruct (As isTPMWarning err) as [e|]; [|split; [discriminate | intros [? ?]; discriminate]].
  destruct e; try (split; [discriminate | intros [? ?]; discriminate]).
  rewrite Z.eqb_refl. cbn [orb andb]. rewrite andb_true_r. split.
  - intros Hq. apply Z.eqb_eq in Hq. subst. eexists. reflexivity.
  - intros [cmd Hq]. injection Hq as _ ->. apply Z.eqb_refl.
Qed.

Lemma IsTPMHandleError_code (err : error) (code : Z) :
  code <> AnyErrorCode ->
  IsTPMHandleError (Some err) code AnyCommandCode AnyHandleIndex = true
  <-> exists idx cmd,
        As isTPMHandleError err = Some (TPMHandleError idx (mkTPMError cmd code)).
Proof.
  intros Hc. unfold IsTPMHandleError.
  apply Z.eqb_neq in Hc. rewrite Hc. cbn [orb].
  destruct (As isTPMHandleError err) as [e|];
    [|split; [discriminate | intros (? & ? & ?); discriminate]].
  destruct e; try (split; [discriminate | intros (? & ? & ?); discriminate]).
  rewrite !Z.eqb_refl. cbn [orb andb]. rewrite !andb_true_r. split.
  - intros Hq. apply Z.eqb_eq in Hq. destruct err0 as [cmd c]. cbn in Hq. subst.
    do 2 eexists. reflexivity.
  - intros (idx & cmd & Hq). injection Hq as _ ->. apply Z.eqb_refl.
Qed.

(** The verdict of the loop on a failed round. *)
Lemma createLoop_failed `{ResponseCodeTable} `{Platform} (t : TPMContext) (handle : Z)
  (sessions : list HandleContext) (n i : nat) (rc : HandleContext) (s : list HandleContext)
  (err : error) :
  WarningReferenceH0 <> AnyWarningCode ->
  ErrorHandle <> AnyErrorCode ->
  readContext t handle i rc s = Err err ->
  (unavailable err ->
   createLoop t handle sessions (S n) i rc s = Failed (ResourceUnavailableError handle))
  /\ (~ unavailable err -> createLoop t handle sessions (S n) i rc s = Failed err).
Proof.
  intros Hw He Hr. cbn [createLoop]. rewrite Hr.
  pose proof (IsTPMWarning_code err WarningReferenceH0 Hw) as Pw.
  pose proof (IsTPMHandleError_code err ErrorHandle He) as Ph.
  unfold unavailable.
  destruct (IsTPMWarning (Some err) WarningReferenceH0 AnyCommandCode).
  - split; [reflexivity|]. intros Hn. exfalso. apply Hn. left. apply Pw. reflexivity.
  - destruct (IsTPMHandleError (Some err) ErrorHandle AnyCommandCode AnyHandleIndex).
    + split; [reflexivity|]. intros Hn. exfalso. apply Hn. right. apply Ph. reflexivity.
    + split; [|reflexivity]. intros [Hu | Hu].
      * apply Pw in Hu. discriminate.
      * apply Ph in Hu. discriminate.
Qed.

Lemma readError_readContext `{Platform} (t : TPMContext) (handle : Z) (i : nat)
  (rc : HandleContext) (s : list HandleContext) (err : error) :
  readError t handle i rc s = Some err -> readContext t handle i rc s = Err err.
Proof.
  unfold readError, readContext, makeNVIndexContextFromTPM, makeObjectContextFromTPM.
  destruct (HandleType handle =? HandleTypeNVIndex).
  - destruct (NVReadPublic t i (Handle rc) s) as [[? ?]|e]; [discriminate|].
    intros Hq. injection Hq as ->. reflexivity.
  - destruct (ReadPublic t i (Handle rc) s) as [[? ?]|e]; [discriminate|].
    intros Hq. injection Hq as ->. reflexivity.
Qed.

Lemma readable_accepted (handle : Z) :
  readable handle ->
  (HandleType handle =? HandleTypeNVIndex)
  || (HandleType handle =? HandleTypeTransient)
  || (HandleType handle =? HandleTypePersistent) = true.
Proof.
  intros [Hq | [Hq | Hq]]; rewrite Hq; reflexivity.
Qed.

Lemma length_eqb_nil {A : Type} (l : list A) :
  l <> [] -> (length l =? 0)%nat = false.
Proof.
  destruct l; [congruence | reflexivity].
Qed.

(** C8: for an NV-index, transient or persistent handle, when a read of the
    public area made by [CreateResourceContextFromTPM] fails with a
    reference-h0 warning, or with a handle error whose code is the handle
    code, for any command code and any handle index, the function returns
    [ResourceUnavailableError] with the handle and no context; it returns
    any other error of the read as it is. *)
Theorem unavailable_resource `{ResponseCodeTable} `{Platform} (t : TPMContext)
  (handle : Z) (sessions : list HandleContext) (err : error) :
  WarningReferenceH0 <> AnyWarningCode ->
  ErrorHandle <> AnyErrorCode ->
  readable handle ->
  readFails t handle sessions err ->
  (unavailable err ->
   CreateResourceContextFromTPM t handle sessions = Failed (ResourceUnavailableError handle))
  /\ (~ unavailable err -> CreateResourceContextFromTPM t handle sessions = Failed err).
Proof.
  intros Hw He Hh Hf. unfold CreateResourceContextFromTPM.
  rewrite (readable_accepted handle Hh).
  destruct Hf as [Hf | rc0 Hs H0' Hf].
  - apply createLoop_failed; auto using readError_readContext.
  - change (createLoop t handle sessions 2 0 (makeDummyContext handle) [])
      with (match readContext t handle 0 (makeDummyContext handle) [] with
            | Err err =>
              if IsTPMWarning (Some err) WarningReferenceH0 AnyCommandCode then
                Failed (ResourceUnavailableError handle)
              else if IsTPMHandleError (Some err) ErrorHandle AnyCommandCode AnyHandleIndex then
                Failed (ResourceUnavailableError handle)
              else Failed err
            | Ok rc =>
              if (length sessions =? 0)%nat then Created rc
              else createLoop t handle sessions 1 1 rc sessions
            end).
    rewrite H0', (length_eqb_nil sessions Hs).
    apply createLoop_failed; auto using readError_readContext.
Qed.

Lemma unavailable_resource_witness :
  @CreateResourceContextFromTPM tcgTable sim tpmExample 0x80000002 [sessionExampleContext]
  = Failed (ResourceUnavailableError 0x80000002).
Proof.
  refine (proj1 (@unavailable_resource tcgTable sim tpmExample 0x80000002
                   [sessionExampleContext]
                   (TPMHandleError 1 (mkTPMError 0x00000173 0x8b)) _ _ _ _) _).
  - vm_compute. discriminate.
  - vm_compute. discriminate.
  - right. left. reflexivity.
  - apply firstReadFails. reflexivity.
  - right. exists 1, 0x00000173. reflexivity.
Defined.

Lemma createLoop_step `{ResponseCodeTable} `{Platform} (t : TPMContext) (handle : Z)
  (sessions : list HandleContext) (n i : nat) (rc : HandleContext) (s : list HandleContext) :
  createLoop t handle sessions (S n) i rc s
  = match readContext t handle i rc s with
    | Err err =>
      if IsTPMWarning (Some err) WarningReferenceH0 AnyCommandCode then
        Failed (ResourceUnavailableError handle)
      else if IsTPMHandleError (Some err) ErrorHandle AnyCommandCode AnyHandleIndex then
        Failed (ResourceUnavailableError handle)
      else Failed err
    | Ok rc' =>
      if (length sessions =? 0)%nat then Created rc'
      else createLoop t handle sessions n (S i) rc' sessions
    end.
Proof.
  reflexivity.
Qed.

Lemma createLoop_error `{ResponseCodeTable} `{Platform} (t : TPMContext) (handle : Z)
  (sessions : list HandleContext) (n i : nat) (rc : HandleContext) (s : list HandleContext)
  (err : error) :
  readContext t handle i rc s = Err err ->
  exists err', createLoop t handle sessions (S n) i rc s = Failed err'.
Proof.
  intros Hr. rewrite createLoop_step, Hr.
  destruct (IsTPMWarning (Some err) WarningReferenceH0 AnyCommandCode); [eauto|].
  destruct (IsTPMHandleError (Some err) ErrorHandle AnyCommandCode AnyHandleIndex); eauto.
Qed.

Lemma createLoop_invalid `{ResponseCodeTable} `{Platform} (t : TPMContext) (handle : Z)
  (sessions : list HandleContext) (n i : nat) (rc : HandleContext) (s : list HandleContext)
  (cmd : Z) (msg : string) :
  readContext t handle i rc s = Err (InvalidResponseError cmd msg) ->
  createLoop t handle sessions (S n) i rc s = Failed (InvalidResponseError cmd msg).
Proof.
  intros Hr. rewrite createLoop_step, Hr. reflexivity.
Qed.

(** A round against its cross-checks, for a context of the queried
    handle. *)
Lemma readContext_crossChecked `{Platform} (t : TPMContext) (handle : Z) (i : nat)
  (rc : HandleContext) (s : list HandleContext) :
  Handle rc = handle ->
  match crossChecked t handle i rc s with
  | Some true => exists rc', readContext t handle i rc s = Ok rc' /\ Handle rc' = handle
  | Some false =>
    exists msg, readContext t handle i rc s = Err (InvalidResponseError (readCommand handle) msg)
  | None => exists err, readContext t handle i rc s = Err err
  end.
Proof.
  intros Hh.
  unfold crossChecked, readContext, readCommand, makeNVIndexContextFromTPM,
    makeObjectContextFromTPM.
  destruct (HandleType handle =? HandleTypeNVIndex).
  - destruct (NVReadPublic t i (Handle rc) s) as [[pub name]|e]; [|eauto].
    destruct (nvName pub) as [n|e]; [|cbn; eauto].
    destruct (bytesEqual n name); [|cbn; eauto].
    rewrite Hh. cbn [negb andb].
    destruct (Index pub =? handle) eqn:Hi; cbn [negb]; [|eauto].
    apply Z.eqb_eq in Hi. eexists. split; [reflexivity | exact Hi].
  - destruct (ReadPublic t i (Handle rc) s) as [[pub name]|e]; [|eauto].
    destruct (publicName pub) as [n|e]; [|eauto].
    destruct (bytesEqual n name); cbn [negb]; [|eauto].
    eexists. split; [reflexivity | exact Hh].
Qed.

(** C9: when [CreateResourceContextFromTPM] reads a public area back, it
    returns an [InvalidResponseError] and no context whenever the returned
    name is not the name computed from the returned public area or, for an
    NV index, the index of the returned area is not the queried handle, in
    the first read as in the second; it returns a context only when the
    cross-checks of every read it made have passed. *)
Theorem cross_checks_guard `{ResponseCodeTable} `{Platform} (t : TPMContext)
  (handle : Z) (sessions : list HandleContext) :
  readable handle ->
  (crossChecked t handle 0 (makeDummyContext handle) [] = Some false ->
   exists msg, CreateResourceContextFromTPM t handle sessions
               = Failed (InvalidResponseError (readCommand handle) msg))
  /\ (forall rc0,
        sessions <> [] ->
        readContext t handle 0 (makeDummyContext handle) [] = Ok rc0 ->
        crossChecked t handle 1 rc0 sessions = Some false ->
        exists msg, CreateResourceContextFromTPM t handle sessions
                    = Failed (InvalidResponseError (readCommand handle) msg))
  /\ (forall rc,
        CreateResourceContextFromTPM t handle sessions = Created rc ->
        crossChecked t handle 0 (makeDummyContext handle) [] = Some true
        /\ (sessions <> [] ->
            exists rc0,
              readContext t handle 0 (makeDummyContext handle) [] = Ok rc0
              /\ crossChecked t handle 1 rc0 sessions = Some true)).
Proof.
  intros Hh. unfold CreateResourceContextFromTPM.
  rewrite (readable_accepted handle Hh).
  pose proof (readContext_crossChecked t handle 0 (makeDummyContext handle) [] eq_refl) as P0.
  split; [|split].
  - intros Hc. rewrite Hc in P0. destruct P0 as [msg Hr].
    exists msg. apply createLoop_invalid. exact Hr.
  - intros rc0 Hs Hr0 Hc.
    destruct (crossChecked t handle 0 (makeDummyContext handle) []) as [[|]|];
      [|destruct P0 as [? P0]; congruence|destruct P0 as [? P0]; congruence].
    destruct P0 as (rc0' & Hr0' & Hh0).
    assert (rc0' = rc0) by congruence. subst rc0'.
    pose proof (readContext_crossChecked t handle 1 rc0 sessions Hh0) as P1.
    rewrite Hc in P1. destruct P1 as [msg Hr1]. exists msg.
    rewrite createLoop_step, Hr0, (length_eqb_nil sessions Hs).
    apply createLoop_invalid. exact Hr1.
  - intros rc. rewrite createLoop_step.
    destruct (crossChecked t handle 0 (makeDummyContext handle) []) as [[|]|].
    + destruct P0 as (rc0 & Hr0 & Hh0). rewrite Hr0.
      destruct sessions as [|x sessions'] eqn:Hs; cbn [length Nat.eqb].
      * intros _. split; [reflexivity | congruence].
      * intros Hc. split; [reflexivity|]. intros _. exists rc0. split; [reflexivity|].
        pose proof (readContext_crossChecked t handle 1 rc0 (x :: sessions') Hh0) as P1.
        destruct (crossChecked t handle 1 rc0 (x :: sessions')) as [[|]|]; [reflexivity| |].
        -- destruct P1 as [msg Hr1].
           rewrite (createLoop_invalid _ _ _ _ _ _ _ _ _ Hr1) in Hc. discriminate.
        -- destruct P1 as [err Hr1].
           destruct (createLoop_error t handle (x :: sessions') 0 1 rc0 (x :: sessions') err Hr1)
             as [err' He].
           rewrite He in Hc. discriminate.
    + destruct P0 as [msg Hr0]. rewrite Hr0. cbn. discriminate.
    + destruct P0 as [err Hr0]. rewrite Hr0.
      destruct (IsTPMWarning (Some err) WarningReferenceH0 AnyCommandCode); [discriminate|].
      destruct (IsTPMHandleError (Some err) ErrorHandle AnyCommandCode AnyHandleIndex);
        discriminate.
Qed.

Lemma cross_checks_guard_witness :
  exists msg, @CreateResourceContextFromTPM tcgTable sim tpmForged 0x01500000 []
              = Failed (InvalidResponseError 0x00000169 msg).
Proof.
  refine (proj1 (@cross_checks_guard tcgTable sim tpmForged 0x01500000 [] _) _).
  - left. reflexivity.
  - reflexivity.
Defined.

(** ** Further properties of the decoder and of the error predicates *)

(** [DecodeResponseCode] returns a nil error for the response code
    [Success] and for no other. *)
Theorem DecodeResponseCode_nil_iff `{ResponseCodeTable} (command resp : Z) :
  DecodeResponseCode command resp = None <-> resp = Success.
Proof.
  unfold DecodeResponseCode. destruct (Z.eqb_spec resp Success) as [->|Hne].
  - split; reflexivity.
  - split; [|contradiction].
    repeat match goal with
           | |- context [if ?c then _ else _] => destruct c
           end; discriminate.
Qed.

(** The index of a decoded parameter error lies between 0 and 15, that of
    a decoded session error between 0 and 7, and that of a decoded handle
    error between 1 and 7; each of them carries the command code that was
    passed. *)
Theorem DecodeResponseCode_index_bounds `{ResponseCodeTable} (command resp : Z) :
  (forall i e, DecodeResponseCode command resp = Some (TPMParameterError i e) ->
               0 <= i <= 15 /\ Command e = command)
  /\ (forall i e, DecodeResponseCode command resp = Some (TPMSessionError i e) ->
                  0 <= i <= 7 /\ Command e = command)
  /\ (forall i e, DecodeResponseCode command resp = Some (TPMHandleError i e) ->
                  1 <= i <= 7 /\ Command e = command).
Proof.
  assert (Hp : Z.shiftr (Z.land resp fmt1ParameterIndexMask) fmt1IndexShift
               = (resp / 2 ^ 8) mod 2 ^ 4) by (apply (field_extract resp 4 8); lia).
  assert (Hs : Z.shiftr (Z.land resp fmt1HandleOrSessionIndexMask) fmt1IndexShift
               = (resp / 2 ^ 8) mod 2 ^ 3) by (apply (field_extract resp 3 8); lia).
  assert (Hn : (Z.land resp fmt1HandleOrSessionIndexMask >? 0)
               = negb ((resp / 2 ^ 8) mod 2 ^ 3 =? 0))
    by (apply (field_nonzero resp 3 8); lia).
  pose proof (Z.mod_pos_bound (resp / 2 ^ 8) (2 ^ 4) ltac:(lia)) as B4.
  pose proof (Z.mod_pos_bound (resp / 2 ^ 8) (2 ^ 3) ltac:(lia)) as B3.
  unfold DecodeResponseCode. rewrite Hp, Hs, Hn.
  destruct (resp =? Success); [repeat split; discriminate|].
  destruct (Z.land resp formatMask =? 0).
  - repeat match goal with
           | |- context [if ?c then _ else _] => destruct c
           end; repeat split; discriminate.
  - destruct (Z.land resp fmt1ParameterMask >? 0).
    { split; [|split]; intros i e Hq; try discriminate.
      injection Hq as <- <-. cbn [Command]. lia. }
    destruct (Z.land resp fmt1SessionMask >? 0).
    { split; [|split]; intros i e Hq; try discriminate.
      injection Hq as <- <-. cbn [Command]. lia. }
    destruct (Z.eqb_spec ((resp / 2 ^ 8) mod 2 ^ 3) 0) as [Hz|Hz]; cbn [negb].
    + repeat split; discriminate.
    + split; [|split]; intros i e Hq; try discriminate.
      injection Hq as <- <-. cbn [Command]. lia.
Qed.

(** The chain of a handle, parameter or session error ends in the
    [*TPMError] it wraps. *)
Lemma As_wrapped_TPMError (target : error -> bool) (e : error) (idx : Z) (ue : TPMErrorData) :
  (As target e = Some (TPMHandleError idx ue)
   \/ As target e = Some (TPMParameterError idx ue)
   \/ As target e = Some (TPMSessionError idx ue)) ->
  As isTPMError e = Some (TPMError ue).
Proof.
  induction e as [h|c m|op e IHe|c k|c k|c k|x|i x|i x|i x|m e IHe|m].
  all: cbn [As].
  all: match goal with
       | |- (if ?t ?E then _ else _) = _ \/ _ -> _ => destruct (t E) eqn:Ht
       end.
  all: try (intros [Hq | [Hq | Hq]]; try discriminate Hq;
            injection Hq as _ ->; reflexivity).
  all: try (cbn [isTPMError]; exact IHe).
  all: try (destruct (target (TPMError x)));
    intros [Hq | [Hq | Hq]]; discriminate Hq.
Qed.

(** An error that [IsTPMHandleError], [IsTPMParameterError] or
    [IsTPMSessionError] recognises for a code and a command is recognised
    by [IsTPMError] for the same code and command: [xerrors.As] reaches
    the wrapped [*TPMError]. *)
Theorem indexed_error_is_TPMError (err : option error) (code command index : Z) :
  IsTPMHandleError err code command index = true
  \/ IsTPMParameterError err code command index = true
  \/ IsTPMSessionError err code command index = true ->
  IsTPMError err code command = true.
Proof.
  destruct err as [e|]; [|intros [Hq | [Hq | Hq]]; discriminate Hq].
  unfold IsTPMHandleError, IsTPMParameterError, IsTPMSessionError, IsTPMError.
  intros [Hq | [Hq | Hq]].
  - destruct (As isTPMHandleError e) as [[| | | | | | |i ue|i ue|i ue| |]|] eqn:Ha;
      try discriminate Hq.
    rewrite (As_wrapped_TPMError isTPMHandleError e i ue) by (left; exact Ha).
    apply andb_prop in Hq. destruct Hq as [Hq _]. exact Hq.
  - destruct (As isTPMParameterError e) as [[| | | | | | |i ue|i ue|i ue| |]|] eqn:Ha;
      try discriminate Hq.
    rewrite (As_wrapped_TPMError isTPMParameterError e i ue)
      by (right; left; exact Ha).
    apply andb_prop in Hq. destruct Hq as [Hq _]. exact Hq.
  - destruct (As isTPMSessionError e) as [[| | | | | | |i ue|i ue|i ue| |]|] eqn:Ha;
      try discriminate Hq.
    rewrite (As_wrapped_TPMError isTPMSessionError e i ue)
      by (right; right; exact Ha).
    apply andb_prop in Hq. destruct Hq as [Hq _]. exact Hq.
Qed.

(** A wrapped handle error of the second handle. *)
Lemma indexed_error_is_TPMError_witness :
  IsTPMError (Some (WrapError "cannot load" (TPMHandleError 2 (mkTPMError 0x157 0x8b))))
             0x8b 0x157 = true.
Proof.
  apply (indexed_error_is_TPMError _ 0x8b 0x157 2). left. reflexivity.
Defined.

(** For a response code of format one, [IsTPMError] on the decoded error
    holds exactly for the wildcard and for the biased six-bit code,
    whether the response names a parameter, a session, a handle or
    none. *)
Theorem IsTPMError_format_one `{ResponseCodeTable} (command resp code : Z) :
  Z.land resp formatMask <> 0 ->
  IsTPMError (DecodeResponseCode command resp) code command
  = (code =? AnyErrorCode)
    || (wrap32 (Z.land resp fmt1ErrorCodeMask + errorCode1Start) =? code).
Proof.
  intros Hf. unfold DecodeResponseCode.
  assert (Hs : resp <> Success) by (intros ->; apply Hf; reflexivity).
  apply Z.eqb_neq in Hs. apply Z.eqb_neq in Hf. rewrite Hs, Hf.
  destruct (Z.land resp fmt1ParameterMask >? 0);
    [|destruct (Z.land resp fmt1SessionMask >? 0);
      [|destruct (Z.land resp fmt1HandleOrSessionIndexMask >? 0)]];
    cbn; rewrite Z.eqb_refl, orb_true_r, andb_true_r; reflexivity.
Qed.

(** The response code 0x5e7 of the tests, a parameter error, is a TPM
    error with the code of the ECC point. *)
Lemma IsTPMError_format_one_witness :
  @IsTPMError (@DecodeResponseCode tcgTable 0x176 0x5e7) 0xa7 0x176 = true.
Proof.
  rewrite (@IsTPMError_format_one tcgTable 0x176 0x5e7 0xa7).
  - reflexivity.
  - vm_compute. discriminate.
Defined.

(** ** Further properties of the marshaller *)

Lemma bind_bind {E A B C : Type} (r : result E A) (f : A -> result E B)
  (g : B -> result E C) :
  bind (bind r f) g = bind r (fun a => bind (f a) g).
Proof. destruct r; reflexivity. Qed.

(** The bytes that [MarshalToBytes] returns for a list of values are the
    bytes of a first part of the list followed by the bytes of the rest;
    the first value that fails gives the error. *)
Theorem MarshalToBytes_app `{Reflection} (fuel : nat) (vals1 vals2 : list (type * data)) :
  MarshalToBytes fuel (vals1 ++ vals2)
  = do b1 <- MarshalToBytes fuel vals1;
    do b2 <- MarshalToBytes fuel vals2;
    Ok (b1 ++ b2).
Proof.
  unfold MarshalToBytes. induction vals1 as [|val vals1 IH]; cbn [MarshalToWriter app bind].
  - destruct (MarshalToWriter fuel vals2); reflexivity.
  - destruct (marshalValue fuel (ValueOf val) None) as [b|e]; cbn [bind]; [|reflexivity].
    rewrite IH.
    destruct (MarshalToWriter fuel vals1) as [b1|e]; cbn [bind]; [|reflexivity].
    destruct (MarshalToWriter fuel vals2) as [b2|e]; cbn [bind]; [|reflexivity].
    rewrite app_assoc. reflexivity.
Qed.

(** [UnmarshalFromReader] into a list of destinations unmarshals into a
    first part of the list and then, from what that left of the input,
    into the rest. *)
Theorem UnmarshalFromReader_app `{Reflection} (fuel : nat) (buf : list Z)
  (vals1 vals2 : list (type * data)) :
  UnmarshalFromReader fuel buf (vals1 ++ vals2)
  = do r1 <- UnmarshalFromReader fuel buf vals1;
    do r2 <- UnmarshalFromReader fuel (snd r1) vals2;
    Ok (fst r1 ++ fst r2, snd r2).
Proof.
  revert buf. induction vals1 as [|val vals1 IH]; intros buf;
    cbn [UnmarshalFromReader app bind fst snd].
  - destruct (UnmarshalFromReader fuel buf vals2) as [[? ?]|]; reflexivity.
  - destruct (negb (isPtr (vtype (ValueOf val)))); [reflexivity|].
    destruct (vdata (ValueOf val)) as [| |[d|]| | | |]; try reflexivity.
    destruct (unmarshalValue fuel buf _ None) as [[d' rest]|e]; cbn [bind fst snd];
      [|reflexivity].
    rewrite IH.
    destruct (UnmarshalFromReader fuel rest vals1) as [[ds1 rest1]|e]; cbn [bind fst snd];
      [|reflexivity].
    destruct (UnmarshalFromReader fuel rest1 vals2) as [[ds2 rest2]|e]; reflexivity.
Qed.

(** A plain value has no custom marshaller at its top. *)
Lemma plainValue_no_custom (t : type) (d : data) :
  plainValue t d = true -> hasCustomMarshallerImpl t = false.
Proof.
  destruct t as [[|] n| |e|fs|f0 alts|e| |id u| |]; destruct d; cbn; try discriminate;
    try reflexivity.
  destruct p as [x|]; [|discriminate].
  destruct e; try reflexivity. destruct x; discriminate.
Qed.

Lemma plainContext_enter (ctx : option muContext) :
  plainContext ctx ->
  sized (options (enter ctx)) = false /\ raw (options (enter ctx)) = false.
Proof.
  destruct ctx as [c|]; cbn; [tauto | split; reflexivity].
Qed.

(** The recursive calls of a round trip: what [rec] marshals, [rec']
    unmarshals into a zero value. *)
Definition inverts (rec : marshaller) (rec' : unmarshaller) : Prop :=
  forall t d a ctx ctx' bytes rest,
    plainValue t d = true -> plainContext ctx -> plainContext ctx' ->
    rec (mkValue t d a) ctx = Ok bytes ->
    rec' (bytes ++ rest) (mkValue t (Zero t) true) ctx' = Ok (d, rest).

Lemma fields_round_trip (rec : marshaller) (rec' : unmarshaller) (ctx ctx' : muContext)
  (s s' : Value) (fs : list (string * string * type)) (ds : list data)
  (bytes rest : list Z) :
  inverts rec rec' ->
  vaddr s' = true ->
  plainValue (Struct fs) (VStruct ds) = true ->
  marshalFields rec ctx s fs ds = Ok bytes ->
  forall decoded,
    unmarshalFields rec' ctx' s' decoded fs
                    (map (fun f => match f with (_, _, ft) => Zero ft end) fs) (bytes ++ rest)
    = Ok (ds, rest).
Proof.
  intros Hrec Ha. revert ds bytes.
  induction fs as [|[[name tag] ft] fs IH]; intros [|x ds] bytes Hp Hm decoded;
    cbn in Hp; try discriminate.
  - cbn in Hm. injection Hm as <-. reflexivity.
  - apply andb_prop in Hp. destruct Hp as [Hp Hrest].
    apply andb_prop in Hp. destruct Hp as [Htag Hx].
    apply String.eqb_eq in Htag. subst tag.
    cbn [marshalFields] in Hm.
    destruct (rec (mkValue ft x (vaddr s)) (Some (beginStructFieldCtx ctx s "")))
      as [b|] eqn:Hb; cbn [bind] in Hm; [|discriminate].
    destruct (marshalFields rec ctx s fs ds) as [bs|] eqn:Hbs; cbn [bind] in Hm;
      [|discriminate].
    injection Hm as <-.
    cbn [map unmarshalFields]. rewrite Ha, <- app_assoc.
    rewrite (Hrec ft x (vaddr s) (Some (beginStructFieldCtx ctx s ""))
                  (Some (beginStructFieldCtx ctx' _ "")) b (bs ++ rest)
                  Hx (conj eq_refl eq_refl) (conj eq_refl eq_refl) Hb).
    cbn [bind fst snd]. rewrite (IH ds bs Hrest Hbs). reflexivity.
Qed.

Lemma elems_round_trip (rec : marshaller) (rec' : unmarshaller) (ctx ctx' : muContext)
  (slice slice' : Value) (ds : list data) (bytes rest : list Z) :
  inverts rec rec' ->
  Elem (vtype slice') = Elem (vtype slice) ->
  forallb (plainValue (Elem (vtype slice))) ds = true ->
  marshalElems rec ctx slice ds = Ok bytes ->
  unmarshalElems rec' ctx' slice' (repeat (Zero (Elem (vtype slice))) (length ds))
                 (bytes ++ rest)
  = Ok (ds, rest).
Proof.
  intros Hrec He. revert bytes.
  induction ds as [|x ds IH]; intros bytes Hp Hm; cbn in Hp.
  - cbn in Hm. injection Hm as <-. reflexivity.
  - apply andb_prop in Hp. destruct Hp as [Hx Hrest].
    cbn [marshalElems] in Hm.
    destruct (rec (mkValue (Elem (vtype slice)) x true) (Some (beginSliceElemCtx ctx slice)))
      as [b|] eqn:Hb; cbn [bind] in Hm; [|discriminate].
    destruct (marshalElems rec ctx slice ds) as [bs|] eqn:Hbs; cbn [bind] in Hm;
      [|discriminate].
    injection Hm as <-.
    cbn [length repeat unmarshalElems]. rewrite He, <- app_assoc.
    rewrite (Hrec _ x true (Some (beginSliceElemCtx ctx slice))
                  (Some (beginSliceElemCtx ctx' slice')) b (bs ++ rest)
                  Hx (conj eq_refl eq_refl) (conj eq_refl eq_refl) Hb).
    cbn [bind fst snd]. rewrite (IH bs Hrest eq_refl). reflexivity.
Qed.

Lemma marshalValue_inverts `{Reflection} (fuel : nat) :
  inverts (marshalValue fuel) (unmarshalValue fuel).
Proof.
  induction fuel as [|fuel IH]; intros t d a ctx ctx' bytes rest Hp Hc Hc' Hm;
    [discriminate|].
  cbn [marshalValue unmarshalValue] in *. cbn [vtype vdata vaddr] in *.
  rewrite (plainValue_no_custom t d Hp) in *.
  destruct (plainContext_enter ctx Hc) as [Hs Hr].
  destruct (plainContext_enter ctx' Hc') as [Hs' Hr'].
  rewrite Hs in Hm. rewrite Hs'.
  destruct t as [[|] n| |e|fs|f0 alts|e| |id u| |]; destruct d as [v|b|p|xs|sl|i|];
    cbn -[isSizedBuffer Z.pow] in Hp; try discriminate.
  - (* unsigned integer *)
    cbn in Hm. injection Hm as <-. cbn.
    apply andb_prop in Hp. destruct Hp as [Hlo Hhi].
    apply Z.leb_le in Hlo. apply Z.ltb_lt in Hhi.
    rewrite readN_exact by apply length_be.
    rewrite decode_be_be by lia. reflexivity.
  - (* boolean *)
    cbn in Hm. injection Hm as <-. destruct b; reflexivity.
  - (* pointer *)
    destruct p as [x|]; [|discriminate].
    cbn [kindOf] in *. unfold marshalPtr in Hm. unfold unmarshalPtr.
    cbn [vdata vtype vaddr Zero Elem negb] in *.
    rewrite (IH e x true
               (Some (beginPtrElemCtx (enter ctx) (mkValue (Ptr e) (VPtr (Some x)) a)))
               (Some (beginPtrElemCtx (enter ctx')
                        (mkValue (Ptr e) (VPtr (Some (Zero e))) true)))
               bytes rest Hp (conj Hs Hr) (conj Hs' Hr') Hm).
    reflexivity.
  - (* structure *)
    cbn [kindOf] in *. unfold marshalStruct in Hm. unfold unmarshalStruct.
    cbn [vtype vdata isUnion Zero] in *.
    rewrite (fields_round_trip (marshalValue fuel) (unmarshalValue fuel) (enter ctx)
               (enter ctx') (mkValue (Struct fs) (VStruct xs) a)
               (mkValue (Struct fs)
                  (VStruct (map (fun f => match f with (_, _, ft) => Zero ft end) fs)) true)
               fs xs bytes rest IH eq_refl Hp Hm []).
    reflexivity.
  - (* slice *)
    destruct sl as [ds|]; [|discriminate].
    apply andb_prop in Hp. destruct Hp as [Hl Hall]. apply Z.ltb_lt in Hl.
    cbn [kindOf] in *. unfold marshalSlice in Hm. unfold unmarshalSlice.
    cbn [vtype vdata vaddr elems bind Zero IsNil negb] in *.
    rewrite Hr in Hm. rewrite Hr'.
    destruct (marshalElems (marshalValue fuel) (enter ctx)
                (mkValue (Slice e) (VSlice (Some ds)) a) ds) as [body|] eqn:Hb;
      cbn [bind] in Hm; [|discriminate].
    injection Hm as <-.
    pose proof (elems_round_trip (marshalValue fuel) (unmarshalValue fuel) (enter ctx)
                  (enter ctx') (mkValue (Slice e) (VSlice (Some ds)) a)
                  (mkValue (Slice e)
                     (VSlice (Some (repeat (Zero e) (length ds)))) true)
                  ds body rest IH eq_refl Hall Hb) as Hel.
    cbn [vtype Elem] in Hel.
    destruct (isSizedBuffer (Slice e)).
    + match goal with
      | |- context [([?h1; ?h2] ++ body) ++ rest] =>
        change [h1; h2] with (be 2 (wrap16 (Z.of_nat (length ds))))
      end.
      rewrite <- app_assoc, readN_exact by apply length_be. cbn [bind fst snd].
      unfold wrap16. rewrite (Z.mod_small (Z.of_nat (length ds)) (2 ^ 16)) by lia.
      rewrite decode_be_be by (simpl; lia). rewrite Nat2Z.id.
      cbn [Elem vtype]. rewrite Hel. reflexivity.
    + match goal with
      | |- context [([?h1; ?h2; ?h3; ?h4] ++ body) ++ rest] =>
        change [h1; h2; h3; h4] with (be 4 (wrap32 (Z.of_nat (length ds))))
      end.
      rewrite <- app_assoc, readN_exact by apply length_be. cbn [bind fst snd].
      unfold wrap32. rewrite (Z.mod_small (Z.of_nat (length ds)) (2 ^ 32)) by lia.
      rewrite decode_be_be by (simpl; lia). rewrite Nat2Z.id.
      cbn [Elem vtype]. rewrite Hel. reflexivity.
Qed.

(** What [MarshalToBytes] writes for a plain value, [UnmarshalFromBytes]
    reads back into a pointer to a zero value: it returns the value, a nil
    error and the number of bytes that were written, whatever follows
    them. *)
Theorem unmarshal_marshal_plain `{Reflection} (fuel : nat) (t : type) (d : data)
  (bytes rest : list Z) :
  plainValue t d = true ->
  MarshalToBytes fuel [(t, d)] = Ok bytes ->
  UnmarshalFromBytes fuel (bytes ++ rest) [(Ptr t, VPtr (Some (Zero t)))]
  = (len bytes, None, [(Ptr t, VPtr (Some d))]).
Proof.
  intros Hp Hm. unfold MarshalToBytes in Hm. cbn [MarshalToWriter] in Hm.
  destruct (marshalValue fuel (ValueOf (t, d)) None) as [b|] eqn:Hb; cbn [bind] in Hm;
    [|discriminate].
  injection Hm as <-. rewrite app_nil_r.
  unfold UnmarshalFromBytes. cbn [UnmarshalFromReader ValueOf vtype vdata fst snd isPtr kindOf negb Elem].
  rewrite (marshalValue_inverts fuel t d false None None b rest Hp I I Hb).
  cbn [bind fst snd]. unfold len. rewrite length_app. f_equal. f_equal. lia.
Qed.

(** A point with the coordinates 01 02 and 03. *)
Lemma unmarshal_marshal_plain_witness :
  @UnmarshalFromBytes plain 4 ([0; 2; 1; 2; 0; 1; 3] ++ [9; 9])
    [(Ptr point, VPtr (Some (Zero point)))]
  = (7, None,
     [(Ptr point,
       VPtr (Some (VStruct [VSlice (Some [VInt 1; VInt 2]); VSlice (Some [VInt 3])])))]).
Proof.
  apply (@unmarshal_marshal_plain plain 4 point
           (VStruct [VSlice (Some [VInt 1; VInt 2]); VSlice (Some [VInt 3])])
           [0; 2; 1; 2; 0; 1; 3] [9; 9]); reflexivity.
Defined.

(** ** Further properties of the handle contexts *)

(** *** Invalidation *)

(** A dummy or permanent context is left as it is by [invalidate]. An
    object, NV index or session context that has been invalidated has the
    unassigned handle and its four-byte name, keeps its type tag, its
    payload and its authorization value, and invalidating it again changes
    nothing; the unassigned handle being a permanent handle, it is no
    longer accepted by [checkConsistency] (whose permanent case is the only
    one for such a handle, and is not the case of these contexts). *)
Theorem invalidate_rejected `{Platform} (c : HandleContext) :
  match c with
  | dummyContext _ | permanentContext _ => invalidate c = c
  | _ =>
    Handle (invalidate c) = HandleUnassigned
    /\ Name (invalidate c) = be 4 HandleUnassigned
    /\ Type' (contextOf (invalidate c)) = Type' (contextOf c)
    /\ Data (contextOf (invalidate c)) = Data (contextOf c)
    /\ GetAuthValue (invalidate c) = GetAuthValue c
    /\ invalidate (invalidate c) = invalidate c
    /\ (HandleType HandleUnassigned = HandleTypePermanent ->
        Type' (contextOf c) <> handleContextTypePermanent ->
        exists msg, checkConsistency (contextOf (invalidate c)) = Inconsistent msg)
  end.
Proof.
  assert (Hgoal : forall h : handleContext,
             HandleType HandleUnassigned = HandleTypePermanent ->
             Type' h <> handleContextTypePermanent ->
             exists msg, checkConsistency (invalidateContext h) = Inconsistent msg).
  { intros h Hu Hh. unfold checkConsistency, invalidateContext. cbn [Type' H N Data].
    apply Z.eqb_neq in Hh. rewrite Hh, Hu.
    destruct (Type' h =? handleContextTypeObject); [cbn; eauto|].
    destruct (Type' h =? handleContextTypeNvIndex); [cbn; eauto|].
    destruct (Type' h =? handleContextTypeSession); cbn; eauto. }
  destruct c as [h|r|r|r|h attrs]; try reflexivity;
    (repeat (split; [reflexivity|])); cbn [contextOf]; apply Hgoal.
Qed.

(** The context of the owner hierarchy, which [invalidate] leaves as it is,
    and the session of the examples, once invalidated. *)
Lemma invalidate_rejected_witness :
  @invalidate sim (makePermanentContext 0x40000001) = makePermanentContext 0x40000001
  /\ @Handle sim (invalidate sessionExampleContext) = 0x40000008
  /\ @Name sim (invalidate sessionExampleContext) = [0x40; 0; 0; 8]
  /\ Type' (contextOf (invalidate sessionExampleContext))
     = Type' (contextOf sessionExampleContext)
  /\ Data (contextOf (invalidate sessionExampleContext))
     = Data (contextOf sessionExampleContext)
  /\ GetAuthValue (invalidate sessionExampleContext) = GetAuthValue sessionExampleContext
  /\ invalidate (invalidate sessionExampleContext) = invalidate sessionExampleContext
  /\ exists msg,
       checkConsistency (contextOf (invalidate sessionExampleContext)) = Inconsistent msg.
Proof.
  split.
  - exact (@invalidate_rejected sim (makePermanentContext 0x40000001)).
  - pose proof (@invalidate_rejected sim sessionExampleContext) as P.
    destruct P as (P1 & P2 & P3 & P4 & P5 & P6 & P7).
    repeat (split; [assumption|]).
    apply P7; [reflexivity | vm_compute; discriminate].
Defined.

(** *** The attributes of an NV index context *)

(** A consistent NV index context stays consistent when its public area
    changes without a change of the name algorithm, since the name is
    computed anew. *)
Lemma renamed_consistent `{Platform} (r : resourceContext) (change : NVPublic -> NVPublic) :
  (forall p, NameAlg (change p) = NameAlg p) ->
  Type' (hc r) = handleContextTypeNvIndex ->
  checkConsistency (hc r) = Consistent ->
  exists c' p,
    renamed r change = Some c'
    /\ selectPayload (hc r) = NVPayload (Some p)
    /\ selectPayload (contextOf c') = NVPayload (Some (change p))
    /\ Handle c' = H (hc r)
    /\ GetAuthValue c' = authValue r
    /\ checkConsistency (contextOf c') = Consistent.
Proof.
  intros Halg Hty Hc.
  assert (E1 : (Type' (hc r) =? handleContextTypePermanent) = false)
    by (rewrite Hty; reflexivity).
  assert (E2 : (Type' (hc r) =? handleContextTypeObject) = false)
    by (rewrite Hty; reflexivity).
  assert (E3 : (Type' (hc r) =? handleContextTypeNvIndex) = true)
    by (rewrite Hty; reflexivity).
  unfold checkConsistency in Hc. rewrite E1, E2, E3 in Hc.
  destruct (HandleType (H (hc r)) =? HandleTypeNVIndex) eqn:Hh; cbn [negb] in Hc;
    [|discriminate].
  destruct (Data (hc r)) as [u|] eqn:Hd; [|discriminate].
  destruct (NV u) as [p|] eqn:Hn; [|discriminate].
  destruct (compareNVName p (N (hc r))) eqn:Hcmp; cbn [negb] in Hc; [|discriminate].
  unfold compareNVName, nvName in Hcmp.
  destruct (Supported (NameAlg p)) eqn:Hsup; [|discriminate].
  unfold renamed. rewrite Hd, Hn.
  eexists. exists p. split; [reflexivity|].
  split; [unfold selectPayload; rewrite Hty, Hd, Hn; reflexivity|].
  split; [unfold selectPayload; cbn [contextOf hc Type' Data NV]; rewrite Hty; reflexivity|].
  split; [reflexivity|]. split; [reflexivity|].
  unfold checkConsistency. cbn [contextOf hc Type' H N Data NV].
  rewrite E1, E2, E3, Hh. cbn [negb].
  unfold compareNVName, nvName. rewrite Halg, Hsup. cbn [negb].
  rewrite bytesEqual_refl. reflexivity.
Qed.

(** [SetAttr] and [ClearAttr] keep a consistent NV index context
    consistent: the attributes of its public area get the given bits set,
    or cleared, the name follows the public area, and the handle and the
    authorization value stay. *)
Theorem NV_attributes_consistent `{Platform} (r : resourceContext) (a : Z) :
  Type' (hc r) = handleContextTypeNvIndex ->
  checkConsistency (hc r) = Consistent ->
  exists p set cleared,
    selectPayload (hc r) = NVPayload (Some p)
    /\ SetAttr r a = Some set
    /\ selectPayload (contextOf set)
       = NVPayload (Some (withNVAttrs p (Z.lor (Attrs p) a)))
    /\ ClearAttr r a = Some cleared
    /\ selectPayload (contextOf cleared)
       = NVPayload (Some (withNVAttrs p (Z.land (Attrs p) (wrap32 (Z.lnot a)))))
    /\ Handle set = H (hc r) /\ Handle cleared = H (hc r)
    /\ GetAuthValue set = authValue r /\ GetAuthValue cleared = authValue r
    /\ checkConsistency (contextOf set) = Consistent
    /\ checkConsistency (contextOf cleared) = Consistent.
Proof.
  intros Hty Hc.
  destruct (renamed_consistent r (fun p => withNVAttrs p (Z.lor (Attrs p) a))
              (fun _ => eq_refl) Hty Hc) as (c1 & p & H1 & Hp & Hs1 & Hh1 & Ha1 & Hc1).
  destruct (renamed_consistent r
              (fun p => withNVAttrs p (Z.land (Attrs p) (wrap32 (Z.lnot a))))
              (fun _ => eq_refl) Hty Hc) as (c2 & p' & H2 & Hp' & Hs2 & Hh2 & Ha2 & Hc2).
  rewrite Hp in Hp'. injection Hp' as <-.
  exists p, c1, c2. unfold SetAttr, ClearAttr. tauto.
Qed.

(** The NV index of the examples, with the written bit. *)
Lemma NV_attributes_consistent_witness :
  exists p set cleared,
    @selectPayload sim (contextOf nvExampleContext) = NVPayload (Some p)
    /\ @SetAttr sim (mkResourceContext (contextOf nvExampleContext) [1; 2; 3]) 0x20000000
       = Some set
    /\ selectPayload (contextOf set)
       = NVPayload (Some (withNVAttrs p (Z.lor (Attrs p) 0x20000000)))
    /\ @ClearAttr sim (mkResourceContext (contextOf nvExampleContext) [1; 2; 3]) 0x20000000
       = Some cleared
    /\ selectPayload (contextOf cleared)
       = NVPayload (Some (withNVAttrs p (Z.land (Attrs p) (wrap32 (Z.lnot 0x20000000)))))
    /\ Handle set = 0x01500000 /\ Handle cleared = 0x01500000
    /\ GetAuthValue set = [1; 2; 3] /\ GetAuthValue cleared = [1; 2; 3]
    /\ checkConsistency (contextOf set) = Consistent
    /\ checkConsistency (contextOf cleared) = Consistent.
Proof.
  apply (@NV_attributes_consistent sim
           (mkResourceContext (contextOf nvExampleContext) [1; 2; 3]) 0x20000000).
  - reflexivity.
  - vm_compute. reflexivity.
Defined.
(** *** The attributes of a session context *)

Lemma attr_bit (attrs k : Z) :
  0 <= k -> (Z.land attrs (Z.shiftl 1 k) >? 0) = Z.testbit attrs k.
Proof. apply land_bit_gt0. Qed.

Lemma lor_if (c : bool) (r m : Z) :
  (if c then Z.lor r m else r) = Z.lor r (if c then m else 0).
Proof. destruct c; [reflexivity | rewrite Z.lor_0_r; reflexivity]. Qed.

Lemma if_orb_lor (x y : bool) (m : Z) :
  (if x || y then m else 0) = Z.lor (if x then m else 0) (if y then m else 0).
Proof. destruct x, y; cbn; rewrite ?Z.lor_diag, ?Z.lor_0_r; reflexivity. Qed.

Lemma lor_interchange (a b c d : Z) :
  Z.lor (Z.lor a b) (Z.lor c d) = Z.lor (Z.lor a c) (Z.lor b d).
Proof.
  rewrite <- !Z.lor_assoc. f_equal. rewrite !Z.lor_assoc. f_equal. apply Z.lor_comm.
Qed.

(** The form of [tpmAttrs]: the union of the TPM attributes of the bits
    that are set. *)
Lemma tpmAttrs_union `{SessionAttrTable} (attrs : Z) :
  tpmAttrs attrs
  = Z.lor (Z.lor (Z.lor (Z.lor (Z.lor
      (if Z.testbit attrs 0 then attrContinueSession else 0)
      (if Z.testbit attrs 1 then Z.lor attrAuditExclusive attrAudit else 0))
      (if Z.testbit attrs 2 then Z.lor attrAuditReset attrAudit else 0))
      (if Z.testbit attrs 3 then attrDecrypt else 0))
      (if Z.testbit attrs 4 then attrEncrypt else 0))
      (if Z.testbit attrs 5 then attrAudit else 0).
Proof.
  unfold tpmAttrs, AttrContinueSession, AttrAuditExclusive, AttrAuditReset,
    AttrCommandEncrypt, AttrResponseEncrypt, AttrAudit.
  rewrite !attr_bit by lia. rewrite !lor_if. rewrite Z.lor_0_l. reflexivity.
Qed.

(** The TPM attributes of a session follow its attributes bit by bit:
    those of a union of attributes (as [IncludeAttrs] forms it) are the
    union of the TPM attributes of its parts, and a session with any of
    the attributes audit-exclusive, audit-reset and audit carries the
    audit attribute of the TPM. *)
Theorem tpmAttrs_include `{SessionAttrTable} (attrs0 attrs : Z) :
  tpmAttrs (Z.lor attrs0 attrs) = Z.lor (tpmAttrs attrs0) (tpmAttrs attrs)
  /\ (Z.testbit attrs 1 || Z.testbit attrs 2 || Z.testbit attrs 5 = true ->
      Z.land (tpmAttrs attrs) attrAudit = attrAudit).
Proof.
  split.
  - rewrite !tpmAttrs_union, !Z.lor_spec, !if_orb_lor. symmetry.
    repeat (rewrite lor_interchange; f_equal).
  - intros Hb. rewrite tpmAttrs_union.
    apply Z.bits_inj'. intros n _. rewrite Z.land_spec, !Z.lor_spec.
    destruct (Z.testbit attrs 1), (Z.testbit attrs 2), (Z.testbit attrs 5);
      try discriminate Hb;
      rewrite ?Z.lor_spec; destruct (Z.testbit attrAudit n);
      rewrite ?orb_true_r, ?andb_true_r, ?andb_false_r; reflexivity.
Qed.

(** The attributes audit-exclusive and response-encrypt, included into
    continue-session. *)
Lemma tpmAttrs_include_witness :
  @tpmAttrs tcgSessionAttrs (Z.lor 1 18)
  = Z.lor (@tpmAttrs tcgSessionAttrs 1) (@tpmAttrs tcgSessionAttrs 18)
  /\ Z.land (@tpmAttrs tcgSessionAttrs 18) 0x80 = 0x80.
Proof.
  destruct (@tpmAttrs_include tcgSessionAttrs 1 18) as [Hu Ha].
  split; [exact Hu | apply Ha; reflexivity].
Defined.
(** *** Permanent contexts *)

Lemma HandleType_PCR_iff (h : Z) :
  0 <= h -> (HandleType h =? HandleTypePCR) = (h <? 2 ^ 24).
Proof.
  intros Hh. unfold HandleType, HandleTypePCR. rewrite Z.shiftr_div_pow2 by lia.
  destruct (Z.ltb_spec h (2 ^ 24)) as [Hlt|Hge].
  - rewrite Z.div_small by lia. reflexivity.
  - apply Z.eqb_neq. intros Hq.
    assert (2 ^ 24 * (h / 2 ^ 24) <= h) by (apply Z.mul_div_le; lia).
    assert (h < 2 ^ 24 * (h / 2 ^ 24 + 1))
      by (apply Z.mul_succ_div_gt; lia).
    lia.
Qed.

Lemma makePermanentContext_consistent `{Platform} (handle : Z) :
  0 <= handle < 2 ^ 32 ->
  (HandleType handle =? HandleTypePermanent) || (HandleType handle =? HandleTypePCR) = true ->
  checkConsistency (contextOf (makePermanentContext handle)) = Consistent.
Proof.
  intros Hh Hty. unfold checkConsistency, makePermanentContext.
  cbn [contextOf hc Type' H N]. cbn [handleContextTypePermanent Z.eqb Pos.eqb].
  rewrite (orb_comm (HandleType handle =? HandleTypePCR)), Hty. cbn [negb].
  unfold IsHandle, NameHandle, handleName. rewrite length_be.
  rewrite decode_be_be by (simpl; lia). rewrite Z.eqb_refl. reflexivity.
Qed.

(** [GetPermanentContext] interns the context of a permanent or PCR
    handle: it returns the context that the map holds for the handle, or
    stores and returns a fresh one, which has the handle, no
    authorization value and passes [checkConsistency]; afterwards the map
    holds the returned context under the handle, every other entry is as
    before, and a second call returns the same context and leaves the
    map as it is. *)
Theorem GetPermanentContext_interns `{Platform} (permanentResources : gmap Z HandleContext)
  (handle : Z) (rc : HandleContext) (resources' : gmap Z HandleContext) :
  GetPermanentContext permanentResources handle = Some (rc, resources') ->
  resources' !! handle = Some rc
  /\ (forall k, k <> handle -> resources' !! k = permanentResources !! k)
  /\ GetPermanentContext resources' handle = Some (rc, resources')
  /\ (forall rc0, permanentResources !! handle = Some rc0 ->
                  rc = rc0 /\ resources' = permanentResources)
  /\ (permanentResources !! handle = None ->
      rc = makePermanentContext handle
      /\ Handle rc = handle
      /\ GetAuthValue rc = []
      /\ (0 <= handle < 2 ^ 32 -> checkConsistency (contextOf rc) = Consistent)).
Proof.
  unfold GetPermanentContext.
  destruct ((HandleType handle =? HandleTypePermanent)
            || (HandleType handle =? HandleTypePCR)) eqn:Hty; [|discriminate].
  destruct (permanentResources !! handle) as [rc0|] eqn:Hl; intros Hq;
    injection Hq as <- <-.
  - split; [exact Hl|]. split; [reflexivity|]. split; [rewrite Hl; reflexivity|].
    split; [intros rc1 Hq; injection Hq as <-; split; reflexivity | discriminate].
  - split; [apply lookup_insert_eq|].
    split; [intros k Hk; apply lookup_insert_ne; congruence|].
    split; [rewrite lookup_insert_eq; reflexivity|].
    split; [discriminate|]. intros _.
    split; [reflexivity|]. split; [reflexivity|]. split; [reflexivity|].
    intros Hh. apply makePermanentContext_consistent; assumption.
Qed.

(** The owner hierarchy, interned into an empty map. *)
Lemma GetPermanentContext_interns_witness :
  @GetPermanentContext sim (<[0x40000001 := @makePermanentContext sim 0x40000001]> ∅)
    0x40000001
  = Some (@makePermanentContext sim 0x40000001,
          <[0x40000001 := @makePermanentContext sim 0x40000001]> ∅).
Proof.
  apply (@GetPermanentContext_interns sim ∅ 0x40000001). reflexivity.
Defined.

(** [PCRHandleContext] panics exactly when the index, converted to 32
    bits, is 2^24 or more; otherwise it is [GetPermanentContext] for the
    handle that equals the index. *)
Theorem PCRHandleContext_range `{Platform} (permanentResources : gmap Z HandleContext)
  (pcr : Z) :
  (PCRHandleContext permanentResources pcr = None <-> 2 ^ 24 <= pcr mod 2 ^ 32)
  /\ (pcr mod 2 ^ 32 < 2 ^ 24 ->
      PCRHandleContext permanentResources pcr
      = GetPermanentContext permanentResources (pcr mod 2 ^ 32)).
Proof.
  pose proof (Z.mod_pos_bound pcr (2 ^ 32) ltac:(lia)) as Hb.
  unfold PCRHandleContext, wrap32.
  rewrite (HandleType_PCR_iff (pcr mod 2 ^ 32)) by lia.
  destruct (Z.ltb_spec (pcr mod 2 ^ 32) (2 ^ 24)) as [Hlt|Hge]; cbn [negb].
  - split; [|reflexivity]. split; [|lia].
    unfold GetPermanentContext.
    rewrite (HandleType_PCR_iff (pcr mod 2 ^ 32)) by lia.
    apply Z.ltb_lt in Hlt. rewrite Hlt, orb_true_r.
    destruct (permanentResources !! (pcr mod 2 ^ 32)); discriminate.
  - split; [split; [intros _; exact Hge | reflexivity] | lia].
Qed.

(** The context of PCR 7. *)
Lemma PCRHandleContext_range_witness :
  @PCRHandleContext sim ∅ 7 = @GetPermanentContext sim ∅ (7 mod 2 ^ 32).
Proof.
  apply (@PCRHandleContext_range sim ∅ 7). reflexivity.
Defined.
(** *** Contexts from a public area *)

(** [CreateNVIndexResourceContextFromPublic] returns a context exactly
    when the name algorithm of the public area is supported and its index
    is an NV index handle; the context then has the index as its handle,
    the name computed from the public area, the public area as its
    payload and no authorization value, and it passes
    [checkConsistency]. *)
Theorem CreateNVIndexResourceContextFromPublic_spec `{Platform} (pub : NVPublic) :
  (Supported (NameAlg pub) = true /\ HandleType (Index pub) = HandleTypeNVIndex
   <-> exists rc, CreateNVIndexResourceContextFromPublic pub = Built rc)
  /\ (forall rc,
        CreateNVIndexResourceContextFromPublic pub = Built rc ->
        Handle rc = Index pub
        /\ nvName pub = Ok (Name rc)
        /\ selectPayload (contextOf rc) = NVPayload (Some pub)
        /\ GetAuthValue rc = []
        /\ checkConsistency (contextOf rc) = Consistent).
Proof.
  unfold CreateNVIndexResourceContextFromPublic, checkedContext.
  destruct (nvName pub) as [name|msg] eqn:Hn.
  - assert (Hsup : Supported (NameAlg pub) = true).
    { unfold nvName in Hn. destruct (Supported (NameAlg pub)); [reflexivity | discriminate]. }
    assert (Hc : checkConsistency (contextOf (makeNVIndexContext name pub))
                 = if HandleType (Index pub) =? HandleTypeNVIndex then Consistent
                   else Inconsistent "inconsistent handle type for NV context").
    { unfold checkConsistency, makeNVIndexContext.
      cbn [contextOf hc Type' H N Data NV handleContextTypeNvIndex
           handleContextTypePermanent handleContextTypeObject Z.eqb Pos.eqb].
      destruct (HandleType (Index pub) =? HandleTypeNVIndex); cbn [negb]; [|reflexivity].
      unfold compareNVName. rewrite Hn, bytesEqual_refl. reflexivity. }
    rewrite Hc.
    destruct (Z.eqb_spec (HandleType (Index pub)) HandleTypeNVIndex) as [Hty|Hty].
    + split.
      * split; [intros _; eexists; reflexivity | intros _; split; assumption].
      * intros rc Hq. injection Hq as <-.
        split; [reflexivity|]. split; [reflexivity|]. split; [reflexivity|].
        split; [reflexivity|]. exact Hc.
    + split; [|discriminate].
      split; [intros [_ Hq]; contradiction | intros [rc Hq]; discriminate].
  - assert (Hsup : Supported (NameAlg pub) = false).
    { unfold nvName in Hn. destruct (Supported (NameAlg pub)); [discriminate | reflexivity]. }
    split; [|discriminate].
    split; [intros [Hq _]; congruence | intros [rc Hq]; discriminate].
Qed.

(** [CreateObjectResourceContextFromPublic] returns a context exactly
    when the name of the public area can be computed and the handle is a
    transient or persistent handle; the context then has the handle, the
    computed name, the public area as its payload and no authorization
    value, and it passes [checkConsistency]. *)
Theorem CreateObjectResourceContextFromPublic_spec `{Platform} (handle : Z) (pub : Public) :
  ((exists name, publicName pub = Ok name)
   /\ (HandleType handle = HandleTypeTransient \/ HandleType handle = HandleTypePersistent)
   <-> exists rc, CreateObjectResourceContextFromPublic handle pub = Built rc)
  /\ (forall rc,
        CreateObjectResourceContextFromPublic handle pub = Built rc ->
        Handle rc = handle
        /\ publicName pub = Ok (Name rc)
        /\ selectPayload (contextOf rc) = ObjectPayload (Some pub)
        /\ GetAuthValue rc = []
        /\ checkConsistency (contextOf rc) = Consistent).
Proof.
  unfold CreateObjectResourceContextFromPublic, checkedContext.
  destruct (publicName pub) as [name|msg] eqn:Hn.
  - assert (Hc : checkConsistency (contextOf (makeObjectContext handle name (Some pub)))
                 = if (HandleType handle =? HandleTypeTransient)
                      || (HandleType handle =? HandleTypePersistent)
                   then Consistent
                   else Inconsistent "inconsistent handle type for object context").
    { unfold checkConsistency, makeObjectContext.
      cbn [contextOf hc Type' H N Data Object handleContextTypeNvIndex
           handleContextTypePermanent handleContextTypeObject Z.eqb Pos.eqb].
      destruct ((HandleType handle =? HandleTypeTransient)
                || (HandleType handle =? HandleTypePersistent)); cbn [negb]; [|reflexivity].
      unfold comparePublicName. rewrite Hn, bytesEqual_refl. reflexivity. }
    rewrite Hc.
    destruct ((HandleType handle =? HandleTypeTransient)
              || (HandleType handle =? HandleTypePersistent)) eqn:Hty.
    + split.
      * split; [intros _; eexists; reflexivity|]. intros _. split; [eauto|].
        apply orb_prop in Hty. destruct Hty as [Hty|Hty]; apply Z.eqb_eq in Hty; auto.
      * intros rc Hq. injection Hq as <-.
        split; [reflexivity|]. split; [reflexivity|]. split; [reflexivity|].
        split; [reflexivity|]. exact Hc.
    + split; [|discriminate].
      split; [|intros [rc Hq]; discriminate].
      intros [_ [Hq|Hq]]; rewrite Hq in Hty; cbn in Hty;
        rewrite ?orb_true_r in Hty; discriminate.
  - split; [|discriminate].
    split; [intros [[name Hq] _]; discriminate | intros [rc Hq]; discriminate].
Qed.

(** *** What a restore returns *)

Lemma readU_suffix (n : nat) (buf : list Z) (v : Z) (rest : list Z) :
  readU n buf = Ok (v, rest) -> exists used, buf = used ++ rest.
Proof.
  unfold readU. destruct (readN n buf) as [[bs rest']|] eqn:Hr; [|discriminate].
  intros Hq. injection Hq as _ <-. exists bs. apply (readN_app n). exact Hr.
Qed.

Lemma readSized_suffix (buf b rest : list Z) :
  readSized buf = Ok (b, rest) -> exists used, buf = used ++ rest.
Proof.
  unfold readSized.
  destruct (readU 2 buf) as [[l rest1]|] eqn:Hl; cbn [bind fst snd]; [|discriminate].
  destruct (readN (Z.to_nat l) rest1) as [[bs rest2]|] eqn:Hr; [|discriminate].
  intros Hq. injection Hq as _ <-.
  destruct (readU_suffix _ _ _ _ Hl) as [u1 ->].
  apply readN_app in Hr. subst rest1. exists (u1 ++ bs). rewrite app_assoc. reflexivity.
Qed.

(** Whatever the bytes, a context that [CreateHandleContextFromReader]
    returns is an object, NV index or session context, never a dummy or
    a permanent one; its type tag agrees with its kind, it passes
    [checkConsistency], its authorization value is empty and, for a
    session, its attributes are zero; the reader is left with a suffix of
    the input. *)
Theorem restored_context_kind `{Platform} (r : list Z) (c : HandleContext) (rest : list Z) :
  CreateHandleContextFromReader r = Ok (c, rest) ->
  match c with
  | objectContext x => Type' (hc x) = handleContextTypeObject
  | nvIndexContext x => Type' (hc x) = handleContextTypeNvIndex
  | sessionContext h attrs => Type' h = handleContextTypeSession /\ attrs = 0
  | _ => False
  end
  /\ checkConsistency (contextOf c) = Consistent
  /\ GetAuthValue c = []
  /\ exists used, r = used ++ rest.
Proof.
  intros Hr.
  destruct (restore_inv r c rest Hr)
    as (alg & integrity & b & data & Hu & _ & _ & _ & _ & Hc & Hv).
  assert (Hsuf : exists used, r = used ++ rest).
  { unfold unpack in Hu.
    destruct (readU 2 r) as [[a r1]|] eqn:H1; cbn [bind fst snd] in Hu; [|discriminate].
    destruct (readSized r1) as [[i r2]|] eqn:H2; cbn [bind fst snd] in Hu; [|discriminate].
    destruct (readSized r2) as [[b' r3]|] eqn:H3; cbn [bind fst snd] in Hu; [|discriminate].
    injection Hu as _ _ _ <-.
    destruct (readU_suffix _ _ _ _ H1) as [u1 ->].
    destruct (readSized_suffix _ _ _ H2) as [u2 ->].
    destruct (readSized_suffix _ _ _ H3) as [u3 ->].
    exists (u1 ++ u2 ++ u3). rewrite <- !app_assoc. reflexivity. }
  destruct Hv as [[-> Hty]|[[-> Hty]|[-> Hty]]]; cbn [contextOf hc GetAuthValue authValue];
    repeat split; assumption.
Qed.

(** The serialized NV index context of the examples, followed by one
    more byte. *)
Lemma restored_context_kind_witness :
  Type' (contextOf nvExampleContext) = handleContextTypeNvIndex
  /\ @checkConsistency sim (contextOf nvExampleContext) = Consistent
  /\ @GetAuthValue sim (nvIndexContext (mkResourceContext (contextOf nvExampleContext) []))
     = []
  /\ exists used, @blobOf sim nvExampleBody ++ [7] = used ++ [7].
Proof.
  apply (@restored_context_kind sim (@blobOf sim nvExampleBody ++ [7])
           (nvIndexContext (mkResourceContext (contextOf nvExampleContext) [])) [7]).
  reflexivity.
Defined.

(** *** Contexts that are read back or made incomplete *)

(** A round that succeeds gives a context of the queried handle, without
    authorization value, that passes [checkConsistency]. *)
Lemma readContext_consistent `{Platform} (t : TPMContext) (handle : Z) (i : nat)
  (rc rc' : HandleContext) (s : list HandleContext) :
  readable handle ->
  Handle rc = handle ->
  readContext t handle i rc s = Ok rc' ->
  Handle rc' = handle /\ GetAuthValue rc' = []
  /\ checkConsistency (contextOf rc') = Consistent.
Proof.
  intros Hrd Hh. unfold readContext, makeNVIndexContextFromTPM, makeObjectContextFromTPM.
  destruct (Z.eqb_spec (HandleType handle) HandleTypeNVIndex) as [Hnv|Hnv].
  - destruct (NVReadPublic t i (Handle rc) s) as [[pub name]|e]; [|discriminate].
    destruct (nvName pub) as [n|e] eqn:Hn; [|discriminate].
    destruct (bytesEqual n name) eqn:Hb; cbn [negb]; [|discriminate].
    apply bytesEqual_eq in Hb. subst n. rewrite Hh.
    destruct (Z.eqb_spec (Index pub) handle) as [Hi|Hi]; cbn [negb]; [|discriminate].
    intros Hq. injection Hq as <-.
    split; [exact Hi|]. split; [reflexivity|].
    unfold checkConsistency, makeNVIndexContext.
    cbn [contextOf hc Type' H N Data NV handleContextTypeNvIndex
         handleContextTypePermanent handleContextTypeObject Z.eqb Pos.eqb].
    rewrite Hi, Hnv, Z.eqb_refl. cbn [negb].
    unfold compareNVName. rewrite Hn, bytesEqual_refl. reflexivity.
  - destruct (ReadPublic t i (Handle rc) s) as [[pub name]|e]; [|discriminate].
    destruct (publicName pub) as [n|e] eqn:Hn; [|discriminate].
    destruct (bytesEqual n name) eqn:Hb; cbn [negb]; [|discriminate].
    apply bytesEqual_eq in Hb. subst n. rewrite Hh.
    intros Hq. injection Hq as <-.
    split; [reflexivity|]. split; [reflexivity|].
    unfold checkConsistency, makeObjectContext.
    cbn [contextOf hc Type' H N Data Object handleContextTypeNvIndex
         handleContextTypePermanent handleContextTypeObject Z.eqb Pos.eqb].
    assert (Hty : (HandleType handle =? HandleTypeTransient)
                  || (HandleType handle =? HandleTypePersistent) = true).
    { destruct Hrd as [Hq | [Hq | Hq]]; [contradiction | |]; rewrite Hq;
        rewrite ?orb_true_r; reflexivity. }
    rewrite Hty. cbn [negb].
    unfold comparePublicName. rewrite Hn, bytesEqual_refl. reflexivity.
Qed.

Lemma createLoop_consistent `{ResponseCodeTable} `{Platform} (t : TPMContext) (handle : Z)
  (sessions : list HandleContext) (n i : nat) (rc0 rc : HandleContext)
  (s : list HandleContext) :
  readable handle ->
  Handle rc0 = handle ->
  createLoop t handle sessions (S n) i rc0 s = Created rc ->
  Handle rc = handle /\ GetAuthValue rc = []
  /\ checkConsistency (contextOf rc) = Consistent.
Proof.
  intros Hrd. revert i rc0 s. induction n as [|n IH]; intros i rc0 s Hh;
    rewrite createLoop_step.
  - destruct (readContext t handle i rc0 s) as [rc1|e] eqn:Hr.
    + pose proof (readContext_consistent t handle i rc0 rc1 s Hrd Hh Hr) as P.
      destruct (length sessions =? 0)%nat; cbn [createLoop];
        intros Hq; injection Hq as <-; exact P.
    + destruct (IsTPMWarning (Some e) WarningReferenceH0 AnyCommandCode); [discriminate|].
      destruct (IsTPMHandleError (Some e) ErrorHandle AnyCommandCode AnyHandleIndex);
        discriminate.
  - destruct (readContext t handle i rc0 s) as [rc1|e] eqn:Hr.
    + pose proof (readContext_consistent t handle i rc0 rc1 s Hrd Hh Hr) as P.
      destruct (length sessions =? 0)%nat.
      * intros Hq. injection Hq as <-. exact P.
      * apply IH. apply P.
    + destruct (IsTPMWarning (Some e) WarningReferenceH0 AnyCommandCode); [discriminate|].
      destruct (IsTPMHandleError (Some e) ErrorHandle AnyCommandCode AnyHandleIndex);
        discriminate.
Qed.

(** [CreateResourceContextFromTPM] panics exactly for a handle that is
    not an NV index, transient or persistent handle; a context that it
    returns has the queried handle and no authorization value, and it
    passes [checkConsistency]. *)
Theorem created_context_consistent `{ResponseCodeTable} `{Platform} (t : TPMContext)
  (handle : Z) (sessions : list HandleContext) :
  (CreateResourceContextFromTPM t handle sessions = CreatePanic <-> ~ readable handle)
  /\ (forall rc,
        CreateResourceContextFromTPM t handle sessions = Created rc ->
        Handle rc = handle /\ GetAuthValue rc = []
        /\ checkConsistency (contextOf rc) = Consistent).
Proof.
  unfold CreateResourceContextFromTPM.
  destruct ((HandleType handle =? HandleTypeNVIndex)
            || (HandleType handle =? HandleTypeTransient)
            || (HandleType handle =? HandleTypePersistent)) eqn:Hty.
  - assert (Hrd : readable handle).
    { apply orb_prop in Hty. destruct Hty as [Hty|Hty];
        [apply orb_prop in Hty; destruct Hty as [Hty|Hty]|];
        apply Z.eqb_eq in Hty; unfold readable; auto. }
    split.
    + split; [|intros Hn; contradiction].
      intros Hq. exfalso. rewrite createLoop_step in Hq.
      destruct (readContext t handle 0 (makeDummyContext handle) []) as [rc1|e].
      * destruct (length sessions =? 0)%nat; [discriminate|].
        rewrite createLoop_step in Hq.
        destruct (readContext t handle 1 rc1 sessions) as [rc2|e].
        -- destruct (length sessions =? 0)%nat; discriminate.
        -- destruct (IsTPMWarning (Some e) WarningReferenceH0 AnyCommandCode);
             [discriminate|].
           destruct (IsTPMHandleError (Some e) ErrorHandle AnyCommandCode AnyHandleIndex);
             discriminate.
      * destruct (IsTPMWarning (Some e) WarningReferenceH0 AnyCommandCode);
          [discriminate|].
        destruct (IsTPMHandleError (Some e) ErrorHandle AnyCommandCode AnyHandleIndex);
          discriminate.
    + intros rc Hq.
      apply (createLoop_consistent t handle sessions 1 0 (makeDummyContext handle) rc []
               Hrd eq_refl Hq).
  - split; [|discriminate]. split; [|reflexivity].
    intros _ [Hq | [Hq | Hq]]; rewrite Hq in Hty; cbn in Hty;
      rewrite ?orb_true_r in Hty; discriminate.
Qed.

(** [CreateIncompleteSessionContext] panics exactly for a handle that is
    neither an HMAC nor a policy session handle; the context it returns
    has the handle, the four-byte name of the handle and no session data,
    and a handle of 32 bits makes it pass [checkConsistency]. *)
Theorem CreateIncompleteSessionContext_spec `{Platform} (handle : Z) :
  (CreateIncompleteSessionContext handle = None
   <-> HandleType handle <> HandleTypeHMACSession
       /\ HandleType handle <> HandleTypePolicySession)
  /\ (forall c,
        CreateIncompleteSessionContext handle = Some c ->
        Handle c = handle /\ Name c = be 4 handle
        /\ selectPayload (contextOf c) = SessionPayload None
        /\ (0 <= handle < 2 ^ 32 -> checkConsistency (contextOf c) = Consistent)).
Proof.
  unfold CreateIncompleteSessionContext.
  destruct (Z.eqb_spec (HandleType handle) HandleTypeHMACSession) as [Hh|Hh];
    [|destruct (Z.eqb_spec (HandleType handle) HandleTypePolicySession) as [Hp|Hp]];
    cbn [orb].
  - split; [split; [discriminate | intros [Hq _]; contradiction]|].
    intros c Hq. injection Hq as <-.
    split; [reflexivity|]. split; [reflexivity|]. split; [reflexivity|].
    intros Hr. unfold checkConsistency, makeSessionContext.
    cbn [contextOf Type' H N Data Session handleContextTypeSession handleContextTypeNvIndex
         handleContextTypePermanent handleContextTypeObject Z.eqb Pos.eqb].
    rewrite Hh. cbn [HandleTypeHMACSession Z.eqb Pos.eqb orb negb].
    unfold IsHandle, NameHandle, handleName. rewrite length_be.
    rewrite decode_be_be by (simpl; lia). rewrite Z.eqb_refl. reflexivity.
  - split; [split; [discriminate | intros [_ Hq]; contradiction]|].
    intros c Hq. injection Hq as <-.
    split; [reflexivity|]. split; [reflexivity|]. split; [reflexivity|].
    intros Hr. unfold checkConsistency, makeSessionContext.
    cbn [contextOf Type' H N Data Session handleContextTypeSession handleContextTypeNvIndex
         handleContextTypePermanent handleContextTypeObject Z.eqb Pos.eqb].
    rewrite Hp. cbn [HandleTypePolicySession HandleTypeHMACSession Z.eqb Pos.eqb orb negb].
    unfold IsHandle, NameHandle, handleName. rewrite length_be.
    rewrite decode_be_be by (simpl; lia). rewrite Z.eqb_refl. reflexivity.
  - split; [|discriminate]. split; [intros _; split; assumption | reflexivity].
Qed.

(** ** The registry after [Clear] *)

Import Hierarchy.

(** The processing of the response removes the contexts under the handles
    of the sessions used without [AttrContinueSession], and nothing
    else. *)
Lemma invalidateSessions_lookup (sessions : list session)
  (resources : gmap Z ResourceContext) (key : Z) (rc : ResourceContext) :
  invalidateSessions sessions resources !! key = Some rc
  <-> resources !! key = Some rc /\ ~ In key (invalidated sessions).
Proof.
  unfold invalidateSessions, invalidated. revert resources.
  induction sessions as [|s sessions IH]; intros resources; cbn [fold_left List.filter map].
  - cbn. tauto.
  - rewrite IH. destruct (Z.land (sessionAttrs s) Resources.AttrContinueSession >? 0);
      cbn [negb map In]; [tauto|].
    unfold evictResourceContext, contextOfSession. cbn [Handle].
    rewrite lookup_delete_Some. split.
    + intros [[Hne Hr] Hn]. split; [exact Hr|]. intros [He | Hi]; [congruence | tauto].
    + intros [Hr Hn]. split; [split; [|exact Hr] |]; intros Hq; apply Hn; [left | right]; auto.
Qed.

(** One round of the loop removes the entry it visits unless the switch
    continues, and nothing else. *)
Lemma clearStep_lookup `{NVAttributeTable} (handles : gset Z) (resources : gmap Z ResourceContext)
  (entry : Z * ResourceContext) (key : Z) (rc : ResourceContext) :
  Handle (snd entry) = fst entry ->
  clearStep handles resources entry !! key = Some rc
  <-> resources !! key = Some rc
      /\ (key = fst entry -> continues handles (snd entry) = true).
Proof.
  intros Hk. unfold clearStep, evictResourceContext.
  destruct (resources !! fst entry) eqn:Hl.
  - destruct (continues handles (snd entry)) eqn:Hc.
    + split; [intros Hr; split; [exact Hr | reflexivity] | intros [Hr _]; exact Hr].
    + rewrite Hk, lookup_delete_Some. split.
      * intros [Hne Hr]. split; [exact Hr | intros ->; contradiction].
      * intros [Hr Hi]. split; [|exact Hr]. intros <-. specialize (Hi eq_refl). discriminate.
  - split; [|intros [Hr _]; exact Hr].
    intros Hr. split; [exact Hr|]. intros ->. congruence.
Qed.

(** The loop over any list of entries that sit under their handles. *)
Lemma clearLoop_lookup `{NVAttributeTable} (handles : gset Z)
  (order : list (Z * ResourceContext)) (resources : gmap Z ResourceContext)
  (key : Z) (rc : ResourceContext) :
  (forall entry, In entry order -> Handle (snd entry) = fst entry) ->
  fold_left (clearStep handles) order resources !! key = Some rc
  <-> resources !! key = Some rc
      /\ (forall rc', In (key, rc') order -> continues handles rc' = true).
Proof.
  revert resources. induction order as [|entry order IH]; intros resources Hk.
  - cbn. split; [intros Hr; split; [exact Hr | contradiction] | intros [Hr _]; exact Hr].
  - cbn [fold_left]. rewrite IH by (intros e He; apply Hk; right; exact He).
    rewrite clearStep_lookup by (apply Hk; left; reflexivity).
    split.
    + intros [[Hr Hc] Hrest]. split; [exact Hr|].
      intros rc' [-> | Hin]; [apply (Hc eq_refl) | apply Hrest; exact Hin].
    + intros [Hr Hall]. split; [split; [exact Hr|] |].
      * intros ->. apply Hall. left. destruct entry; reflexivity.
      * intros rc' Hin. apply Hall. right. exact Hin.
Qed.

(** The set that [getHandles] fills holds what it held and the handles of
    the answer. *)
Lemma getHandles_elem (answer : result error (list Z)) (out handles : gset Z) :
  getHandles answer out = Ok handles ->
  exists l, answer = Ok l /\ forall h, h ∈ handles <-> In h l \/ h ∈ out.
Proof.
  unfold getHandles. destruct answer as [l|e]; [|discriminate].
  intros Hq. injection Hq as <-. exists l. split; [reflexivity|].
  revert out. induction l as [|x l IH]; intros out h; cbn [fold_left In].
  - split; [intros Hh; right; exact Hh | intros [[]|Hh]; exact Hh].
  - rewrite IH, elem_of_union, elem_of_singleton. split.
    + intros [Hh | [-> | Hh]]; auto.
    + intros [[-> | Hh] | Hh]; auto.
Qed.

(** The switch against the contexts that outlive the loop. *)
Lemma continues_survives `{NVAttributeTable} (handles : gset Z) (queried : list Z)
  (rc : ResourceContext) :
  0 <= platformCreateBit ->
  (forall h, h ∈ handles <-> In h queried) ->
  continues handles rc = true <-> survives [] queried rc.
Proof.
  intros Hb Hh. destruct rc as [h | h n | h n p | h n]; cbn [continues survives].
  - split; [discriminate | contradiction].
  - rewrite bool_decide_eq_true. apply Hh.
  - unfold AttrNVPlatformCreate. rewrite land_bit_gt0 by exact Hb. reflexivity.
  - split; [intros _ [] | reflexivity].
Qed.

(** A context under the handle of one of the sessions of the command is
    the context of that session. *)
Lemma registered_invalidated (sessions : list session) (resources : gmap Z ResourceContext)
  (key : Z) (rc : ResourceContext) :
  registered sessions resources ->
  resources !! key = Some rc ->
  In key (invalidated sessions) ->
  exists name, rc = sessionContext key name.
Proof.
  intros Hreg Hr Hi. unfold invalidated in Hi.
  apply in_map_iff in Hi. destruct Hi as (s & <- & Hs).
  apply filter_In in Hs. destruct Hs as [Hs _].
  apply Hreg in Hs. rewrite Hs in Hr. injection Hr as <-.
  exists (sessionName s). reflexivity.
Qed.

(** C6 (as amended): after a successful return of [Clear] the registry
    holds exactly these of its prior contexts, each under its handle as
    before: the session contexts other than those of the sessions that
    the command itself used without the continue-session attribute (which
    the processing of its response invalidates), the NV index contexts
    whose platform-created bit is set, and the object contexts whose
    handle is among the transient and persistent handles that the
    capability queries after the command returned. Every other context
    has been evicted, in whatever order the loop visits the registry. *)
Theorem Clear_registry `{NVAttributeTable} (t : pipeline)
  (order : list (Z * ResourceContext)) (resources resources' : gmap Z ResourceContext) :
  0 <= platformCreateBit ->
  wellKeyed resources ->
  registered (sessions t) resources ->
  Permutation order (map_to_list (invalidateSessions (sessions t) resources)) ->
  Clear t order resources = (None, resources') ->
  exists transient persistent,
    transientHandles t = Ok transient
    /\ persistentHandles t = Ok persistent
    /\ forall key rc,
         resources' !! key = Some rc
         <-> resources !! key = Some rc
             /\ survives (sessions t) (transient ++ persistent) rc.
Proof.
  intros Hb Hw Hreg Hp. unfold Clear.
  destruct (validateError t); [discriminate|].
  destruct (runError t); [discriminate|].
  destruct (processError t); [discriminate|].
  destruct (getHandles (transientHandles t) ∅) as [hs1|] eqn:H1; [|discriminate].
  destruct (getHandles (persistentHandles t) hs1) as [hs2|] eqn:H2; [|discriminate].
  intros Hq. injection Hq as <-.
  destruct (getHandles_elem _ _ _ H1) as (ts & Ht & Hts).
  destruct (getHandles_elem _ _ _ H2) as (ps & Hps & Hpss).
  exists ts, ps. split; [exact Ht | split; [exact Hps|]].
  set (r1 := invalidateSessions (sessions t) resources) in *.
  assert (Hin : forall key rc, In (key, rc) order <-> r1 !! key = Some rc).
  { intros key rc. rewrite <- list_elem_of_In, Hp. apply elem_of_map_to_list. }
  assert (Hhs : forall h, h ∈ hs2 <-> In h (ts ++ ps)).
  { intros h. rewrite Hpss, Hts, in_app_iff, elem_of_empty. tauto. }
  assert (Hsurv : forall key rc,
             resources !! key = Some rc ->
             (survives (sessions t) (ts ++ ps) rc
              <-> ~ In key (invalidated (sessions t)) /\ survives [] (ts ++ ps) rc)).
  { intros key rc Hr. pose proof (Hw key rc Hr) as Hk. split.
    - intros Hs. split.
      + intros Hi. destruct (registered_invalidated _ _ _ _ Hreg Hr Hi) as [name ->].
        cbn [survives] in Hs. contradiction.
      + destruct rc; cbn [survives] in *; auto.
    - intros [Hn Hs]. destruct rc; cbn [survives Handle] in *; auto. congruence. }
  intros key rc. rewrite clearLoop_lookup.
  - unfold r1 at 1. rewrite invalidateSessions_lookup. split.
    + intros [[Hr Hn] Hall]. split; [exact Hr|].
      apply (Hsurv key rc Hr). split; [exact Hn|].
      apply (continues_survives hs2); auto. apply Hall, Hin.
      unfold r1. apply invalidateSessions_lookup. split; assumption.
    + intros [Hr Hs]. apply (Hsurv key rc Hr) in Hs. destruct Hs as [Hn Hs].
      split; [split; assumption|]. intros rc' Hi.
      apply Hin in Hi. unfold r1 in Hi. apply invalidateSessions_lookup in Hi.
      destruct Hi as [Hi _]. assert (rc' = rc) by congruence. subst rc'.
      apply (continues_survives hs2 (ts ++ ps)); auto.
  - intros [k r] Hi. apply Hin in Hi. unfold r1 in Hi.
    apply invalidateSessions_lookup in Hi. destruct Hi as [Hi _]. apply Hw in Hi. exact Hi.
Qed.

(** C6, as stated, fails for the session that authorizes the command when
    it is used without the continue-session attribute: [Clear] returns no
    error, and the context of the session, which the registry held, is no
    longer there. *)
Lemma Clear_session_counterexample :
  registryExample !! 0x02000000 = Some (sessionContext 0x02000000 [2; 0; 0; 0])
  /\ fst (@Clear tcgAttributes pipelineWithSession
            (map_to_list (invalidateSessions (sessions pipelineWithSession) registryExample))
            registryExample) = None
  /\ snd (@Clear tcgAttributes pipelineWithSession
            (map_to_list (invalidateSessions (sessions pipelineWithSession) registryExample))
            registryExample) !! 0x02000000 = None.
Proof. repeat split; vm_compute; reflexivity. Qed.

Lemma registryExample_wellKeyed : wellKeyed registryExample.
Proof.
  intros key rc Hl. apply elem_of_map_to_list in Hl.
  vm_compute in Hl.
  repeat (apply elem_of_cons in Hl; destruct Hl as [Hl | Hl];
          [injection Hl as -> ->; reflexivity|]).
  apply elem_of_nil in Hl. contradiction.
Qed.

(** On the registry of the examples [Clear], authorized by a session used
    without the continue-session attribute, leaves the persistent object
    and evicts the transient one and the context of the session. *)
Lemma Clear_registry_witness :
  snd (@Clear tcgAttributes pipelineWithSession
         (map_to_list (invalidateSessions (sessions pipelineWithSession) registryExample))
         registryExample)
    !! 0x81000001 = Some (objectContext 0x81000001 [0; 11; 2])
  /\ snd (@Clear tcgAttributes pipelineWithSession
            (map_to_list (invalidateSessions (sessions pipelineWithSession) registryExample))
            registryExample)
       !! 0x80000001 = None
  /\ snd (@Clear tcgAttributes pipelineWithSession
            (map_to_list (invalidateSessions (sessions pipelineWithSession) registryExample))
            registryExample)
       !! 0x02000000 = None.
Proof.
  set (order := map_to_list (invalidateSessions (sessions pipelineWithSession) registryExample)).
  destruct (@Clear_registry tcgAttributes pipelineWithSession order registryExample
              (snd (@Clear tcgAttributes pipelineWithSession order registryExample)))
    as (ts & ps & Ht & Hps & Hall).
  - vm_compute. discriminate.
  - exact registryExample_wellKeyed.
  - intros s [<- | []]. reflexivity.
  - reflexivity.
  - reflexivity.
  - injection Ht as <-. injection Hps as <-. split; [|split].
    + apply Hall. split; [reflexivity | left; reflexivity].
    + destruct (snd (@Clear tcgAttributes pipelineWithSession order registryExample)
                  !! 0x80000001) as [rc|] eqn:Hl; [|reflexivity].
      apply Hall in Hl. destruct Hl as [Hl Hs].
      vm_compute in Hl. injection Hl as <-.
      destruct Hs as [Hs | []]. discriminate.
    + destruct (snd (@Clear tcgAttributes pipelineWithSession order registryExample)
                  !! 0x02000000) as [rc|] eqn:Hl; [|reflexivity].
      apply Hall in Hl. destruct Hl as [Hl Hs].
      vm_compute in Hl. injection Hl as <-.
      exfalso. apply Hs. left. reflexivity.
Defined.

(** ** Further properties of [Clear] *)

Lemma invalidateAll_subset (marked : list session) (resources : gmap Z ResourceContext)
  (key : Z) (rc : ResourceContext) :
  invalidateAll marked resources !! key = Some rc -> resources !! key = Some rc.
Proof.
  unfold invalidateAll. revert resources.
  induction marked as [|s marked IH]; intros resources; cbn [fold_left]; [auto|].
  intros Hq. apply IH in Hq. unfold evictResourceContext in Hq.
  apply lookup_delete_Some in Hq. tauto.
Qed.

Lemma clearStep_subset `{NVAttributeTable} (handles : gset Z)
  (resources : gmap Z ResourceContext) (entry : Z * ResourceContext)
  (key : Z) (rc : ResourceContext) :
  clearStep handles resources entry !! key = Some rc -> resources !! key = Some rc.
Proof.
  unfold clearStep, evictResourceContext.
  destruct (resources !! entry.1); [|auto].
  destruct (continues handles entry.2); [auto|].
  rewrite lookup_delete_Some. intros [_ Hq]. exact Hq.
Qed.

(** Whatever the registry holds, in whatever order the loop visits it and
    whether it succeeds or not, [Clear] only removes: every context of
    the registry afterwards was there before, under the same handle. *)
Theorem Clear_only_removes `{NVAttributeTable} (t : pipeline)
  (order : list (Z * ResourceContext)) (resources : gmap Z ResourceContext)
  (key : Z) (rc : ResourceContext) :
  snd (Clear t order resources) !! key = Some rc -> resources !! key = Some rc.
Proof.
  assert (Hinv : invalidateSessions (sessions t) resources !! key = Some rc ->
                 resources !! key = Some rc).
  { intros Hq. apply invalidateSessions_lookup in Hq. tauto. }
  unfold Clear.
  destruct (validateError t); [auto|].
  destruct (runError t); [apply invalidateAll_subset|].
  destruct (processError t);
    [cbn [snd]; intros Hq; apply Hinv; revert Hq; apply invalidateAll_subset|].
  destruct (getHandles (transientHandles t) ∅) as [hs1|]; [|auto].
  destruct (getHandles (persistentHandles t) hs1) as [hs2|]; [|auto].
  cbn [snd]. intros Hq. apply Hinv. revert Hq.
  generalize (invalidateSessions (sessions t) resources). clear Hinv.
  induction order as [|entry order IH]; intros r; cbn [fold_left]; [auto|].
  intros Hq. apply IH in Hq. apply clearStep_subset in Hq. exact Hq.
Qed.

(** The session of the examples is still there after [Clear], so it was
    there before. *)
Lemma Clear_only_removes_witness :
  registryExample !! 0x02000000 = Some (sessionContext 0x02000000 [2; 0; 0; 0]).
Proof.
  apply (@Clear_only_removes tcgAttributes pipelineExample (map_to_list registryExample)).
  vm_compute. reflexivity.
Defined.

(** ** [NVGlobalWriteLock] *)

(** When [NVGlobalWriteLock] succeeds, the contexts of the sessions that
    the command used without the continue-session attribute are gone, and
    the registry holds a context under every other handle under which it
    held one before, and under no other: every such context keeps its
    kind and handle; an NV index context whose global-lock bit is set has
    the write-locked bit set and every other attribute as before, and any
    other context is unchanged. A second successful call that uses no
    session changes nothing more. *)
Theorem NVGlobalWriteLock_effect `{Resources.Platform} `{NVLockTable}
  (sessions marked : list session) (resources : gmap Z ResourceContext) :
  0 <= globalLockBit -> 0 <= writeLockedBit ->
  exists resources',
    NVGlobalWriteLock sessions marked (processed None) resources = (None, resources')
    /\ NVGlobalWriteLock [] [] (processed None) resources' = (None, resources')
    /\ forall key,
         if bool_decide (key ∈ invalidated sessions) then resources' !! key = None
         else
           match resources !! key, resources' !! key with
           | None, None => True
           | Some rc, Some rc' =>
             Handle rc' = Handle rc
             /\ match rc, rc' with
                | nvIndexContext _ _ p, nvIndexContext _ _ p' =>
                  if Z.testbit (Resources.Attrs p) globalLockBit then
                    forall i, 0 <= i ->
                              Z.testbit (Resources.Attrs p') i
                              = Z.testbit (Resources.Attrs p) i || (i =? writeLockedBit)
                  else rc' = rc
                | _, _ => rc' = rc
                end
           | _, _ => False
           end.
Proof.
  intros Hg Hl.
  assert (Hidem : forall rc, writeLock (writeLock rc) = writeLock rc).
  { intros [h|h n|h n p|h n]; try reflexivity. cbn [writeLock].
    unfold AttrNVGlobalLock. rewrite land_bit_gt0 by exact Hg.
    destruct (Z.testbit (Resources.Attrs p) globalLockBit) eqn:Hb;
      cbn [setAttr writeLock Resources.withNVAttrs Resources.Attrs].
    - unfold AttrNVGlobalLock. rewrite land_bit_gt0 by exact Hg.
      rewrite Z.lor_spec, Hb. cbn [orb setAttr Resources.withNVAttrs Resources.Attrs
                                     Resources.Index Resources.NameAlg
                                     Resources.AuthPolicy Resources.NVSize].
      rewrite <- Z.lor_assoc, Z.lor_diag. reflexivity.
    - unfold AttrNVGlobalLock. rewrite land_bit_gt0 by exact Hg. rewrite Hb. reflexivity. }
  exists (writeLock <$> invalidateSessions sessions resources).
  split; [reflexivity|]. split.
  - unfold NVGlobalWriteLock, RunCommand. cbn [invalidateSessions fold_left].
    f_equal. rewrite <- map_fmap_compose.
    apply map_fmap_ext. intros k rc _. apply Hidem.
  - intros key. rewrite lookup_fmap.
    destruct (bool_decide (key ∈ invalidated sessions)) eqn:Hd.
    + apply bool_decide_eq_true in Hd. apply list_elem_of_In in Hd.
      destruct (invalidateSessions sessions resources !! key) as [rc|] eqn:Hr; [|reflexivity].
      apply invalidateSessions_lookup in Hr. tauto.
    + apply bool_decide_eq_false in Hd. rewrite list_elem_of_In in Hd.
      assert (Hsame : invalidateSessions sessions resources !! key = resources !! key).
      { destruct (resources !! key) as [rc|] eqn:Hr.
        - apply invalidateSessions_lookup. split; assumption.
        - destruct (invalidateSessions sessions resources !! key) as [rc|] eqn:Hr';
            [|reflexivity].
          apply invalidateSessions_lookup in Hr'. destruct Hr' as [Hr' _]. congruence. }
      rewrite Hsame.
      destruct (resources !! key) as [rc|]; cbn [fmap option_fmap option_map]; [|exact I].
      destruct rc as [h|h n|h n p|h n]; cbn [writeLock]; try (split; reflexivity).
      unfold AttrNVGlobalLock. rewrite land_bit_gt0 by exact Hg.
      destruct (Z.testbit (Resources.Attrs p) globalLockBit) eqn:Hb;
        cbn [setAttr Handle Resources.withNVAttrs Resources.Attrs].
      * split; [reflexivity|]. intros i Hi.
        unfold AttrNVWriteLocked. rewrite Z.lor_spec, Z.shiftl_1_l.
        rewrite Z.pow2_bits_eqb by exact Hl. rewrite (Z.eqb_sym writeLockedBit i).
        reflexivity.
      * split; reflexivity.
Qed.

(** The registry of the examples, the command being authorized by the
    session of the registry, used without the continue-session
    attribute. *)
Lemma NVGlobalWriteLock_effect_witness :
  exists resources',
    @NVGlobalWriteLock Resources.sim tcgLocks (sessions pipelineWithSession) []
      (processed None) registryExample = (None, resources')
    /\ @NVGlobalWriteLock Resources.sim tcgLocks [] [] (processed None) resources'
       = (None, resources')
    /\ resources' !! 0x02000000 = None.
Proof.
  destruct (@NVGlobalWriteLock_effect Resources.sim tcgLocks (sessions pipelineWithSession)
              [] registryExample ltac:(cbn; lia) ltac:(cbn; lia)) as (r' & H1 & H2 & H3).
  exists r'. split; [assumption|]. split; [assumption|].
  exact (H3 0x02000000).
Defined.

(** ** The transport *)

Import Transport.

Lemma readN_short (n : nat) (buf : list Z) :
  (length buf < n)%nat -> readN n buf = None.
Proof.
  intros Hl. unfold readN. apply Nat.ltb_lt in Hl. rewrite Hl. reflexivity.
Qed.

Lemma readN_enough (n : nat) (buf : list Z) :
  (n <= length buf)%nat -> readN n buf = Some (firstn n buf, skipn n buf).
Proof.
  intros Hl. unfold readN. apply Nat.ltb_ge in Hl. rewrite Hl. reflexivity.
Qed.

(** The header of a command, marshalled. *)
Lemma marshal_commandHeader `{Reflection} (fuel : nat) (tag size code : Z) :
  MarshalToBytes (S (S fuel)) [(commandHeader, VStruct [VInt tag; VInt size; VInt code])]
  = Ok (be 2 tag ++ be 4 size ++ be 4 code).
Proof.
  unfold MarshalToBytes. cbn -[be]. rewrite !app_nil_r. reflexivity.
Qed.

(** The header of a response, unmarshalled from at least ten bytes, and
    from fewer. *)
Lemma unmarshal_responseHeader `{Reflection} (fuel : nat) (r : list Z) :
  UnmarshalFromBytes (S (S fuel)) r [(Ptr responseHeader, VPtr (Some (Zero responseHeader)))]
  = if (length r <? 10)%nat then
      (0, Some ReadFailed, [(Ptr responseHeader, VPtr (Some (Zero responseHeader)))])
    else
      (10, None,
       [(Ptr responseHeader,
         VPtr (Some (VStruct [VInt (decode_be (firstn 2 r));
                              VInt (decode_be (firstn 4 (skipn 2 r)));
                              VInt (decode_be (firstn 4 (skipn 6 r)))])))]).
Proof.
  unfold UnmarshalFromBytes.
  cbn -[readN decode_be firstn skipn Nat.ltb len].
  destruct (Nat.ltb_spec (length r) 10) as [Hlt|Hge].
  - destruct (Nat.ltb_spec (length r) 2) as [H2|H2].
    + rewrite readN_short by exact H2. reflexivity.
    + rewrite readN_enough by exact H2. cbn -[readN decode_be firstn skipn Nat.ltb len].
      destruct (Nat.ltb_spec (length (skipn 2 r)) 4) as [H4|H4].
      * rewrite readN_short by exact H4. reflexivity.
      * rewrite readN_enough by exact H4. cbn -[readN decode_be firstn skipn Nat.ltb len].
        rewrite readN_short; [reflexivity|].
        rewrite !length_skipn. lia.
  - rewrite readN_enough by lia. cbn -[readN decode_be firstn skipn Nat.ltb len].
    rewrite readN_enough by (rewrite length_skipn; lia).
    cbn -[readN decode_be firstn skipn Nat.ltb len].
    rewrite readN_enough by (rewrite !length_skipn; lia).
    cbn -[readN decode_be firstn skipn Nat.ltb len].
    rewrite !skipn_skipn. cbn [Nat.add].
    unfold len. rewrite length_skipn. f_equal. f_equal. lia.
Qed.

(** [RunCommandBytes] writes the header with the tag, the total size and
    the command code, then the command bytes. An error of the device on
    writing or reading is returned as such. A response of fewer than ten
    bytes, after truncation to [maxCommandSize], is an unmarshalling
    error. Otherwise the tag is read from the first two bytes and the
    response code from bytes six to nine, the size field of the response
    is not looked at, and the bytes after the header are returned when
    the response code is [Success], or else the decoded error. *)
Theorem RunCommandBytes_frame `{Reflection} `{ResponseCodeTable} (fuel : nat) (tpm : device)
  (tag commandCode : Z) (commandBytes : list Z) :
  (forall e, Write tpm (frame tag commandCode commandBytes) = Some e ->
             RunCommandBytes (S (S fuel)) tpm tag commandCode commandBytes
             = (0, 0, None, Some (TPMWriteError e)))
  /\ (forall e, Write tpm (frame tag commandCode commandBytes) = None ->
                Read tpm (frame tag commandCode commandBytes) = Err e ->
                RunCommandBytes (S (S fuel)) tpm tag commandCode commandBytes
                = (0, 0, None, Some (TPMReadError e)))
  /\ (forall answer,
        Write tpm (frame tag commandCode commandBytes) = None ->
        Read tpm (frame tag commandCode commandBytes) = Ok answer ->
        RunCommandBytes (S (S fuel)) tpm tag commandCode commandBytes
        = let r := firstn maxCommandSize answer in
          if (length r <? 10)%nat then (0, 0, None, Some (UnmarshallingError ReadFailed))
          else
            match DecodeResponseCode commandCode (decode_be (firstn 4 (skipn 6 r))) with
            | Some err =>
              (decode_be (firstn 4 (skipn 6 r)), decode_be (firstn 2 r), None,
               Some (ResponseError err))
            | None =>
              (decode_be (firstn 4 (skipn 6 r)), decode_be (firstn 2 r),
               Some (skipn 10 r), None)
            end)
  /\ (10 + len commandBytes < 2 ^ 32 ->
      decode_be (firstn 4 (skipn 2 (frame tag commandCode commandBytes)))
      = len (frame tag commandCode commandBytes)).
Proof.
  assert (Hw : forall X (k : list Z -> X),
             match MarshalToBytes (S (S fuel))
                     [(commandHeader,
                       VStruct [VInt tag; VInt (wrap32 (10 + len commandBytes));
                                VInt commandCode])] with
             | Ok headerBytes => k (headerBytes ++ commandBytes)
             | Err err => k []
             end = k (frame tag commandCode commandBytes)).
  { intros X k. rewrite marshal_commandHeader. unfold frame.
    rewrite <- !app_assoc. reflexivity. }
  unfold RunCommandBytes. rewrite marshal_commandHeader.
  replace ((be 2 tag ++ be 4 (wrap32 (10 + len commandBytes)) ++ be 4 commandCode)
           ++ commandBytes)
    with (frame tag commandCode commandBytes)
    by (unfold frame; rewrite <- !app_assoc; reflexivity).
  split; [|split; [|split]].
  - intros e ->. reflexivity.
  - intros e -> ->. reflexivity.
  - intros answer -> ->. cbv zeta. rewrite unmarshal_responseHeader.
    destruct (length (firstn maxCommandSize answer) <? 10)%nat; [reflexivity|].
    reflexivity.
  - intros Hs. unfold frame.
    assert (Hl : 0 <= len commandBytes) by (unfold len; lia).
    replace (skipn 2 (be 2 tag ++ be 4 (wrap32 (10 + len commandBytes))
                      ++ be 4 commandCode ++ commandBytes))
      with (be 4 (wrap32 (10 + len commandBytes)) ++ be 4 commandCode ++ commandBytes)
      by reflexivity.
    replace (firstn 4 (be 4 (wrap32 (10 + len commandBytes)) ++ be 4 commandCode
                       ++ commandBytes))
      with (be 4 (wrap32 (10 + len commandBytes))) by reflexivity.
    unfold wrap32. rewrite Z.mod_small by lia.
    rewrite decode_be_be by (simpl; lia).
    unfold len. rewrite !length_app, !length_be. lia.
Qed.

(** A device that answers the command [GetRandom] without sessions with a
    header for success and two bytes. *)
Lemma RunCommandBytes_frame_witness :
  @RunCommandBytes plain tcgTable 2
    (echo [0x80; 0x01; 0; 0; 0; 12; 0; 0; 0; 0; 0xab; 0xcd]) 0x8001 0x17b [0; 2]
  = (0, 0x8001, Some [0xab; 0xcd], None).
Proof.
  rewrite (proj1 (proj2 (proj2 (@RunCommandBytes_frame plain tcgTable 0
             (echo [0x80; 0x01; 0; 0; 0; 12; 0; 0; 0; 0; 0xab; 0xcd]) 0x8001 0x17b [0; 2])))
             [0x80; 0x01; 0; 0; 0; 12; 0; 0; 0; 0; 0xab; 0xcd] eq_refl eq_refl).
  reflexivity.
Defined.

(** *** The arguments of [RunCommand] *)

Lemma runCommand_args {A : Type} (l : list A) (s : nat) (c r : list (param A)) :
  fold_left runCommandStep (map Arg l) (s, c, r)
  = match s with
    | 0%nat | 1%nat => (s, c ++ map Arg l, r)
    | 2%nat | 3%nat => (s, c, r ++ map Arg l)
    | 4%nat => (s, c ++ map Arg l, r ++ map Arg l)
    | _ => (s, c, r)
    end.
Proof.
  revert c r. induction l as [|a l IH]; intros c r; cbn [map fold_left].
  - rewrite !app_nil_r. destruct s as [|[|[|[|[|s]]]]]; reflexivity.
  - destruct s as [|[|[|[|[|s]]]]]; cbn [runCommandStep isSeparator]; rewrite IH;
      rewrite <- ?app_assoc; reflexivity.
Qed.

Lemma runCommand_ignored {A : Type} (l : list (param A)) (s : nat) (c r : list (param A)) :
  fold_left runCommandStep l (S (S (S (S (S s)))), c, r) = (S (S (S (S (S s)))), c, r).
Proof.
  induction l as [|p l IH]; [reflexivity | exact IH].
Qed.

Lemma section_args {A : Type} (isHandle : A -> bool) (l : list A) (s : nat)
  (h p ss : list A) :
  (s = 0%nat -> forallb isHandle l = true) ->
  fold_left (sectionStep isHandle) (map Arg l) (Some (s, h, p, ss))
  = match s with
    | 0%nat => Some (s, h ++ l, p, ss)
    | 1%nat => Some (s, h, p ++ l, ss)
    | 2%nat => Some (s, h, p, ss ++ l)
    | _ => Some (s, h, p, ss)
    end.
Proof.
  revert h p ss. induction l as [|a l IH]; intros h p ss Hh; cbn [map fold_left].
  - rewrite !app_nil_r. destruct s as [|[|[|s]]]; reflexivity.
  - destruct s as [|[|[|s]]]; cbn [sectionStep].
    + specialize (Hh eq_refl). cbn in Hh. apply andb_prop in Hh. destruct Hh as [Ha Hl].
      rewrite Ha, IH by (intros _; exact Hl). rewrite <- app_assoc. reflexivity.
    + rewrite IH by discriminate. rewrite <- app_assoc. reflexivity.
    + rewrite IH by discriminate. rewrite <- app_assoc. reflexivity.
    + rewrite IH by discriminate. reflexivity.
Qed.

(** [RunCommand] hands the command handles, the command parameters and
    the session parameters to [RunCommandAndReturnRawResponse], and the
    response handles, the response parameters and the same session
    parameters to [ProcessResponse], each of which finds its three parts
    again; what follows a fifth separator reaches neither. *)
Theorem RunCommand_arguments {A : Type} (isCommandHandle isResponseHandle : A -> bool)
  (ch cp rh rp ss : list A) (tail : list (param A)) :
  forallb isCommandHandle ch = true ->
  forallb isResponseHandle rh = true ->
  tail = [] \/ (exists extra, tail = Separator :: extra) ->
  sections isCommandHandle (fst (runCommandArgs (arguments ch cp rh rp ss tail)))
  = Some (ch, cp, ss)
  /\ sections isResponseHandle (snd (runCommandArgs (arguments ch cp rh rp ss tail)))
     = Some (rh, rp, ss).
Proof.
  intros Hc Hr Ht. unfold runCommandArgs, arguments.
  repeat (rewrite fold_left_app, runCommand_args; cbn [fold_left runCommandStep isSeparator app]).
  assert (Hs : forall isHandle (h p : list A),
             forallb isHandle h = true ->
             sections isHandle
               (map Arg h ++ Separator :: map Arg p ++ Separator :: map Arg ss)
             = Some (h, p, ss)
             /\ sections isHandle
                  (map Arg h ++ Separator :: map Arg p ++ Separator :: map Arg ss
                   ++ [Separator])
                = Some (h, p, ss)).
  { intros isHandle h p Hh. unfold sections. split.
    - rewrite fold_left_app, section_args by (intros _; exact Hh).
      cbn [fold_left sectionStep app].
      rewrite fold_left_app, section_args by discriminate.
      cbn [fold_left sectionStep app].
      rewrite section_args by discriminate. reflexivity.
    - rewrite fold_left_app, section_args by (intros _; exact Hh).
      cbn [fold_left sectionStep app].
      rewrite fold_left_app, section_args by discriminate.
      cbn [fold_left sectionStep app].
      rewrite fold_left_app, section_args by discriminate. reflexivity. }
  destruct Ht as [->|[extra ->]].
  - cbn [fold_left fst snd app]. rewrite ?app_nil_r.
    repeat (rewrite <- app_assoc; cbn [app]).
    split; [apply (Hs isCommandHandle ch cp Hc) | apply (Hs isResponseHandle rh rp Hr)].
  - cbn [fold_left runCommandStep isSeparator]. rewrite runCommand_ignored.
    cbn [fst snd app].
    repeat (rewrite <- app_assoc; cbn [app]).
    split; [apply (Hs isCommandHandle ch cp Hc) | apply (Hs isResponseHandle rh rp Hr)].
Qed.

(** The arguments of a command with one handle, two parameters, one
    response parameter and a session. *)
Lemma RunCommand_arguments_witness :
  sections (fun a => a <? 10)
           (fst (runCommandArgs (arguments [1] [20; 21] [] [30] [40] [])))
  = Some ([1], [20; 21], [40])
  /\ sections (fun a => a <? 10)
              (snd (runCommandArgs (arguments [1] [20; 21] [] [30] [40] [])))
     = Some ([], [30], [40]).
Proof.
  apply (@RunCommand_arguments Z (fun a => a <? 10) (fun a => a <? 10)
           [1] [20; 21] [] [30] [40] []).
  - reflexivity.
  - reflexivity.
  - left. reflexivity.
Defined.
